(** * ai-code-auto-updater: detection, version reconciliation and update
      orchestration, embedded from the JavaScript sources.

    The repository keeps three successive revisions of [index.js] in one
    file (separated by a marker line), together with the later modular
    managers.  The sections below name the revision each definition is
    taken from:

    - [Fanout]   : second revision of [index.js] (Cursor profile fan-out);
    - [Monitor]  : third revision of [index.js] ([IDEManager] and
                   [AugmentMonitor] with multi-IDE selection);
    - [Managers], [IDEManager] : [src/managers/cli-manager.js], the CLI
                   manager and the modular IDE manager.

    JavaScript strings are modelled as [string] (sequences of 8-bit code
    units; on these the UTF-16 code-unit order of JavaScript is the byte
    order).  [null] and [undefined] are [None].  An exception is the [Throw]
    constructor of [result]. *)

From Stdlib Require Import NArith ZArith Lia Bool List Ascii String.
From Stdlib Require Import DecimalString DecimalN DecimalFacts.
From Stdlib Require Import Sorted Permutation.
From stdpp Require Import base option list strings gmap.

Import ListNotations.
Local Open Scope string_scope.
Local Open Scope list_scope.

#[local] Arguments String.append !s1 s2 / : simpl nomatch.

(** ** JavaScript values the code relies on *)

Module Js.

(** Outcome of a call that may throw; the payload of [Throw] is the
    error's [message]. *)
Inductive result (A : Type) : Type :=
| Ok (a : A)
| Throw (msg : string).
Arguments Ok {A} a.
Arguments Throw {A} msg.

Definition bind {A B} (r : result A) (k : A -> result B) : result B :=
  match r with
  | Ok a => k a
  | Throw m => Throw m
  end.

Definition is_ok {A} (r : result A) : bool :=
  match r with Ok _ => true | Throw _ => false end.

(** Truthiness of a string-or-null value: [null] and [""] are falsy. *)
Definition truthy (v : option string) : bool :=
  match v with
  | None => false
  | Some s => negb (String.eqb s "")
  end.

Definition code (c : ascii) : nat := nat_of_ascii c.

Definition is_digit (c : ascii) : bool :=
  (48 <=? code c)%nat && (code c <=? 57)%nat.

Definition is_alpha (c : ascii) : bool :=
  ((65 <=? code c)%nat && (code c <=? 90)%nat)
  || ((97 <=? code c)%nat && (code c <=? 122)%nat).

(** [\s] restricted to 8-bit code units. *)
Definition is_space (c : ascii) : bool :=
  let n := code c in
  ((9 <=? n)%nat && (n <=? 13)%nat) || (n =? 32)%nat || (n =? 160)%nat.

(** Line terminators excluded by the regular-expression dot. *)
Definition is_line_terminator (c : ascii) : bool :=
  (code c =? 10)%nat || (code c =? 13)%nat.

Fixpoint all_chars (p : ascii -> bool) (s : string) : bool :=
  match s with
  | EmptyString => true
  | String c s' => p c && all_chars p s'
  end.

(** Longest prefix whose characters satisfy [p], and the remainder. *)
Fixpoint span (p : ascii -> bool) (s : string) : string * string :=
  match s with
  | EmptyString => (EmptyString, EmptyString)
  | String c s' =>
      if p c then let '(a, b) := span p s' in (String c a, b)
      else (EmptyString, s)
  end.

(** [String.prototype.startsWith]. *)
Definition startsWith (s pre : string) : bool := String.prefix pre s.

Fixpoint drop (n : nat) (s : string) : string :=
  match n, s with
  | O, _ => s
  | S n', String _ s' => drop n' s'
  | S _, EmptyString => EmptyString
  end.

(** [String.prototype.includes]. *)
Fixpoint includes (s sub : string) : bool :=
  String.prefix sub s ||
  match s with
  | EmptyString => false
  | String _ s' => includes s' sub
  end.

(** [s.replace(pat, '')] for a string pattern: the first occurrence of
    [pat] is removed. *)
Fixpoint replace_first_empty (s pat : string) : string :=
  if String.prefix pat s then drop (String.length pat) s
  else match s with
       | EmptyString => EmptyString
       | String c s' => String c (replace_first_empty s' pat)
       end.

Fixpoint trim_start (s : string) : string :=
  match s with
  | EmptyString => EmptyString
  | String c s' => if is_space c then trim_start s' else s
  end.

Fixpoint trim_end (s : string) : string :=
  match s with
  | EmptyString => EmptyString
  | String c s' =>
      let t := trim_end s' in
      if is_space c && String.eqb t "" then EmptyString else String c t
  end.

(** [String.prototype.trim]. *)
Definition trim (s : string) : string := trim_end (trim_start s).

(** [s.split(sep)] for a one-character separator. *)
Fixpoint split (sep : ascii) (s : string) : list string :=
  match s with
  | EmptyString => [EmptyString]
  | String c s' =>
      if Ascii.eqb c sep then EmptyString :: split sep s'
      else match split sep s' with
           | [] => [String c EmptyString]
           | x :: xs => String c x :: xs
           end
  end.

(** [parts.join(sep)]. *)
Definition array_join (sep : string) (parts : list string) : string :=
  String.concat sep parts.

(** Decimal rendering of a non-negative integer, [String(n)]. *)
Definition show (n : N) : string := NilEmpty.string_of_uint (N.to_uint n).

(** Value of a string of decimal digits, [+s]. *)
Definition num (s : string) : N :=
  match NilEmpty.uint_of_string s with
  | Some d => N.of_uint d
  | None => 0%N
  end.

(** The double-quote character, as a string. *)
Definition dquote : string := String (ascii_of_nat 34) EmptyString.

(** The rest of [s] after a leading [c], if [s] starts with [c]. *)
Definition strip_char (c : ascii) (s : string) : option string :=
  match s with
  | EmptyString => None
  | String x r => if Ascii.eqb x c then Some r else None
  end.

(** First element on which [f] succeeds. *)
Fixpoint first_some {A B} (f : A -> option B) (l : list A) : option B :=
  match l with
  | [] => None
  | x :: xs => match f x with Some b => Some b | None => first_some f xs end
  end.

End Js.

Import Js.

(** ** The [semver] package, as far as the code calls it

    [semver] is a dependency, not part of the repository; the definitions
    below follow its strict (non-loose) grammar (an optional [v], three
    dotted numeric identifiers without leading zeros, an optional
    [-]prerelease and an optional [+]build, each a dotted list of
    identifiers over digits, letters and the hyphen), its precedence
    rules, and [coerce]. A numeric prerelease identifier at or above
    [MAX_SAFE_INTEGER] is kept as text by the package and compared after
    conversion to a double, so that two such identifiers that round alike
    are equal. *)

Module Semver.

Definition MAX_LENGTH : nat := 256.
Definition MAX_SAFE_INTEGER : N := 9007199254740991.
Definition MAX_SAFE_COMPONENT_LENGTH : nat := 16.

Inductive PreId : Type :=
| PNum (n : N)
| PStr (s : string).

Record SemVer : Type := mkSemVer {
  major : N;
  minor : N;
  patch : N;
  prerelease : list PreId;
  build : list string
}.

(** A numeric identifier: [0], or digits not starting with [0]. The
    argument is a maximal run of digits. *)
Definition numeric_identifier (ds : string) : bool :=
  match ds with
  | EmptyString => false
  | String c rest =>
      all_chars is_digit ds
      && (negb (Ascii.eqb c "0") || String.eqb rest "")
  end.

Definition is_id_char (c : ascii) : bool :=
  is_digit c || is_alpha c || Ascii.eqb c "-".

(** A prerelease identifier: numeric without leading zero, or a word
    over [[0-9A-Za-z-]] holding at least one non-digit. *)
Definition prerelease_identifier (s : string) : bool :=
  negb (String.eqb s "") && all_chars is_id_char s
  && (negb (all_chars is_digit s) || numeric_identifier s).

Definition build_identifier (s : string) : bool :=
  negb (String.eqb s "") && all_chars is_id_char s.

Definition pre_of_string (s : string) : PreId :=
  if all_chars is_digit s && (num s <? MAX_SAFE_INTEGER)%N
  then PNum (num s) else PStr s.

Definition show_pre (p : PreId) : string :=
  match p with PNum n => show n | PStr s => s end.

(** The three dotted numeric components and what follows them. *)
Definition parse_main (s : string) : option (string * string * string * string) :=
  let '(a, r1) := span is_digit s in
  match strip_char "." r1 with
  | Some r1' =>
      let '(b, r2) := span is_digit r1' in
      match strip_char "." r2 with
      | Some r2' =>
          let '(c, r3) := span is_digit r2' in
          if numeric_identifier a && numeric_identifier b && numeric_identifier c
          then Some (a, b, c, r3) else None
      | None => None
      end
  | None => None
  end.

(** The optional [-prerelease] and [+build] tails. *)
Definition parse_build (b : string) : option (list string) :=
  let parts := split "." b in
  if forallb build_identifier parts then Some parts else None.

Definition parse_tail (r : string) : option (list PreId * list string) :=
  match r with
  | EmptyString => Some ([], [])
  | String x rest =>
      if Ascii.eqb x "-" then
        let '(p, y) := span (fun c => negb (Ascii.eqb c "+")) rest in
        let pres := split "." p in
        if forallb prerelease_identifier pres then
          match y with
          | EmptyString => Some (map pre_of_string pres, [])
          | String _ b =>
              match parse_build b with
              | Some bs => Some (map pre_of_string pres, bs)
              | None => None
              end
          end
        else None
      else if Ascii.eqb x "+" then
        match parse_build rest with
        | Some bs => Some ([], bs)
        | None => None
        end
      else None
  end.

(** [new SemVer(version)] in strict mode; [None] where it throws. *)
Definition parse (version : string) : option SemVer :=
  if (MAX_LENGTH <? String.length version)%nat then None
  else
    let t := trim version in
    let t' := default t (strip_char "v" t) in
    match parse_main t' with
    | None => None
    | Some (a, b, c, r) =>
        match parse_tail r with
        | None => None
        | Some (pre, bld) =>
            if (num a <=? MAX_SAFE_INTEGER)%N && (num b <=? MAX_SAFE_INTEGER)%N
               && (num c <=? MAX_SAFE_INTEGER)%N
            then Some (mkSemVer (num a) (num b) (num c) pre bld)
            else None
        end
    end.

(** [SemVer.prototype.format]: the [version] property. *)
Definition version (v : SemVer) : string :=
  show (major v) ++ "." ++ show (minor v) ++ "." ++ show (patch v)
  ++ match prerelease v with
     | [] => ""
     | ids => "-" ++ array_join "." (map show_pre ids)
     end.

(** [semver.valid]. *)
Definition valid (v : string) : option string := option_map version (parse v).

Definition pre_numeric (p : PreId) : bool :=
  match p with PNum _ => true | PStr s => all_chars is_digit s end.

(** [+s] for a string of digits of value [n]: the double nearest to
    [n], ties to the even significand, given as the integer it equals;
    [2^1024] stands for [Infinity]. *)
Definition to_double (n : N) : N :=
  let bits := N.size n in
  if (bits <=? 53)%N then n
  else
    let e := (bits - 53)%N in
    let q := N.shiftr n e in
    let r := N.land n (N.ones e) in
    let half := N.shiftl 1 (e - 1) in
    let q' := if (half <? r)%N || ((r =? half)%N && N.odd q) then (q + 1)%N else q in
    let d := N.shiftl q' e in
    if (N.shiftl 1 1024 <=? d)%N then N.shiftl 1 1024 else d.

(** The number [compareIdentifiers] compares: an identifier below
    [MAX_SAFE_INTEGER] is held as that number, a longer one is converted
    by [+]. *)
Definition pre_value (p : PreId) : N :=
  match p with PNum n => n | PStr s => to_double (num s) end.

Definition pre_text (p : PreId) : string := show_pre p.

(** [compareIdentifiers]. *)
Definition compareIdentifiers (a b : PreId) : comparison :=
  match pre_numeric a, pre_numeric b with
  | true, true => N.compare (pre_value a) (pre_value b)
  | true, false => Lt
  | false, true => Gt
  | false, false => String.compare (pre_text a) (pre_text b)
  end.

Definition lex (c1 c2 : comparison) : comparison :=
  match c1 with Eq => c2 | _ => c1 end.

(** [compareMain]. *)
Definition compareMain (x y : SemVer) : comparison :=
  lex (N.compare (major x) (major y))
      (lex (N.compare (minor x) (minor y)) (N.compare (patch x) (patch y))).

Fixpoint comparePreLoop (a b : list PreId) : comparison :=
  match a, b with
  | [], [] => Eq
  | _ :: _, [] => Gt
  | [], _ :: _ => Lt
  | x :: a', y :: b' =>
      match compareIdentifiers x y with
      | Eq => comparePreLoop a' b'
      | c => c
      end
  end.

(** [comparePre]: a release outranks each of its prereleases. *)
Definition comparePreIds (a b : list PreId) : comparison :=
  match a, b with
  | _ :: _, [] => Lt
  | [], _ :: _ => Gt
  | [], [] => Eq
  | a, b => comparePreLoop a b
  end.

Definition comparePre (x y : SemVer) : comparison :=
  comparePreIds (prerelease x) (prerelease y).

(** [SemVer.prototype.compare]. *)
Definition compareSemVer (x y : SemVer) : comparison :=
  lex (compareMain x y) (comparePre x y).

(** [semver.compare(a, b)]; throws on an invalid operand. *)
Definition compare (a b : string) : result comparison :=
  match parse a, parse b with
  | Some x, Some y => Ok (compareSemVer x y)
  | None, _ => Throw ("Invalid Version: " ++ a)
  | _, None => Throw ("Invalid Version: " ++ b)
  end.

(** [semver.gt(a, b)]. *)
Definition gt (a b : string) : result bool :=
  bind (compare a b) (fun c => Ok match c with Gt => true | _ => false end).

(** [semver.rcompare(a, b)]. *)
Definition rcompare (a b : string) : result comparison := compare b a.

(** *** [coerce]

    The pattern is
    [(^|[^\d])(\d{1,16})(?:\.(\d{1,16}))?(?:\.(\d{1,16}))?(?:$|[^\d])],
    matched leftmost with greedy, backtracking quantifiers. *)

(** Candidates of [\d{1,n}] at the head of [s], longest first. *)
Fixpoint rx_digits (n : nat) (s : string) : list (string * string) :=
  match n, s with
  | S n', String c s' =>
      if is_digit c
      then map (fun pr => (String c (fst pr), snd pr)) (rx_digits n' s')
           ++ [(String c EmptyString, s')]
      else []
  | _, _ => []
  end.

(** [(?:$|[^\d])]. *)
Definition rx_end (s : string) : bool :=
  match s with
  | EmptyString => true
  | String c _ => negb (is_digit c)
  end.

(** The optional third group followed by the closing boundary. *)
Definition rx_patch (r : string) : option (option string) :=
  match
    match strip_char "." r with
    | Some x =>
        first_some (fun pr => if rx_end (snd pr) then Some (fst pr) else None)
                   (rx_digits MAX_SAFE_COMPONENT_LENGTH x)
    | None => None
    end
  with
  | Some p => Some (Some p)
  | None => if rx_end r then Some None else None
  end.

(** The optional second group and what follows it. *)
Definition rx_minor (r : string) : option (option string * option string) :=
  match
    match strip_char "." r with
    | Some x =>
        first_some (fun pr => match rx_patch (snd pr) with
                              | Some p => Some (Some (fst pr), p)
                              | None => None
                              end)
                   (rx_digits MAX_SAFE_COMPONENT_LENGTH x)
    | None => None
    end
  with
  | Some mp => Some mp
  | None => match rx_patch r with
            | Some p => Some (None, p)
            | None => None
            end
  end.

(** The pattern with its first digit at the head of [s]. *)
Definition rx_from (s : string)
  : option (string * option string * option string) :=
  first_some (fun pr => match rx_minor (snd pr) with
                        | Some (m, p) => Some (fst pr, m, p)
                        | None => None
                        end)
             (rx_digits MAX_SAFE_COMPONENT_LENGTH s).

(** Later start positions: the leading alternative consumes one
    non-digit. *)
Fixpoint rx_search (s : string)
  : option (string * option string * option string) :=
  match s with
  | EmptyString => None
  | String c s' =>
      if is_digit c then rx_search s'
      else match rx_from s' with
           | Some r => Some r
           | None => rx_search s'
           end
  end.

Definition coerce_match (s : string)
  : option (string * option string * option string) :=
  match rx_from s with
  | Some r => Some r
  | None => rx_search s
  end.

(** [semver.coerce] on a string. *)
Definition coerce (v : string) : option SemVer :=
  match coerce_match v with
  | None => None
  | Some (a, mb, mc) =>
      parse (a ++ "." ++ default "0" mb ++ "." ++ default "0" mc)
  end.

End Semver.

(** ** Version normalisation ([AugmentMonitor.normalizeVersion]) *)

Definition normalizeVersion (version : option string) : option string :=
  if negb (truthy version) then None
  else match version with
       | None => None
       | Some v => option_map Semver.version (Semver.coerce v)
       end.

(** ** [Array.prototype.sort]

    ECMAScript requires the sort to be stable, and for a consistent
    comparator every stable sort returns the same array; the sort is
    written here as a stable insertion sort.  A comparator returns [Lt]
    for a negative number, [Eq] for zero and [Gt] for a positive one, and
    may throw. *)

Module JsArray.

Fixpoint insert_by {A} (cmp : A -> A -> result comparison) (x : A) (l : list A)
  : result (list A) :=
  match l with
  | [] => Ok [x]
  | y :: ys =>
      bind (cmp x y) (fun c =>
        match c with
        | Gt => bind (insert_by cmp x ys) (fun r => Ok (y :: r))
        | _ => Ok (x :: y :: ys)
        end)
  end.

(** [arr.sort(cmp)]. *)
Fixpoint sort_by {A} (cmp : A -> A -> result comparison) (l : list A)
  : result (list A) :=
  match l with
  | [] => Ok []
  | x :: xs => bind (sort_by cmp xs) (insert_by cmp x)
  end.

(** The default comparator on strings: code-unit order. *)
Definition default_compare (a b : string) : result comparison :=
  Ok (String.compare a b).

(** [arr.sort()] on an array of strings. *)
Definition sort (l : list string) : list string :=
  match sort_by default_compare l with
  | Ok r => r
  | Throw _ => l
  end.

(** Sorting with a comparator that does not throw. *)
Fixpoint insert_with {A} (cmp : A -> A -> comparison) (x : A) (l : list A) : list A :=
  match l with
  | [] => [x]
  | y :: ys =>
      match cmp x y with
      | Gt => y :: insert_with cmp x ys
      | _ => x :: y :: ys
      end
  end.

Definition sort_with {A} (cmp : A -> A -> comparison) (l : list A) : list A :=
  fold_right (insert_with cmp) [] l.

(** [arr.pop()]: the last element, [undefined] on an empty array. *)
Fixpoint pop {A} (l : list A) : option A :=
  match l with
  | [] => None
  | x :: l' => match l' with [] => Some x | _ :: _ => pop l' end
  end.

(** [arr.filter(f)] with a callback that may throw. *)
Fixpoint filter_by {A} (f : A -> result bool) (l : list A) : result (list A) :=
  match l with
  | [] => Ok []
  | x :: xs =>
      bind (f x) (fun keep =>
      bind (filter_by f xs) (fun r => Ok (if keep then x :: r else r)))
  end.

End JsArray.

(** ** Reading the installed version from an extensions directory

    [IDEManager.getExtensionVersionFromDir], identical in the third
    revision of [index.js] and in the modular manager. *)

(** What [fs.existsSync] and [fs.readdirSync] report for a directory. *)
Inductive DirState : Type :=
| Missing
| Unreadable (msg : string)
| Listing (entries : list string).

Definition folderPrefix (extensionId : string) : string := extensionId +:+ "-".

(** The version suffixes kept by the scan, in directory order. *)
Definition candidateVersions (extensions : list string) (extensionId : string)
  : list string :=
  let prefix := folderPrefix extensionId in
  let augmentFolders := List.filter (fun folder => startsWith folder prefix) extensions in
  List.filter (fun v => truthy (Semver.valid v))
    (map (fun folder => replace_first_empty folder prefix) augmentFolders).

Definition getExtensionVersionFromDir (extensionDir : DirState) (extensionId : string)
  : option string :=
  match extensionDir with
  | Missing => None
  | Unreadable _ => None
  | Listing extensions =>
      let prefix := folderPrefix extensionId in
      let augmentFolders :=
        List.filter (fun folder => startsWith folder prefix) extensions in
      if (0 <? List.length augmentFolders)%nat then
        match JsArray.sort_by Semver.rcompare (candidateVersions extensions extensionId) with
        | Ok (v :: _) => Some v
        | Ok [] => None
        | Throw _ => None
        end
      else None
  end.

(** ** The update decision *)

(** [!status.version || semver.gt(latestVersion, status.version)], as in
    [AugmentMonitor.run] and [promptSelection] (third revision). *)
Definition isOutdated (latestVersion : string) (version : option string)
  : result bool :=
  match version with
  | Some v => if truthy version then Semver.gt latestVersion v else Ok true
  | None => Ok true
  end.

(** [CLIManager.checkAllForUpdates]. *)
Module Managers.

Record DetectedCLI : Type := mkDetectedCLI {
  cli_id : string;
  npmPackage : string;
  installedVersion : string
}.

Record CLIStatus : Type := mkCLIStatus {
  cli : DetectedCLI;
  latestVersion : option string;
  needsUpdate : bool;
  error : option string
}.

Definition checkOne (getLatestVersion : string -> result string) (c : DetectedCLI)
  : CLIStatus :=
  match bind (getLatestVersion (npmPackage c)) (fun latest =>
        bind (Semver.gt latest (installedVersion c)) (fun b => Ok (latest, b))) with
  | Ok (latest, b) => mkCLIStatus c (Some latest) b None
  | Throw msg => mkCLIStatus c None false (Some msg)
  end.

Definition checkAllForUpdates (getLatestVersion : string -> result string)
  (detectedCLIs : list DetectedCLI) : list CLIStatus :=
  map (checkOne getLatestVersion) detectedCLIs.

End Managers.

(** The update rule in the words of the specification:
    [installed is absent OR normalize(latest) > normalize(installed)].
    [None] where a version does not normalise. *)
Definition needsUpdate_spec (installed : option string) (latest : string)
  : option bool :=
  match installed with
  | None => Some true
  | Some i =>
      match normalizeVersion (Some latest), normalizeVersion (Some i) with
      | Some l, Some n =>
          match Semver.gt l n with Ok b => Some b | Throw _ => None end
      | _, _ => None
      end
  end.

(** ** Choosing the directory to replicate

    Second revision of [index.js], [IDEManager.copyExtensionToAllProfiles]:
    [extensionDirs.sort().pop()]. *)

Definition augmentDirPrefix : string := "augment.vscode-augment-".

Definition latestExtensionDir (entries : list string) : option string :=
  let extensionDirs :=
    List.filter (fun dir => startsWith dir augmentDirPrefix) entries in
  JsArray.pop (JsArray.sort extensionDirs).

(** ** JSON values and property access *)

Module Json.

(** A parsed JSON value. Numbers are carried, never computed with; only
    whether a number is zero is observed. *)
#[warnings="-register-all"] Inductive json : Type :=
| JNull
| JBool (b : bool)
| JNum (n : Z)
| JStr (s : string)
| JArr (items : list json)
| JObj (fields : list (string * json)).

(** The effective binding of a key in a parsed object. *)
Fixpoint lookup (k : string) (fields : list (string * json)) : option json :=
  match fields with
  | [] => None
  | (k', v) :: rest => if String.eqb k k' then Some v else lookup k rest
  end.

(** Truthiness of a value; [None] is [undefined]. *)
Definition truthy_value (v : option json) : bool :=
  match v with
  | None | Some JNull => false
  | Some (JBool b) => b
  | Some (JNum n) => negb (n =? 0)%Z
  | Some (JStr s) => negb (String.eqb s "")
  | Some (JArr _) | Some (JObj _) => true
  end.

(** [v.name] for a property name that is neither an index nor [length]:
    reading a property of [null] or [undefined] throws. *)
Definition prop (v : option json) (name : string) : result (option json) :=
  match v with
  | None =>
      Throw ("Cannot read properties of undefined (reading '" ++ name ++ "')")
  | Some JNull =>
      Throw ("Cannot read properties of null (reading '" ++ name ++ "')")
  | Some (JObj fields) => Ok (lookup name fields)
  | Some _ => Ok None
  end.

(** [v[0]]. *)
Definition index0 (v : option json) : result (option json) :=
  match v with
  | None => Throw "Cannot read properties of undefined (reading '0')"
  | Some JNull => Throw "Cannot read properties of null (reading '0')"
  | Some (JObj fields) => Ok (lookup "0" fields)
  | Some (JArr items) => Ok (head items)
  | Some (JStr (String c _)) => Ok (Some (JStr (String c EmptyString)))
  | Some _ => Ok None
  end.

End Json.

Import Json.

(** ** The file system, the log and the clock *)

Module Sys.

(** Content of a regular file: JSON text (kept as its parsed value) or
    other content, on which [JSON.parse] throws. *)
Inductive FileData : Type :=
| JsonText (v : json)
| Raw (content : string).

(** A directory node stands for the tree below it and carries the names
    [fs.readdirSync] reports. *)
Inductive Node : Type :=
| File (data : FileData)
| Dir (entries : list string).

Inductive Level : Type := info | success | warning | error.

(** One constructor per message template of the modelled functions. *)
Inductive Message : Type :=
(* download *)
| Downloading (version : string) (attempt : nat)
| DryRunDownload
| Downloaded (fileName : string) (bytes : nat)
| DownloadAttemptFailed (attempt : nat) (msg : string)
| RetryingIn (delayMs : N)
(* cleanup *)
| DryRunCleanup
| CleanedUp (path : string)            (* the line shows its base name *)
| CleanupFailed (msg : string)
(* version resolution *)
| FetchingLatest
| ApiFailedStatus (status : nat)
| NoExtensionInResponse
| LatestVersion (v : option json)
| ApiFailed (msg : string)
| UsingFallback
| LatestVersionFallback (v : string)
| FallbackFailed (msg : string)
(* detection *)
| DetectingIDEs
| DetectedAt (name path : string)
| CliDetectionFailed (name : string)
| DetectedViaFolder (name : string)
| IdeDetected (name : string)
| NotAvailable (name : string)
| DetectionFailed (name msg : string)
| FoundIDEs (names : list string)
(* install and verification *)
| InstallingTo (count : nat)
| InstallingIn (name : string)
| DryRunInstall (name : string)
| InstalledIn (name : string)
| InstallFailedIn (name msg : string)
| Verifying
| DryRunVerify
| Verified (name version : string)
| VerifyAttempt (attempt : nat) (name : string) (found : option string) (expected : string)
| VerifyFailed (name : string)
| StartingCheck
| NoUpdatesSelected
| UpdateFailed (msg : string)
| UpdateProcessFailed (msg : string)
| DryRunNotification (title : string)
| NotificationFailed (title : string)
(* profile fan-out *)
| NoProfilesFound
| FoundProfiles (count : nat)
| InstallingDefaultProfile
| InstalledDefaultOnly
| InstalledDefaultProfile
| DefaultProfileInstallFailed (msg : string)
| ErrorManagingProfiles (msg : string)
| InstalledFallback
| DefaultExtensionsDirMissing
| ExtensionNotInDefaultDir
| FoundExtension (dir : string)
| CopiedToProfile (profile : string)
| CopyToProfileFailed (profile msg : string)
| ErrorCopyingToProfiles (msg : string)
| ErrorUpdatingRegistry (profile msg : string).

(** The world records the commands that change the machine, the install
    commands, in [spawned].  The commands the code runs only to read
    something (the version probe of a command line, the listing of the
    installed extensions, the dialog) leave no trace in the world: what
    they answer is given by the environment. *)
Record World : Type := mkWorld {
  fs : gmap string Node;      (* what exists, by path *)
  denied : gset string;       (* paths whose creation or change fails *)
  journal : list (Level * Message);   (* log lines, oldest first *)
  slept : list N;             (* delays awaited, oldest first *)
  spawned : list string;      (* install commands run, oldest first *)
  requests : list string;     (* pages fetched, oldest first *)
  scans : nat                 (* scans of the IDEs done so far *)
}.

(** Computations that read and change the world and may throw. *)
Definition M (A : Type) : Type := World -> result A * World.

Definition ret {A} (a : A) : M A := fun w => (Ok a, w).
Definition throw {A} (msg : string) : M A := fun w => (Throw msg, w).

Definition bindM {A B} (m : M A) (k : A -> M B) : M B :=
  fun w => match m w with
           | (Ok a, w') => k a w'
           | (Throw msg, w') => (Throw msg, w')
           end.

(** [try { m } catch (error) { h(error.message) }]. *)
Definition try_catch {A} (m : M A) (h : string -> M A) : M A :=
  fun w => match m w with
           | (Ok a, w') => (Ok a, w')
           | (Throw msg, w') => h msg w'
           end.

(** [try { m } finally { f }], for an [f] that does not throw. *)
Definition try_finally {A} (m : M A) (f : M unit) : M A :=
  fun w => match m w with
           | (r, w') => (r, snd (f w'))
           end.

Definition lift {A} (r : result A) : M A := fun w => (r, w).

(** The outcome of [m] as a value: what a [try] block hands to the
    code after it. *)
Definition attempt {A} (m : M A) : M (result A) :=
  fun w => match m w with (r, w') => (Ok r, w') end.

(** [for (const x of l) results.push(f(x))]. *)
Fixpoint mapM {A B} (f : A -> M B) (l : list A) : M (list B) :=
  match l with
  | [] => ret []
  | x :: xs => bindM (f x) (fun y => bindM (mapM f xs) (fun ys => ret (y :: ys)))
  end.

Definition get_world : M World := fun w => (Ok w, w).

Definition log (lvl : Level) (msg : Message) : M unit :=
  fun w => (Ok tt, mkWorld (fs w) (denied w) (journal w ++ [(lvl, msg)])
                           (slept w) (spawned w) (requests w) (scans w)).

(** [await new Promise(resolve => setTimeout(resolve, ms))]. *)
Definition sleep (ms : N) : M unit :=
  fun w => (Ok tt, mkWorld (fs w) (denied w) (journal w) (slept w ++ [ms])
                           (spawned w) (requests w) (scans w)).

Definition set_fs (f : gmap string Node) : M unit :=
  fun w => (Ok tt, mkWorld f (denied w) (journal w) (slept w) (spawned w) (requests w) (scans w)).

Definition count_scan : M nat :=
  fun w => (Ok (scans w), mkWorld (fs w) (denied w) (journal w) (slept w)
                                  (spawned w) (requests w) (S (scans w))).

(** [execSync(cmd)] of an install command: the outcome of a run may
    depend on the runs before it. *)
Definition execInstall (outcome : list string -> string -> result unit)
  (cmd : string) : M unit :=
  fun w => (outcome (spawned w) cmd,
            mkWorld (fs w) (denied w) (journal w) (slept w)
                    (spawned w ++ [cmd]) (requests w) (scans w)).

(** A page fetch is recorded; what it returns may depend on the fetches
    before it. *)
Definition fetchPage {A} (reply : list string -> result A) (url : string) : M A :=
  fun w => (reply (requests w),
            mkWorld (fs w) (denied w) (journal w) (slept w) (spawned w)
                    (requests w ++ [url]) (scans w)).

(** [for (const x of l) { f(x) }]. *)
Fixpoint forEach {A} (f : A -> M unit) (l : list A) : M unit :=
  match l with
  | [] => ret tt
  | x :: xs => bindM (f x) (fun _ => forEach f xs)
  end.

(** [fs.existsSync]. *)
Definition existsSync (p : string) : M bool :=
  fun w => (Ok (bool_decide (is_Some (fs w !! p))), w).

Definition guard_denied (p : string) : M unit :=
  fun w => if bool_decide (p ∈ denied w)
           then (Throw ("EACCES: permission denied, '" ++ p ++ "'"), w)
           else (Ok tt, w).

(** [fs.writeFileSync]. *)
Definition writeFileSync (p : string) (d : FileData) : M unit :=
  bindM (guard_denied p) (fun _ =>
  bindM get_world (fun w => set_fs (<[p := File d]> (fs w)))).

(** [fs.unlinkSync]. *)
Definition unlinkSync (p : string) : M unit :=
  bindM (guard_denied p) (fun _ =>
  bindM get_world (fun w =>
    match fs w !! p with
    | Some _ => set_fs (delete p (fs w))
    | None => throw ("ENOENT: no such file or directory, unlink '" ++ p ++ "'")
    end)).

(** [fs.mkdirSync(p, { recursive: true })]. *)
Definition mkdirSync (p : string) : M unit :=
  bindM (guard_denied p) (fun _ =>
  bindM get_world (fun w =>
    match fs w !! p with
    | Some (Dir _) => ret tt
    | Some (File _) => throw ("EEXIST: file already exists, mkdir '" ++ p ++ "'")
    | None => set_fs (<[p := Dir []]> (fs w))
    end)).

(** [fs.rmSync(p, { recursive: true, force: true })]. *)
Definition rmSync (p : string) : M unit :=
  bindM (guard_denied p) (fun _ =>
  bindM get_world (fun w => set_fs (delete p (fs w)))).

(** [fs.readdirSync]. *)
Definition readdirSync (p : string) : M (list string) :=
  bindM get_world (fun w =>
    match fs w !! p with
    | Some (Dir entries) => ret entries
    | Some (File _) => throw ("ENOTDIR: not a directory, scandir '" ++ p ++ "'")
    | None => throw ("ENOENT: no such file or directory, scandir '" ++ p ++ "'")
    end).

(** [JSON.parse(fs.readFileSync(p, 'utf8'))]. *)
Definition readJson (p : string) : M json :=
  bindM get_world (fun w =>
    match fs w !! p with
    | Some (File (JsonText v)) => ret v
    | Some (File (Raw _)) => throw "Unexpected token in JSON"
    | Some (Dir _) => throw "EISDIR: illegal operation on a directory, read"
    | None => throw ("ENOENT: no such file or directory, open '" ++ p ++ "'")
    end).

(** [path.join] as Node implements it on POSIX platforms
    ([path.posix.join]): the segments are joined with [/], and [.] and
    [..] segments are resolved.  On Windows [path.join] also takes the
    backslash for a separator; that implementation is not modelled. *)
Fixpoint resolve (stack segs : list string) (absolute : bool) : list string :=
  match segs with
  | [] => rev stack
  | seg :: rest =>
      if String.eqb seg "" || String.eqb seg "." then resolve stack rest absolute
      else if String.eqb seg ".." then
        match stack with
        | top :: below =>
            if String.eqb top ".." then resolve (seg :: stack) rest absolute
            else resolve below rest absolute
        | [] => if absolute then resolve [] rest absolute
                else resolve [seg] rest absolute
        end
      else resolve (seg :: stack) rest absolute
  end.

Definition join (parts : list string) : string :=
  let joined := String.concat "/" (List.filter (fun p => negb (String.eqb p "")) parts) in
  let absolute := String.prefix "/" joined in
  let segs := resolve [] (split "/" joined) absolute in
  match segs, absolute with
  | [], false => "."
  | _, false => String.concat "/" segs
  | _, true => "/" ++ String.concat "/" segs
  end.

End Sys.

Import Sys.

Notation "'let*' x ':=' m 'in' k" := (bindM m (fun x => k))
  (at level 10, x name, m at level 100, k at level 200).
Notation "'do' m 'then' k" := (bindM m (fun _ => k))
  (at level 10, m at level 100, k at level 200).

(** ** Profile fan-out (second revision of [index.js]) *)

Module Ide.

(** An entry of [supportedIDEs]. *)
Record Commands : Type := mkCommands {
  listExtensions : string;
  installExtension : string;
  version : string
}.

Record Config : Type := mkConfig {
  name : string;
  commands : Commands;
  envVar : string;
  priority : Z
}.

(** [`${command} ${config.commands.installExtension} "${vsixPath}"`]. *)
Definition installCommand (command : string) (config : Config) (vsixPath : string)
  : string :=
  command ++ " " ++ installExtension (commands config) ++ " "
  ++ dquote ++ vsixPath ++ dquote.

End Ide.

Module Fanout.
Export Ide.

Record Profile : Type := mkProfile {
  profile_name : string;
  profile_path : string;
  hasAugment : bool
}.

Record Env : Type := mkEnv {
  homedir : string;                 (* os.homedir() *)
  username : string;                (* os.userInfo().username *)
  now : Z;                          (* Date.now() *)
  cursorProfiles : list Profile;    (* what getCursorProfiles() returns *)
  install_outcome : list string -> string -> result unit
                                    (* how an install command ends *)
}.

Definition augmentId : string := "augment.vscode-augment".

(** The callback of [extensionsData.filter]:
    [!ext.identifier || !ext.identifier.id ||
     !ext.identifier.id.includes('augment.vscode-augment')]. *)
Definition keepEntry (ext : json) : result bool :=
  bind (prop (Some ext) "identifier") (fun identifier =>
  if negb (truthy_value identifier) then Ok true else
  bind (prop identifier "id") (fun id =>
  if negb (truthy_value id) then Ok true else
  match id with
  | Some (JStr s) => Ok (negb (includes s augmentId))
  | Some (JArr items) =>
      Ok (negb (existsb (fun j => match j with
                                  | JStr s => String.eqb s augmentId
                                  | _ => false
                                  end) items))
  | _ => Throw "ext.identifier.id.includes is not a function"
  end)).

(** [extensionsData.filter(...)] on whatever the file parsed to. *)
Definition filterEntries (extensionsData : json) : result (list json) :=
  match extensionsData with
  | JArr items => JsArray.filter_by keepEntry items
  | JNull => Throw "Cannot read properties of null (reading 'filter')"
  | _ => Throw "extensionsData.filter is not a function"
  end.

(** [extensionDirName.match(/augment\.vscode-augment-(.+)$/)]: the
    leftmost occurrence of the literal that is followed, up to the end of
    the name, by one or more characters other than line terminators. *)
Fixpoint matchVersion (s : string) : option string :=
  let rest := drop (String.length augmentDirPrefix) s in
  if String.prefix augmentDirPrefix s && negb (String.eqb rest "")
     && all_chars (fun c => negb (is_line_terminator c)) rest
  then Some rest
  else match s with
       | EmptyString => None
       | String _ s' => matchVersion s'
       end.

Definition entryVersion (extensionDirName : string) : string :=
  default "0.551.0" (matchVersion extensionDirName).

Definition newExtensionEntry (env : Env) (extensionDirName : string) : json :=
  JObj [
    ("identifier", JObj [("id", JStr "augment.vscode-augment");
                         ("uuid", JStr "fc0e137d-e132-47ed-9455-c4636fa5b897")]);
    ("version", JStr (entryVersion extensionDirName));
    ("location", JObj [("$mid", JNum 1);
                       ("path", JStr ("/c:/Users/" ++ username env
                                      ++ "/.cursor/extensions/" ++ extensionDirName));
                       ("scheme", JStr "file")]);
    ("relativeLocation", JStr extensionDirName);
    ("metadata", JObj [("isApplicationScoped", JBool false);
                       ("isMachineScoped", JBool false);
                       ("isBuiltin", JBool false);
                       ("installedTimestamp", JNum (now env));
                       ("pinned", JBool false);
                       ("source", JStr "gallery");
                       ("id", JStr "fc0e137d-e132-47ed-9455-c4636fa5b897");
                       ("publisherId", JStr "7814b14b-491a-4e83-83ac-9222fa835050");
                       ("publisherDisplayName", JStr "augment");
                       ("targetPlatform", JStr "undefined");
                       ("updated", JBool true);
                       ("private", JBool false);
                       ("isPreReleaseVersion", JBool true);
                       ("hasPreReleaseVersion", JBool true);
                       ("preRelease", JBool true)])
  ].

Definition extensionsJsonPath (profile : Profile) : string :=
  join [profile_path profile; "extensions.json"].

(** The registry a rewrite puts in place of [extensionsData]. *)
Definition rewriteRegistry (env : Env) (extensionDirName : string)
  (extensionsData : json) : result json :=
  bind (filterEntries extensionsData) (fun filteredExtensions =>
  Ok (JArr (filteredExtensions ++ [newExtensionEntry env extensionDirName]))).

Definition updateProfileExtensionsJson (env : Env) (profile : Profile)
  (extensionDirName : string) : M unit :=
  try_catch
    (let* present := existsSync (extensionsJsonPath profile) in
     if negb present
     then writeFileSync (extensionsJsonPath profile) (JsonText (JArr []))
     else
       let* extensionsData := readJson (extensionsJsonPath profile) in
       let* rewritten := lift (rewriteRegistry env extensionDirName extensionsData) in
       writeFileSync (extensionsJsonPath profile) (JsonText rewritten))
    (fun msg => log error (ErrorUpdatingRegistry (profile_name profile) msg)).

(** [copyDirectory]: the tree at [source] is put at [target]. *)
Definition copyDirectory (source target : string) : M unit :=
  let* w := get_world in
  match fs w !! source with
  | None => throw ("Source directory does not exist: " ++ source)
  | Some (File _) =>
      do mkdirSync target then
      throw ("ENOTDIR: not a directory, scandir '" ++ source ++ "'")
  | Some (Dir entries) =>
      do mkdirSync target then
      do guard_denied target then
      let* w' := get_world in
      set_fs (<[target := Dir entries]> (fs w'))
  end.

Definition profileExtensionsPath (profile : Profile) : string :=
  join [profile_path profile; ".."; ".."; ".."; ".cursor"; "extensions"].

(** The body of the loop over the profiles. *)
Definition copyToProfile (env : Env) (sourceExtensionPath latestExtensionDir : string)
  (profile : Profile) : M unit :=
  try_catch
    (let* present := existsSync (profileExtensionsPath profile) in
     do (if negb present then mkdirSync (profileExtensionsPath profile) else ret tt) then
     let targetExtensionPath := join [profileExtensionsPath profile; latestExtensionDir] in
     let* stale := existsSync targetExtensionPath in
     do (if stale then rmSync targetExtensionPath else ret tt) then
     do copyDirectory sourceExtensionPath targetExtensionPath then
     do updateProfileExtensionsJson env profile latestExtensionDir then
     log success (CopiedToProfile (profile_name profile)))
    (fun msg => log error (CopyToProfileFailed (profile_name profile) msg)).

Definition defaultExtensionsPath (env : Env) : string :=
  join [homedir env; ".cursor"; "extensions"].

Definition copyExtensionToAllProfiles (env : Env) (profiles : list Profile) : M unit :=
  try_catch
    (let* present := existsSync (defaultExtensionsPath env) in
     if negb present then log error DefaultExtensionsDirMissing
     else
       let* entries := readdirSync (defaultExtensionsPath env) in
       let extensionDirs :=
         List.filter (fun dir => startsWith dir augmentDirPrefix) entries in
       if (List.length extensionDirs =? 0)%nat then log error ExtensionNotInDefaultDir
       else
         match latestExtensionDir entries with
         | None => throw "The path argument must be of type string"
         | Some dir =>
             let sourceExtensionPath := join [defaultExtensionsPath env; dir] in
             do log info (FoundExtension dir) then
             forEach (copyToProfile env sourceExtensionPath dir) profiles
         end)
    (fun msg => log error (ErrorCopyingToProfiles msg)).

Definition installExtensionInAllCursorProfiles (env : Env)
  (vsixPath command : string) (config : Config) : M unit :=
  try_catch
    (let profiles := cursorProfiles env in
     if (List.length profiles =? 0)%nat then
       do log warning NoProfilesFound then
       do execInstall (install_outcome env) (installCommand command config vsixPath) then
       log success InstalledDefaultOnly
     else
       do log info (FoundProfiles (List.length profiles)) then
       do try_catch
            (do log info InstallingDefaultProfile then
             do execInstall (install_outcome env)
                            (installCommand command config vsixPath) then
             log success InstalledDefaultProfile)
            (fun msg => do log error (DefaultProfileInstallFailed msg) then throw msg) then
       copyExtensionToAllProfiles env profiles)
    (fun msg =>
       do log error (ErrorManagingProfiles msg) then
       do execInstall (install_outcome env) (installCommand command config vsixPath) then
       log success InstalledFallback).

End Fanout.

(** ** Vocabulary of the registry statements *)

Module Registry.
Import Fanout.

(** The identifier of a registry record, when it is a string. *)
Definition recordId (r : json) : option string :=
  match prop (Some r) "identifier" with
  | Ok identifier =>
      match prop identifier "id" with
      | Ok (Some (JStr s)) => Some s
      | _ => None
      end
  | Throw _ => None
  end.

Definition recordVersion (r : json) : option json :=
  match prop (Some r) "version" with
  | Ok v => v
  | Throw _ => None
  end.

(** A registry record: an object whose [identifier], when present, is an
    object whose [id], when present, is a string. *)
Definition isRecord (r : json) : bool :=
  match r with
  | JObj fields =>
      match lookup "identifier" fields with
      | None => true
      | Some (JObj identifier) =>
          match lookup "id" identifier with
          | None | Some (JStr _) => true
          | Some _ => false
          end
      | Some _ => false
      end
  | _ => false
  end.

(** The record is for the package itself. *)
Definition isAugment (r : json) : bool :=
  match recordId r with
  | Some s => String.eqb s augmentId
  | None => false
  end.

(** The record's identifier contains the package identifier. *)
Definition mentionsAugment (r : json) : bool :=
  match recordId r with
  | Some s => includes s augmentId
  | None => false
  end.

(** A record of another extension whose identifier contains the package
    identifier, and a profile whose registry holds only that record. *)
Definition nightlyRecord : json :=
  JObj [("identifier", JObj [("id", JStr "augment.vscode-augment-nightly")]);
        ("version", JStr "0.1.0")].

Definition pythonRecord : json :=
  JObj [("identifier", JObj [("id", JStr "ms-python.python")]);
        ("version", JStr "2024.1.0")].

Definition staleRecord : json :=
  JObj [("identifier", JObj [("id", JStr "augment.vscode-augment")]);
        ("version", JStr "0.560.0")].

Definition sampleEnv : Env :=
  mkEnv "/home/u" "u" 1700000000000 [] (fun _ _ => Ok tt).

Definition sampleProfile : Profile := mkProfile "Work" "/profiles/work" true.

Definition sampleWorld (registry : list json) : World :=
  mkWorld {[ extensionsJsonPath sampleProfile := File (JsonText (JArr registry)) ]}
          ∅ [] [] [] [] 0.

End Registry.

(** ** Vocabulary of the fan-out statements *)

Module FanoutScenario.
Import Fanout Registry.

(** The outcome a log line reports for a profile, if it reports one:
    the profile's name, and whether the copy is reported done. *)
Definition profileOutcome (e : Level * Message) : option (string * bool) :=
  match snd e with
  | CopiedToProfile n => Some (n, true)
  | CopyToProfileFailed n _ => Some (n, false)
  | _ => None
  end.

(** Log lines written by the fan-out itself. *)
Definition isFanoutLine (e : Level * Message) : bool :=
  match snd e with
  | CopiedToProfile _ | CopyToProfileFailed _ _ | ErrorUpdatingRegistry _ _
  | FoundExtension _ | DefaultExtensionsDirMissing | ExtensionNotInDefaultDir
  | ErrorCopyingToProfiles _ => true
  | _ => false
  end.

Definition cursorConfig : Config :=
  mkConfig "Cursor"
    (mkCommands "--list-extensions --show-versions" "--install-extension" "--version")
    "CURSOR_PATH" 1.

Definition profileA : Profile := mkProfile "A" "/u1/Cursor/User/profiles/A" true.
Definition profileB : Profile := mkProfile "B" "/u2/Cursor/User/profiles/B" false.
Definition profileC : Profile := mkProfile "C" "/u3/Cursor/User/profiles/C" false.

Definition installedDir : string := "augment.vscode-augment-0.576.0".

(** Three profiles; the package store of profile B cannot be written,
    and the registry of profile C is not JSON. *)
Definition threeProfiles : World :=
  mkWorld
    (list_to_map
       [("/home/u/.cursor/extensions", Dir [installedDir; "ms-python.python-2024.1.0"]);
        ("/home/u/.cursor/extensions/augment.vscode-augment-0.576.0", Dir ["package.json"]);
        (extensionsJsonPath profileA, File (JsonText (JArr [staleRecord; pythonRecord])));
        (extensionsJsonPath profileB, File (JsonText (JArr [pythonRecord])));
        (extensionsJsonPath profileC, File (Raw "<html>"))])
    {[ join [profileExtensionsPath profileB; installedDir] ]}
    [] [] [] [] 0.

(** The install command fails on its first run and succeeds afterwards. *)
Definition failsOnce (past : list string) (cmd : string) : result unit :=
  match past with
  | [] => Throw "Command failed: exit code 1"
  | _ :: _ => Ok tt
  end.

Definition envFailsOnce : Env :=
  mkEnv "/home/u" "u" 1700000000000 [profileA; profileB; profileC] failsOnce.

Definition envInstalls : Env :=
  mkEnv "/home/u" "u" 1700000000000 [profileA; profileB; profileC] (fun _ _ => Ok tt).

End FanoutScenario.

(** ** Regular expressions of the fallback scrape *)

Module Rx.

(** Leftmost match: the first suffix of [s] at whose head [here] matches. *)
Fixpoint search {A} (here : string -> option A) (s : string) : option A :=
  match here s with
  | Some a => Some a
  | None => match s with
            | EmptyString => None
            | String _ s' => search here s'
            end
  end.

(** [lit([^"]+)"] at the head of [s]: the literal, then the longest run
    of characters other than the double quote, then a double quote. *)
Definition quoted_here (lit : string) (s : string) : option string :=
  if String.prefix lit s then
    let '(cap, after) :=
      span (fun c => negb (Ascii.eqb c (ascii_of_nat 34))) (drop (String.length lit) s) in
    if negb (String.eqb cap "") && String.prefix dquote after then Some cap else None
  else None.

Definition to_lower (c : ascii) : ascii :=
  if (65 <=? code c)%nat && (code c <=? 90)%nat then ascii_of_nat (code c + 32) else c.

(** Case-insensitive [startsWith] for a lower-case literal. *)
Fixpoint prefix_ci (lit s : string) : bool :=
  match lit, s with
  | EmptyString, _ => true
  | String a lit', String b s' => Ascii.eqb a (to_lower b) && prefix_ci lit' s'
  | String _ _, EmptyString => false
  end.

(** [/Version\s+([0-9]+\.[0-9]+\.[0-9]+)/i] at the head of [s]. *)
Definition version_text_here (s : string) : option string :=
  if prefix_ci "version" s then
    let '(ws, r0) := span is_space (drop 7 s) in
    let '(a, r1) := span is_digit r0 in
    match strip_char "." r1 with
    | Some r1' =>
        let '(b, r2) := span is_digit r1' in
        match strip_char "." r2 with
        | Some r2' =>
            let '(c, _) := span is_digit r2' in
            if negb (String.eqb ws "") && negb (String.eqb a "")
               && negb (String.eqb b "") && negb (String.eqb c "")
            then Some (a ++ "." ++ b ++ "." ++ c)%string else None
        | None => None
        end
    | None => None
    end
  else None.

(** The four [versionPatterns], in their order. *)
Definition versionPatterns : list (string -> option string) :=
  [ search (quoted_here (dquote ++ "version" ++ dquote ++ ":" ++ dquote));
    search version_text_here;
    search (quoted_here (dquote ++ "Version" ++ dquote ++ ":" ++ dquote));
    search (quoted_here ("data-version=" ++ dquote)) ].

(** [/button returned:(.+)$/] at the head of [s]: the literal, then one
    or more characters other than line terminators, up to the end of the
    input (the expression has no [m] flag, so [$] is the end of the
    input and not the end of a line). *)
Definition button_returned_here (s : string) : option string :=
  if String.prefix "button returned:" s then
    let cap := drop 16 s in
    if negb (String.eqb cap "") && all_chars (fun c => negb (is_line_terminator c)) cap
    then Some cap else None
  else None.

End Rx.

(** ** The orchestrator (third revision of [index.js]) *)

Module Monitor.
Export Ide.

(** A [node-fetch] response: [ok] holds for a status in 200..299; the
    payload is what [json()], [text()] or [buffer()] resolves to. *)
Record Response (A : Type) : Type := mkResponse {
  status : nat;
  payload : result A
}.
Arguments mkResponse {A} status payload.
Arguments status {A} r.
Arguments payload {A} r.

Definition ok {A} (r : Response A) : bool :=
  (200 <=? status r)%nat && (status r <? 300)%nat.

Record Env : Type := mkEnv {
  isDryRun : bool;                   (* --dry-run *)
  isCronMode : bool;                 (* no terminal attached *)
  forced : bool;                     (* --force *)
  tempDir : string;
  getenv : string -> option string;  (* process.env *)
  platform : string;                 (* process.platform *)
  probe : string -> bool;            (* a version command runs successfully *)
  apiReply : result (Response json); (* the gallery query *)
  pageReply : list string -> result (Response string);   (* the item page *)
  downloadReply : nat -> result (Response string);  (* the package, by attempt *)
  scanned : nat -> string -> option string;  (* version seen in an IDE, by scan *)
  install_outcome : list string -> string -> result unit;
  choice : string;                   (* the operator's answer, lower-cased, trimmed *)
  dialog : string -> option string   (* what osascript prints for a dialog,
                                        by title; None when it fails *)
}.

Definition extensionId : string := "augment.vscode-augment".
Definition publisherId : string := "augment".
Definition extensionName : string := "vscode-augment".

(** [a || b] on strings that may be [undefined]. *)
Definition or_else (a b : option string) : option string :=
  if truthy a then a else b.

(** *** Detection *)

Definition cursorConfig : Config :=
  mkConfig "Cursor"
    (mkCommands "--list-extensions --show-versions" "--install-extension" "--version")
    "CURSOR_PATH" 1.

Definition vscodeConfig : Config :=
  mkConfig "VS Code"
    (mkCommands "--list-extensions" "--install-extension" "--version")
    "VSCODE_PATH" 2.

Definition antigravityConfig : Config :=
  mkConfig "Antigravity"
    (mkCommands "--list-extensions --show-versions" "--install-extension" "--version")
    "ANTIGRAVITY_PATH" 3.

Definition supportedIDEs : list (string * Config) :=
  [("cursor", cursorConfig); ("vscode", vscodeConfig); ("antigravity", antigravityConfig)].

Definition macPaths (env : Env) (ide : string) : option string :=
  if String.eqb ide "cursor"
  then Some "/Applications/Cursor.app/Contents/Resources/app/bin/cursor"
  else if String.eqb ide "vscode"
  then Some "/Applications/Visual Studio Code.app/Contents/Resources/app/bin/code"
  else if String.eqb ide "antigravity"
  then Some (default "undefined" (getenv env "HOME")
             ++ "/.antigravity/antigravity/bin/antigravity")%string
  else None.

Record Detected : Type := mkDetected {
  ide : string;
  config : Config;
  command : string;
  det_priority : Z
}.

(** The [switch (ide)] that names the extensions folder; [path.join]
    throws when the home directory is [undefined]. *)
Definition extensionFolder (env : Env) (ide : string) : result (option string) :=
  let homeDir := or_else (getenv env "HOME") (getenv env "USERPROFILE") in
  let folder (dot : string) : result (option string) :=
    match homeDir with
    | Some h => Ok (Some (join [h; dot; "extensions"]))
    | None => Throw "The path argument must be of type string. Received undefined"
    end in
  if String.eqb ide "cursor" then folder ".cursor"
  else if String.eqb ide "vscode" then folder ".vscode"
  else if String.eqb ide "antigravity" then folder ".antigravity"
  else Ok None.

(** Method 1 and its [catch]: the command line probe, then on macOS the
    standard path. Returns the command to use and whether the IDE is
    detected.  The probe runs [command --version]; whether it succeeds
    is read from the environment ([probe]) and the run is not recorded
    in the world. *)
Definition probeCli (env : Env) (ide : string) (config : Config) (command : string)
  : M (string * bool) :=
  if probe env (command ++ " " ++ version (commands config)) then ret (command, true)
  else
    let* found :=
      match macPaths env ide with
      | Some macPath =>
          if String.eqb (platform env) "darwin" && truthy (Some macPath) then
            let* present := existsSync macPath in
            if present
            then do log success (DetectedAt (name config) macPath) then
                 ret ((dquote ++ macPath ++ dquote)%string, true)
            else ret (command, false)
          else ret (command, false)
      | None => ret (command, false)
      end in
    do (if negb (snd found) then log warning (CliDetectionFailed (name config))
        else ret tt) then
    ret found.

(** The body of the loop of [detectAvailableIDEs], with its [try/catch]. *)
Definition detectOne (env : Env) (entry : string * Config) : M (option Detected) :=
  let '(ide, config) := entry in
  try_catch
    (let command := default ide (or_else (getenv env (envVar config)) None) in
     let* cli := probeCli env ide config command in
     let* detected :=
       if snd cli then ret true
       else
         let* extensionPath := lift (extensionFolder env ide) in
         match extensionPath with
         | Some p =>
             let* present := existsSync p in
             if truthy (Some p) && present
             then do log success (DetectedViaFolder (name config)) then ret true
             else ret false
         | None => ret false
         end in
     if detected
     then do log success (IdeDetected (name config)) then
          ret (Some (mkDetected ide config (fst cli) (priority config)))
     else do log warning (NotAvailable (name config)) then ret None)
    (fun msg => do log warning (DetectionFailed (name config) msg) then ret None).

(** The loop: the [available] array. *)
Fixpoint collectAvailable (env : Env) (table : list (string * Config))
  : M (list Detected) :=
  match table with
  | [] => ret []
  | entry :: rest =>
      let* found := detectOne env entry in
      let* others := collectAvailable env rest in
      ret (match found with Some d => d :: others | None => others end)
  end.

Definition byPriority (a b : Detected) : comparison :=
  Z.compare (det_priority a) (det_priority b).

Definition detectAvailableIDEs (env : Env) (table : list (string * Config))
  : M (list Detected) :=
  do log info DetectingIDEs then
  let* found := collectAvailable env table in
  let available := JsArray.sort_with byPriority found in
  if (List.length available =? 0)%nat
  then throw "No supported IDE found (Cursor or VS Code)"
  else do log info (FoundIDEs (map (fun d => name (config d)) available)) then
       ret available.

(** *** Scanning *)

Record Status : Type := mkStatus {
  st_ide : string;
  st_config : Config;
  st_command : string;
  st_version : option string
}.

(** [scanIDEs]: one status per detected IDE. What each IDE reports, by
    its extensions folder or by its listing command, is taken from the
    environment; the scan is counted, the listing commands it runs are
    not recorded in the world.  The call itself never throws. *)
Definition scanIDEs (env : Env) (detectedIDEs : list Detected) : M (list Status) :=
  let* n := count_scan in
  ret (map (fun d => mkStatus (ide d) (config d) (command d) (scanned env n (ide d)))
           detectedIDEs).

(** *** Resolving the latest version *)

Inductive Extracted : Type :=
| NoExtension
| Version (v : option json).

(** The guard on [data.results[0].extensions[0]] and the read of
    [extension.versions[0].version]. *)
Definition extractVersion (data : json) : result Extracted :=
  bind (prop (Some data) "results") (fun results =>
  if negb (truthy_value results) then Ok NoExtension else
  bind (index0 results) (fun first =>
  if negb (truthy_value first) then Ok NoExtension else
  bind (prop first "extensions") (fun extensions =>
  if negb (truthy_value extensions) then Ok NoExtension else
  bind (index0 extensions) (fun extension =>
  if negb (truthy_value extension) then Ok NoExtension else
  bind (prop extension "versions") (fun versions =>
  bind (index0 versions) (fun latest =>
  bind (prop latest "version") (fun v => Ok (Version v)))))))).

Definition pageUrl : string :=
  "https://marketplace.visualstudio.com/items?itemName=" ++ extensionId.

Definition getLatestVersionFallback (env : Env) : M (option json) :=
  try_catch
    (do log info UsingFallback then
     let* response := fetchPage (pageReply env) pageUrl in
     if negb (ok response)
     then throw ("Marketplace page failed with status: "
                 ++ show (N.of_nat (status response)))
     else
       let* html := lift (payload response) in
       match first_some (fun pattern => pattern html) Rx.versionPatterns with
       | Some v => do log info (LatestVersionFallback v) then ret (Some (JStr v))
       | None => throw "Could not find version in marketplace page"
       end)
    (fun msg => do log error (FallbackFailed msg) then throw msg).

Definition getLatestVersion (env : Env) : M (option json) :=
  try_catch
    (do log info FetchingLatest then
     let* response := lift (apiReply env) in
     if negb (ok response)
     then do log warning (ApiFailedStatus (status response)) then
          getLatestVersionFallback env
     else
       let* data := lift (payload response) in
       let* extracted := lift (extractVersion data) in
       match extracted with
       | NoExtension =>
           do log warning NoExtensionInResponse then getLatestVersionFallback env
       | Version v => do log info (LatestVersion v) then ret v
       end)
    (fun msg => do log warning (ApiFailed msg) then getLatestVersionFallback env).

(** *** Selection *)

(** A value spliced into a template literal. *)
Fixpoint to_text (v : json) : string :=
  match v with
  | JNull => "null"
  | JBool true => "true"
  | JBool false => "false"
  | JNum n => ((if (n <? 0)%Z then "-" else "") ++ show (Z.abs_N n))%string
  | JStr s => s
  | JArr items =>
      array_join "," (map (fun x => match x with JNull => "" | _ => to_text x end) items)
  | JObj _ => "[object Object]"
  end.

Definition template (v : option json) : string :=
  match v with
  | None => "undefined"
  | Some j => to_text j
  end.

(** [!status.version || semver.gt(latestVersion, status.version)] for a
    latest version that need not be a string. *)
Definition isOutdatedValue (latestVersion : option json) (version : option string)
  : result bool :=
  match latestVersion with
  | Some (JStr latest) => isOutdated latest version
  | _ => if truthy version
         then Throw ("Invalid Version: " ++ template latestVersion) else Ok true
  end.

(** [expectedVersion === status.version]. *)
Definition strictEq (expected : option json) (version : option string) : bool :=
  match expected, version with
  | Some (JStr a), Some b => String.eqb a b
  | Some JNull, None => true
  | _, _ => false
  end.

(** The [forEach] that sets [updateAvailable]. *)
Fixpoint anyOutdated (latestVersion : option json) (ideStatus : list Status)
  : result bool :=
  match ideStatus with
  | [] => Ok false
  | s :: rest =>
      bind (isOutdatedValue latestVersion (st_version s)) (fun outdated =>
      bind (anyOutdated latestVersion rest) (fun others => Ok (outdated || others)))
  end.

(** [result.match(/button returned:(.+)$/)], then [match[1].trim()], or
    [buttons[0]] when the output does not match. *)
Definition buttonReturned (result : string) (buttons : list string) : option string :=
  match Rx.search Rx.button_returned_here result with
  | Some cap => Some (trim cap)
  | None => head buttons
  end.

(** The dialog is shown by an [osascript] command; the model reads what
    the command prints from the environment ([dialog]) and does not
    record the command in the world. *)
Definition sendNativeNotification (env : Env) (title : string) (buttons : list string)
  : M (option string) :=
  if isDryRun env
  then do log warning (DryRunNotification title) then ret (Some "OK")
  else match dialog env title with
       | Some result => ret (buttonReturned result buttons)
       | None => do log warning (NotificationFailed title) then ret None
       end.

(** The menu: [a] selects every IDE, the number [i] the [i]-th one. *)
Definition selectOption (ideStatus : list Status) (answer : string)
  : option (list Status) :=
  if String.eqb answer "a" then Some ideStatus
  else first_some
         (fun entry => if String.eqb (show (N.of_nat (fst entry))) answer
                       then Some [snd entry] else None)
         (combine (seq 1 (List.length ideStatus)) ideStatus).

Definition promptSelection (env : Env) (ideStatus : list Status)
  (latestVersion : option json) : M (list Status) :=
  if isCronMode env then
    let* updatesNeeded :=
      lift (JsArray.filter_by (fun s => isOutdatedValue latestVersion (st_version s))
                              ideStatus) in
    if (List.length updatesNeeded =? 0)%nat then ret []
    else
      let* button := sendNativeNotification env "Augment Extension Update Available"
                                            ["Cancel"; "Update All"] in
      ret (if strictEq (Some (JStr "Update All")) button then updatesNeeded else [])
  else
    ret (if String.eqb (choice env) "q" then []
         else default [] (selectOption ideStatus (choice env))).

(** *** Download *)

Definition maxRetries : nat := 3.
Definition baseDelay : N := 2000.

Definition vsixFileName (version : option json) : string :=
  extensionId ++ "-" ++ template version ++ ".vsix".

Definition vsixFilePath (env : Env) (version : option json) : string :=
  join [tempDir env; vsixFileName version].

(** The body of the [try] of one attempt. *)
Definition downloadAttempt (env : Env) (version : option json) (attemptNo : nat)
  : M string :=
  do log info (Downloading (template version) attemptNo) then
  if isDryRun env
  then do log warning DryRunDownload then ret (vsixFilePath env version)
  else
    let* response := lift (downloadReply env attemptNo) in
    if negb (ok response)
    then throw ("Download failed with status: " ++ show (N.of_nat (status response)))
    else
      let* buffer := lift (payload response) in
      if (String.length buffer =? 0)%nat then throw "Downloaded file is empty"
      else
        do writeFileSync (vsixFilePath env version) (Raw buffer) then
        let* present := existsSync (vsixFilePath env version) in
        if negb present then throw "File write verification failed"
        else
          do log success (Downloaded (vsixFileName version) (String.length buffer)) then
          ret (vsixFilePath env version).

(** The [for] loop over the attempts, [remaining] of them left. *)
Fixpoint downloadLoop (env : Env) (version : option json) (remaining attemptNo : nat)
  (lastError : string) : M string :=
  match remaining with
  | O => throw ("Download failed after " ++ show (N.of_nat maxRetries)
                ++ " attempts. Last error: " ++ lastError)
  | S remaining' =>
      let* outcome := attempt (downloadAttempt env version attemptNo) in
      match outcome with
      | Ok filePath => ret filePath
      | Throw msg =>
          do log error (DownloadAttemptFailed attemptNo msg) then
          do (if (attemptNo <? maxRetries)%nat
              then let delayMs := (baseDelay * N.of_nat attemptNo)%N in
                   do log warning (RetryingIn delayMs) then sleep delayMs
              else ret tt) then
          downloadLoop env version remaining' (S attemptNo) msg
      end
  end.

Definition downloadVsix (env : Env) (version : option json) : M string :=
  downloadLoop env version maxRetries 1 "".

(** *** Install, verify, clean up *)

Record InstallResult : Type := mkInstallResult {
  target : Status;
  succeeded : bool;
  failure : option string
}.

Definition installOne (env : Env) (vsixPath : string) (t : Status) : M InstallResult :=
  try_catch
    (do log info (InstallingIn (name (st_config t))) then
     if isDryRun env
     then do log warning (DryRunInstall (name (st_config t))) then
          ret (mkInstallResult t true None)
     else
       do execInstall (install_outcome env)
                      (installCommand (st_command t) (st_config t) vsixPath) then
       do log success (InstalledIn (name (st_config t))) then
       ret (mkInstallResult t true None))
    (fun msg =>
       do log error (InstallFailedIn (name (st_config t)) msg) then
       ret (mkInstallResult t false (Some msg))).

Definition installExtensions (env : Env) (targets : list Status) (vsixPath : string)
  : M (list InstallResult) :=
  do log info (InstallingTo (List.length targets)) then
  mapM (installOne env vsixPath) targets.

Definition verifyRetries : nat := 5.
Definition verifyDelay : N := 3000.

(** The attempts for one target, [remaining] of them left. *)
Fixpoint verifyTarget (env : Env) (detectedIDEs : list Detected) (t : Status)
  (expectedVersion : option json) (remaining attemptNo : nat) : M bool :=
  match remaining with
  | O => ret false
  | S remaining' =>
      do sleep verifyDelay then
      let* allStatus := scanIDEs env detectedIDEs in
      let targetStatus :=
        List.find (fun s => String.eqb (st_ide s) (st_ide t)) allStatus in
      match targetStatus with
      | Some s =>
          if strictEq expectedVersion (st_version s)
          then do log success (Verified (name (st_config t))
                                        (default "" (st_version s))) then
               ret true
          else
            do log warning (VerifyAttempt attemptNo (name (st_config t))
                              (st_version s) (template expectedVersion)) then
            verifyTarget env detectedIDEs t expectedVersion remaining' (S attemptNo)
      | None =>
          do log warning (VerifyAttempt attemptNo (name (st_config t))
                            (Some "unknown") (template expectedVersion)) then
          verifyTarget env detectedIDEs t expectedVersion remaining' (S attemptNo)
      end
  end.

Record VerifyResult : Type := mkVerifyResult {
  verified : bool;
  failed : list Status
}.

Definition verifyOne (env : Env) (detectedIDEs : list Detected)
  (expectedVersion : option json) (t : Status) : M (list Status) :=
  let* done := verifyTarget env detectedIDEs t expectedVersion verifyRetries 1 in
  if done then ret []
  else do log error (VerifyFailed (name (st_config t))) then ret [t].

Definition verifyInstallations (env : Env) (detectedIDEs : list Detected)
  (targets : list Status) (expectedVersion : option json) : M VerifyResult :=
  do log info Verifying then
  if isDryRun env then do log warning DryRunVerify then ret (mkVerifyResult true [])
  else
    let* failures := mapM (verifyOne env detectedIDEs expectedVersion) targets in
    let failedTargets := concat failures in
    ret (mkVerifyResult (List.length failedTargets =? 0)%nat failedTargets).

Definition cleanupFile (env : Env) (filePath : string) : M unit :=
  try_catch
    (if isDryRun env then log warning DryRunCleanup
     else
       let* present := existsSync filePath in
       if present
       then do unlinkSync filePath then log success (CleanedUp filePath)
       else ret tt)
    (fun msg => log warning (CleanupFailed msg)).

(** *** The run *)

Inductive ExitStatus : Type :=
| Returned
| Exited (exitCode : nat).

(** The closing notification of cron mode. *)
Definition notifyOutcome (env : Env) (title : string) : M unit :=
  if isCronMode env
  then let* _ := sendNativeNotification env title ["OK"] in ret tt
  else ret tt.

Definition onUpdateFailed (env : Env) (msg : string) : M unit :=
  do log error (UpdateFailed msg) then
  do notifyOutcome env "Augment Update Failed" then
  throw msg.

(** The inner [try / catch / finally] of [run]: download, install,
    verify, and the cleanup of the downloaded file. [vsixPath] is still
    [null] in the [finally] when the download threw. *)
Definition updatePhase (env : Env) (detectedIDEs : list Detected)
  (targets : list Status) (latestVersion : option json) : M unit :=
  let* downloaded := attempt (downloadVsix env latestVersion) in
  match downloaded with
  | Throw msg => onUpdateFailed env msg
  | Ok vsixPath =>
      try_finally
        (try_catch
           (let* installResults := installExtensions env targets vsixPath in
            let successfulInstalls :=
              map target (List.filter succeeded installResults) in
            let* verifyResult :=
              verifyInstallations env detectedIDEs successfulInstalls latestVersion in
            let successCount :=
              (List.length successfulInstalls - List.length (failed verifyResult))%nat in
            notifyOutcome env
              (if (successCount =? List.length targets)%nat
               then "Augment Update Complete" else "Augment Update Finished"))
           (onUpdateFailed env))
        (if truthy (Some vsixPath) then cleanupFile env vsixPath else ret tt)
  end.

(** [AugmentMonitor.run]; console output is left out. *)
Definition run (env : Env) : M ExitStatus :=
  try_catch
    (do log info StartingCheck then
     let* detectedIDEs := detectAvailableIDEs env supportedIDEs in
     let* ideStatus := scanIDEs env detectedIDEs in
     let* latestVersion := getLatestVersion env in
     let* updateAvailable := lift (anyOutdated latestVersion ideStatus) in
     if negb updateAvailable && negb (forced env) && isCronMode env then ret Returned
     else
       let* targets := promptSelection env ideStatus latestVersion in
       if (List.length targets =? 0)%nat
       then do log info NoUpdatesSelected then ret Returned
       else
         do updatePhase env detectedIDEs targets latestVersion then
         ret Returned)
    (fun msg => do log error (UpdateProcessFailed msg) then ret (Exited 1)).

End Monitor.

(** ** The modular IDE manager ([src/managers/cli-manager.js]) *)

Module IDEManager.
Import Monitor.

(** [getExtensionPath]: the three paths are built before the lookup, so
    [path.join] throws for any [ide] when the home directory is
    [undefined]. *)
Definition getExtensionPath (env : Env) (ide : string) : result (option string) :=
  let homeDir := or_else (getenv env "HOME") (getenv env "USERPROFILE") in
  match homeDir with
  | None => Throw "The path argument must be of type string. Received undefined"
  | Some h =>
      Ok (if String.eqb ide "cursor" then Some (join [h; ".cursor"; "extensions"])
          else if String.eqb ide "vscode" then Some (join [h; ".vscode"; "extensions"])
          else if String.eqb ide "antigravity"
          then Some (join [h; ".antigravity"; "extensions"])
          else None)
  end.

(** The command line probe and its [catch].  Whether [command --version]
    succeeds is read from the environment and the run is not recorded in
    the world. *)
Definition probeCli (env : Env) (ide : string) (config : Config) (command : string)
  : M (string * bool) :=
  if probe env (command ++ " " ++ version (commands config)) then ret (command, true)
  else
    match macPaths env ide with
    | Some macPath =>
        if String.eqb (platform env) "darwin" && truthy (Some macPath) then
          let* present := existsSync macPath in
          if present
          then do log success (DetectedAt (name config) macPath) then
               ret ((dquote ++ macPath ++ dquote)%string, true)
          else ret (command, false)
        else ret (command, false)
    | None => ret (command, false)
    end.

(** The body of the loop of [detectAvailableIDEs], with its [try/catch]. *)
Definition detectOne (env : Env) (entry : string * Config) : M (option Detected) :=
  let '(ide, config) := entry in
  try_catch
    (let command := default ide (or_else (getenv env (envVar config)) None) in
     let* cli := probeCli env ide config command in
     let* detected :=
       if snd cli then ret true
       else
         let* extensionPath := lift (getExtensionPath env ide) in
         match extensionPath with
         | Some p =>
             let* present := existsSync p in
             if truthy (Some p) && present
             then do log success (DetectedViaFolder (name config)) then ret true
             else ret false
         | None => ret false
         end in
     if detected
     then do log success (IdeDetected (name config)) then
          ret (Some (mkDetected ide config (fst cli) (priority config)))
     else ret None)
    (fun msg => do log warning (DetectionFailed (name config) msg) then ret None).

Fixpoint collectAvailable (env : Env) (table : list (string * Config))
  : M (list Detected) :=
  match table with
  | [] => ret []
  | entry :: rest =>
      let* found := detectOne env entry in
      let* others := collectAvailable env rest in
      ret (match found with Some d => d :: others | None => others end)
  end.

Definition detectAvailableIDEs (env : Env) (table : list (string * Config))
  : M (list Detected) :=
  do log info DetectingIDEs then
  let* found := collectAvailable env table in
  let available := JsArray.sort_with byPriority found in
  do (if (0 <? List.length available)%nat
      then log info (FoundIDEs (map (fun d => name (config d)) available))
      else ret tt) then
  ret available.

End IDEManager.

(** ** Vocabulary of the detection statements *)

Module DetectSpec.
Import Monitor.

(** Whether one target is present, decided from the environment and the
    file system alone: the version command runs, or on macOS the binary
    is at its standard path, or the extensions folder exists.  A folder
    lookup that throws leaves the target absent. *)
Definition detects (folder : string -> result (option string)) (env : Env)
  (f : gmap string Node) (entry : string * Config) : option Detected :=
  let '(ide, config) := entry in
  let command := default ide (or_else (getenv env (envVar config)) None) in
  if probe env (command ++ " " ++ version (commands config))
  then Some (mkDetected ide config command (priority config))
  else
    let atMacPath :=
      match macPaths env ide with
      | Some macPath =>
          if String.eqb (platform env) "darwin" && truthy (Some macPath)
             && bool_decide (is_Some (f !! macPath))
          then Some macPath else None
      | None => None
      end in
    match atMacPath with
    | Some macPath =>
        Some (mkDetected ide config (dquote ++ macPath ++ dquote) (priority config))
    | None =>
        match folder ide with
        | Ok (Some p) =>
            if truthy (Some p) && bool_decide (is_Some (f !! p))
            then Some (mkDetected ide config command (priority config))
            else None
        | Ok None | Throw _ => None
        end
    end.

(** The world [w] after the log lines [es]. *)
Definition logged (w : World) (es : list (Level * Message)) : World :=
  mkWorld (fs w) (denied w) (journal w ++ es) (slept w) (spawned w) (requests w)
          (scans w).

(** An environment in which no version command runs and no home
    directory is set, and one in which only VS Code answers. *)
Definition bareEnv (probe : string -> bool) : Env :=
  mkEnv false false false "/app/temp" (fun _ => None) "linux" probe
    (Ok (mkResponse 200 (Ok (JObj []))))
    (fun _ => Throw "network unreachable")
    (fun _ => Throw "network unreachable")
    (fun _ _ => None)
    (fun _ _ => Ok tt)
    "a" (fun _ => None).

Definition nothingRuns (cmd : string) : bool := false.

Definition onlyCode (cmd : string) : bool := String.eqb cmd "vscode --version".

Definition blankWorld : World := mkWorld ∅ ∅ [] [] [] [] 0.

End DetectSpec.

(** ** Vocabulary of the download statements *)

Module DownloadSpec.
Import Monitor.

(** The reply to attempt [k] is accepted: a status in 200..299 and a
    payload that is not empty. *)
Definition accepted (env : Env) (k : nat) : bool :=
  match downloadReply env k with
  | Ok response =>
      ok response
      && match payload response with
         | Ok buffer => negb (String.length buffer =? 0)%nat
         | Throw _ => false
         end
  | Throw _ => false
  end.

(** Attempt [k] succeeds: its reply is accepted and the file can be
    written. *)
Definition attemptOk (env : Env) (version : option json) (den : gset string) (k : nat)
  : bool :=
  accepted env k && negb (bool_decide (vsixFilePath env version ∈ den)).

(** What attempt [k] writes to disk when it succeeds. *)
Definition received (env : Env) (k : nat) : string :=
  match downloadReply env k with
  | Ok response => match payload response with Ok buffer => buffer | Throw _ => "" end
  | Throw _ => ""
  end.

(** The error attempt [k] ends with when it fails. *)
Definition attemptError (env : Env) (version : option json) (k : nat) : string :=
  match downloadReply env k with
  | Throw msg => msg
  | Ok response =>
      if negb (ok response)
      then "Download failed with status: " ++ show (N.of_nat (status response))
      else match payload response with
           | Throw msg => msg
           | Ok buffer =>
               if (String.length buffer =? 0)%nat then "Downloaded file is empty"
               else "EACCES: permission denied, '" ++ vsixFilePath env version ++ "'"
           end
  end.

(** The delay awaited after failed attempt [k]. *)
Definition backoff (k : nat) : N := (baseDelay * N.of_nat k)%N.

(** The world [w] with file system [f], after the log lines [es] and
    the delays [ds]. *)
Definition after (w : World) (f : gmap string Node) (es : list (Level * Message))
  (ds : list N) : World :=
  mkWorld f (denied w) (journal w ++ es) (slept w ++ ds) (spawned w) (requests w)
          (scans w).

(** What a failed attempt [k] leaves in the log, and the delay it is
    followed by. *)
Definition failureLines (env : Env) (version : option json) (k : nat)
  : list (Level * Message) :=
  [(info, Downloading (template version) k);
   (error, DownloadAttemptFailed k (attemptError env version k))]
  ++ (if (k <? maxRetries)%nat then [(warning, RetryingIn (backoff k))] else []).

Definition failureDelay (k : nat) : list N :=
  if (k <? maxRetries)%nat then [backoff k] else [].

Definition successLines (env : Env) (version : option json) (k : nat)
  : list (Level * Message) :=
  [(info, Downloading (template version) k);
   (success, Downloaded (vsixFileName version) (String.length (received env k)))].

(** Attempts recorded in a stretch of the log. *)
Definition attemptsIn (es : list (Level * Message)) : nat :=
  List.length (List.filter (fun e => match snd e with
                                     | Downloading _ _ => true
                                     | _ => false
                                     end) es).

(** The number of the first successful attempt, if one of the three
    succeeds. *)
Definition firstSuccess (env : Env) (version : option json) (den : gset string)
  : option nat :=
  List.find (attemptOk env version den) (seq 1 maxRetries).

(** An environment in which the package host answers 500 twice and then
    200 with a non-empty body; one IDE is detected and reports the old
    version at every scan. *)
Definition apiLatest (v : string) : json :=
  JObj [("results",
         JArr [JObj [("extensions",
                      JArr [JObj [("versions", JArr [JObj [("version", JStr v)]])]])]])].

Definition flakyHost (k : nat) : result (Response string) :=
  if (k =? 3)%nat then Ok (mkResponse 200 (Ok "PK-vsix-bytes"))
  else Ok (mkResponse 500 (Ok "")).

Definition deadHost (k : nat) : result (Response string) :=
  Ok (mkResponse 500 (Ok "")).

Definition steadyHost (k : nat) : result (Response string) :=
  Ok (mkResponse 200 (Ok "PK-vsix-bytes")).

Definition sampleEnv (host : nat -> result (Response string))
  (seen : nat -> string -> option string) : Env :=
  mkEnv false false false "/app/temp"
    (fun k => if String.eqb k "HOME" then Some "/home/u" else None) "linux"
    (fun cmd => String.eqb cmd "cursor --version")
    (Ok (mkResponse 200 (Ok (apiLatest "0.576.0"))))
    (fun _ => Throw "network unreachable")
    host seen
    (fun _ _ => Ok tt)
    "a" (fun _ => None).

Definition stillOld (n : nat) (ide : string) : option string := Some "0.560.0".

Definition emptyWorld : World := mkWorld ∅ ∅ [] [] [] [] 0.

(** The IDEs detected and scanned at the start of a run in the sample
    environment, and the version a run resolves there. *)
Definition sampleDetected (env : Env) : list Detected :=
  match fst (detectAvailableIDEs env supportedIDEs emptyWorld) with
  | Ok found => found
  | Throw _ => []
  end.

Definition sampleTargets (env : Env) : list Status :=
  match fst (scanIDEs env (sampleDetected env) emptyWorld) with
  | Ok statuses => statuses
  | Throw _ => []
  end.

Definition sampleVersion : option json := Some (JStr "0.576.0").

(** The log lines that report a verification verdict or the removal of
    the artifact. *)
Definition isVerdict (e : Level * Message) : bool :=
  match snd e with
  | Verified _ _ | VerifyFailed _ | CleanedUp _ => true
  | _ => false
  end.

End DownloadSpec.

(** ** Vocabulary of the version-resolution statements *)

Module ResolveSpec.
Import Monitor.

(** One step of optional chaining: nothing is read from [undefined] or
    [null]. *)
Definition opt (read : option json -> result (option json)) (v : option json)
  : option json :=
  match v with
  | None | Some JNull => None
  | Some _ => match read v with Ok x => x | Throw _ => None end
  end.

(** [data.results?.[0]?.extensions?.[0]?.versions?.[0]]: the head of the
    results / extensions / versions chain. *)
Definition chainHead (data : json) : option json :=
  opt index0 (opt (fun v => prop v "versions")
    (opt index0 (opt (fun v => prop v "extensions")
      (opt index0 (opt (fun v => prop v "results") (Some data)))))).

(** The chain is missing when its head is [undefined] or [null]. *)
Definition chainMissing (data : json) : bool :=
  match chainHead data with
  | None | Some JNull => true
  | Some _ => false
  end.

(** The primary source fails: the request throws, the status is outside
    200..299, the body is not JSON, or the chain is missing. *)
Definition primaryFails (env : Env) : bool :=
  match apiReply env with
  | Throw _ => true
  | Ok response =>
      negb (ok response)
      || match payload response with
         | Throw _ => true
         | Ok data => chainMissing data
         end
  end.

(** What the primary source reports when it does not fail: the [version]
    property of the head of the chain. *)
Definition primaryVersion (env : Env) : option json :=
  match apiReply env with
  | Ok response =>
      match payload response with
      | Ok data => opt (fun v => prop v "version") (chainHead data)
      | Throw _ => None
      end
  | Throw _ => None
  end.

(** The first capture among the four patterns, in their order. *)
Definition pageVersion (html : string) : option string :=
  first_some (fun pattern => pattern html) Rx.versionPatterns.

(** What one consultation of the fallback yields after the page fetches
    [reqs]. *)
Definition fallbackOutcome (env : Env) (reqs : list string) : result string :=
  match pageReply env reqs with
  | Throw msg => Throw msg
  | Ok response =>
      if negb (ok response)
      then Throw ("Marketplace page failed with status: "
                  ++ show (N.of_nat (status response)))
      else match payload response with
           | Throw msg => Throw msg
           | Ok html =>
               match pageVersion html with
               | Some v => Ok v
               | None => Throw "Could not find version in marketplace page"
               end
           end
  end.

(** The primary source answered and the code itself turned the answer
    down (status check or extension guard), as opposed to an exception. *)
Definition declined (env : Env) : bool :=
  match apiReply env with
  | Throw _ => false
  | Ok response =>
      negb (ok response)
      || match payload response with
         | Ok data => match extractVersion data with
                      | Ok NoExtension => true
                      | _ => false
                      end
         | Throw _ => false
         end
  end.

(** The warning logged when the primary source fails. *)
Definition primaryNote (env : Env) : list (Level * Message) :=
  match apiReply env with
  | Throw msg => [(warning, ApiFailed msg)]
  | Ok response =>
      if negb (ok response) then [(warning, ApiFailedStatus (status response))]
      else match payload response with
           | Throw msg => [(warning, ApiFailed msg)]
           | Ok data =>
               match extractVersion data with
               | Ok NoExtension => [(warning, NoExtensionInResponse)]
               | Ok (Version _) => []
               | Throw msg => [(warning, ApiFailed msg)]
               end
           end
  end.

(** The world [w] after the log lines [es] and the page fetches [urls]. *)
Definition fetched (w : World) (es : list (Level * Message)) (urls : list string)
  : World :=
  mkWorld (fs w) (denied w) (journal w ++ es) (slept w) (spawned w)
          (requests w ++ urls) (scans w).

(** The log line of a primary success. *)
Definition isPrimaryLine (e : Level * Message) : bool :=
  match snd e with
  | LatestVersion _ => true
  | _ => false
  end.

(** A response whose first result lists no extension, and a marketplace
    page that carries the version in its embedded JSON. *)
Definition apiNoExtension : json :=
  JObj [("results", JArr [JObj [("extensions", JArr [])]])].

Definition samplePage : string :=
  "<html><script>{" ++ dquote ++ "version" ++ dquote ++ ":" ++ dquote ++ "9.9.9"
  ++ dquote ++ "}</script> Version 1.2.3 </html>".

(** An answer whose chain is complete while the head of [versions]
    carries no [version]. *)
Definition apiVersionless : json :=
  JObj [("results",
         JArr [JObj [("extensions", JArr [JObj [("versions", JArr [JObj []])]])]])].

Definition fallbackEnv (api : result (Response json))
  (page : list string -> result (Response string)) : Env :=
  mkEnv false false false "/app/temp"
    (fun k => if String.eqb k "HOME" then Some "/home/u" else None) "linux"
    (fun cmd => String.eqb cmd "cursor --version")
    api page
    (fun _ => Ok (mkResponse 200 (Ok "PK-vsix-bytes")))
    (fun _ _ => Some "0.560.0")
    (fun _ _ => Ok tt)
    "a" (fun _ => None).

(** The gallery answers without a version while the marketplace page
    carries 9.9.9. *)
Definition versionlessEnv : Env :=
  fallbackEnv (Ok (mkResponse 200 (Ok apiVersionless)))
              (fun _ => Ok (mkResponse 200 (Ok samplePage))).

End ResolveSpec.

(** ** Notions used in the statements and their proofs *)

Module StringNotions.

(** Whether [p] fails on the first character of [s], if any. *)
Definition stops (p : ascii -> bool) (s : string) : bool :=
  match s with
  | EmptyString => true
  | String c _ => negb (p c)
  end.

End StringNotions.

Module SemverNotions.
Import Semver.

(** What a capture group [\d{1,16}] can hold. *)
Definition digit_run (s : string) : Prop :=
  all_chars is_digit s = true /\ s <> "" /\
  (String.length s <= MAX_SAFE_COMPONENT_LENGTH)%nat.

(** A component [coerce] accepts: a numeric identifier of at most
    sixteen digits that does not exceed [MAX_SAFE_INTEGER]. *)
Definition component (s : string) : bool :=
  numeric_identifier s
  && (String.length s <=? MAX_SAFE_COMPONENT_LENGTH)%nat
  && (num s <=? MAX_SAFE_INTEGER)%N.

End SemverNotions.

Module Orders.

(** A three-way comparator that behaves as a total preorder. *)
Record Order {A : Type} (cmp : A -> A -> comparison) : Prop := mkOrder {
  ord_refl : forall x, cmp x x = Eq;
  ord_sym : forall x y, cmp y x = CompOpp (cmp x y);
  ord_trans : forall x y z, cmp x y = Lt -> cmp y z = Lt -> cmp x z = Lt;
  ord_eq : forall x y z, cmp x y = Eq -> cmp x z = cmp y z
}.

Definition le {A} (cmp : A -> A -> comparison) (x y : A) : Prop := cmp x y <> Gt.

(** Left summand below right summand. *)
Definition sum_compare {A B} (ca : A -> A -> comparison) (cb : B -> B -> comparison)
  (x y : A + B) : comparison :=
  match x, y with
  | inl a, inl b => ca a b
  | inl _, inr _ => Lt
  | inr _, inl _ => Gt
  | inr a, inr b => cb a b
  end.

End Orders.

Module Precedence.
Import Semver Orders.

Definition pre_key (p : PreId) : N + string :=
  if pre_numeric p then inl (pre_value p) else inr (pre_text p).

(** Precedence on version strings; strings that do not parse are ranked
    as [0.0.0]. On valid strings this is what [semver.compare] returns. *)
Definition key (v : string) : SemVer :=
  default (mkSemVer 0 0 0 [] []) (parse v).

Definition precedence (a b : string) : comparison :=
  compareSemVer (key a) (key b).

End Precedence.

Module Frames.
Import DetectSpec.

(** A computation that writes no log line, runs no install command and
    awaits no delay. *)
Definition silent {A} (m : M A) : Prop :=
  forall w r w', m w = (r, w') ->
    journal w' = journal w /\ spawned w' = spawned w /\ slept w' = slept w
    /\ denied w' = denied w /\ scans w' = scans w.

(** A computation that appends [es] to the log and runs no install
    command. *)
Definition appends {A} (m : M A) (w : World) (r : result A) (w' : World)
  (es : list (Level * Message)) : Prop :=
  m w = (r, w') /\ journal w' = journal w ++ es /\ spawned w' = spawned w.

(** A computation that leaves the file system and its permissions
    alone. *)
Definition keeps {A} (m : M A) : Prop :=
  forall w r w', m w = (r, w') -> fs w' = fs w /\ denied w' = denied w.

(** A computation whose only effect is to write log lines. *)
Definition logs_only {A} (m : M A) : Prop :=
  forall w, exists es, snd (m w) = logged w es.

End Frames.

(** ** Vocabulary of the status table *)

Module VersionTable.
Import Monitor.

(** The version an IDE reports, if any: [null] and the empty string
    both count as not installed. *)
Definition reports (s : Status) : option string :=
  if truthy (st_version s) then st_version s else None.

(** The reported version can be compared with the latest one: both are
    valid semantic versions. *)
Definition comparable (latest : string) (s : Status) : bool :=
  match reports s with
  | Some v => truthy (Semver.valid latest) && truthy (Semver.valid v)
  | None => true
  end.

(** The IDE lacks the extension or has it at a lower precedence. *)
Definition older (latest : string) (s : Status) : bool :=
  match reports s with
  | Some v => match Precedence.precedence latest v with Gt => true | _ => false end
  | None => true
  end.


End VersionTable.

(** ** Vocabulary of the frame statements *)

Module Frame.

(** Every run of [m] relates the world before to the world after by
    [R]. *)
Definition preserves (R : World -> World -> Prop) {A} (m : M A) : Prop :=
  forall w r w', m w = (r, w') -> R w w'.

(** Nothing but the log, the record of page fetches and the scan counter
    differs: same files, same permissions, no install command run, no
    delay awaited.  Version probes, listings and dialogs are not install
    commands and are not excluded. *)
Definition untouched (w w' : World) : Prop :=
  fs w' = fs w /\ denied w' = denied w /\ spawned w' = spawned w /\ slept w' = slept w.

(** The same files and permissions and no install command run; delays
    may have been awaited. *)
Definition idle (w w' : World) : Prop :=
  fs w' = fs w /\ denied w' = denied w /\ spawned w' = spawned w.

End Frame.

(** ** Vocabulary of the install and verification statements *)

Module VerifySpec.
Import Monitor.

(** The install command of a target. *)
Definition commandFor (vsixPath : string) (t : Status) : string :=
  installCommand (st_command t) (st_config t) vsixPath.

(** Whether scan number [scanNo] shows the expected version for the IDE
    of [t]; an IDE that is not among the detected ones never does. *)
Definition matches (env : Env) (detectedIDEs : list Detected) (t : Status)
  (expectedVersion : option json) (scanNo : nat) : bool :=
  match List.find (fun d => String.eqb (ide d) (st_ide t)) detectedIDEs with
  | Some d => strictEq expectedVersion (scanned env scanNo (ide d))
  | None => false
  end.

(** The world [w] after [n] verification scans, each preceded by the
    verification delay, and the log lines [es]: the files, the
    permissions, the install commands run and the pages fetched are
    those of [w]. *)
Definition waited (w : World) (es : list (Level * Message)) (n : nat) : World :=
  mkWorld (fs w) (denied w) (journal w ++ es) (slept w ++ repeat verifyDelay n)
          (spawned w) (requests w) (scans w + n).

End VerifySpec.

(** ** Scanning the IDEs for the extension

    [IDEManager.scanIDEs] of the third revision of [index.js] and
    [IDEManager.scanForExtension] of the modular manager, as [run] calls
    them: with [augment.vscode-augment] as the extension.  A scan changes
    nothing; it is given the file system and the output of the list
    commands and returns the statuses together with its log lines.
    [Monitor.scanIDEs] stands for the same function where only what each
    scan reports matters, and takes that from the environment. *)

Module Scan.
Import Monitor.

Inductive Line : Type :=
| Checking (name : string)
| FoundIn (name version : string)
| NotFoundIn (name : string)
| CheckFailed (name msg : string).

(** What [fs.existsSync] and [fs.readdirSync] report for a path that may
    be [undefined]. *)
Definition dirState (f : gmap string Node) (p : option string) : DirState :=
  match p with
  | None => Missing
  | Some p =>
      match f !! p with
      | None => Missing
      | Some (Dir entries) => Listing entries
      | Some (File _) =>
          Unreadable ("ENOTDIR: not a directory, scandir '" ++ p ++ "'")
      end
  end.

(** [/augment\.vscode-augment@(\d+\.\d+\.\d+)/] at the head of [s]. *)
Definition listed_here (s : string) : option string :=
  let lit := (extensionId ++ "@")%string in
  if String.prefix lit s then
    let '(a, r1) := span is_digit (drop (String.length lit) s) in
    match strip_char "." r1 with
    | Some r1' =>
        let '(b, r2) := span is_digit r1' in
        match strip_char "." r2 with
        | Some r2' =>
            let '(c, _) := span is_digit r2' in
            if negb (String.eqb a "") && negb (String.eqb b "") && negb (String.eqb c "")
            then Some (a ++ "." ++ b ++ "." ++ c)%string else None
        | None => None
        end
    | None => None
    end
  else None.

Definition unknownVersion : string := "Installed (unknown version)".

(** What the output of the list command yields: [match], made a string. *)
Definition fromListing (f : gmap string Node) (ide : string)
  (extensionDir : option string) (output : string) : option string :=
  if String.eqb ide "cursor" || String.eqb ide "antigravity"
  then Rx.search listed_here output
  else if includes output extensionId
       then let again := getExtensionVersionFromDir (dirState f extensionDir) extensionId in
            Some (if truthy again then default unknownVersion again else unknownVersion)
       else None.

(** The body of the outer [try] of the loop, for the folder lookup
    [folder] of the implementation: the version found, or what is
    thrown. *)
Definition scanVersion (folder : string -> result (option string))
  (listOutput : string -> result string) (f : gmap string Node) (d : Detected)
  : result (option string) :=
  bind (folder (ide d)) (fun extensionDir =>
  let fromFolder :=
    if truthy extensionDir
    then getExtensionVersionFromDir (dirState f extensionDir) extensionId
    else None in
  if negb (truthy fromFolder)
  then match listOutput (command d ++ " " ++ listExtensions (commands (config d)))%string
       with
       | Ok output =>
           match fromListing f (ide d) extensionDir output with
           | Some v => Ok (Some v)
           | None => Ok fromFolder
           end
       | Throw _ => Ok fromFolder
       end
  else Ok fromFolder).

Definition statusOf (d : Detected) (version : option string) : Status :=
  mkStatus (ide d) (config d) (command d) version.

(** One turn of the loop of [scanIDEs] (third revision of [index.js]). *)
Definition scanOne (env : Env) (listOutput : string -> result string)
  (f : gmap string Node) (d : Detected) : Status * list (Level * Line) :=
  match scanVersion (extensionFolder env) listOutput f d with
  | Ok version =>
      (statusOf d version,
       [(info, Checking (name (config d)));
        if truthy version then (success, FoundIn (name (config d)) (default "" version))
        else (warning, NotFoundIn (name (config d)))])
  | Throw msg =>
      (statusOf d None,
       [(info, Checking (name (config d)));
        (warning, CheckFailed (name (config d)) msg)])
  end.

Definition scanIDEs (env : Env) (listOutput : string -> result string)
  (f : gmap string Node) (detectedIDEs : list Detected)
  : list Status * list (Level * Line) :=
  let turns := map (scanOne env listOutput f) detectedIDEs in
  (map fst turns, concat (map snd turns)).



End Scan.

(** ** Notions used to state what a scan reports *)

Module ScanSpec.
Import Monitor Scan.

(** A non-empty run of decimal digits. *)
Definition digits (s : string) : bool := negb (String.eqb s "") && all_chars is_digit s.






End ScanSpec.

(** ** Resolved paths *)

Module PathNotions.

(** The stack [resolve] ends with, top first. *)
Fixpoint stack (st segs : list string) (absolute : bool) : list string :=
  match segs with
  | [] => st
  | seg :: rest =>
      if String.eqb seg "" || String.eqb seg "." then stack st rest absolute
      else if String.eqb seg ".." then
        match st with
        | top :: below =>
            if String.eqb top ".." then stack (seg :: st) rest absolute
            else stack below rest absolute
        | [] => if absolute then stack [] rest absolute
                else stack [seg] rest absolute
        end
      else stack (seg :: st) rest absolute
  end.

(** How [join] writes the resolved segments. *)
Definition render (segs : list string) (absolute : bool) : string :=
  match segs, absolute with
  | [], false => "."
  | _, false => String.concat "/" segs
  | _, true => "/" ++ String.concat "/" segs
  end.

Definition slashfree (s : string) : bool :=
  all_chars (fun c => negb (Ascii.eqb c "/")) s.

(** A name a directory listing can hold. *)
Definition plain (s : string) : bool :=
  slashfree s && negb (String.eqb s "") && negb (String.eqb s ".")
  && negb (String.eqb s "..").

(** A stack of resolved segments: names, above [..] segments that only
    a relative path keeps. *)
Fixpoint normal (absolute : bool) (st : list string) : bool :=
  match st with
  | [] => true
  | top :: below =>
      if String.eqb top ".."
      then negb absolute && forallb (String.eqb "..") below
      else plain top && normal absolute below
  end.

(** The parts [join] keeps. *)
Definition nonempty (p : string) : bool := negb (String.eqb p "").

End PathNotions.

(** ** The Cursor profiles ([getCursorProfiles], second revision) *)

Module Profiles.
Import Fanout.

Inductive Line : Type :=
| ProfilesDirNotFound
| ErrorGettingProfiles (msg : string).

Definition cursorProfilesPath (home : string) : string :=
  join [home; "AppData"; "Roaming"; "Cursor"; "User"; "profiles"].

(** [dirent.isDirectory()] for the entry [name] of [dir]. *)
Definition isDirectory (f : gmap string Node) (dir name : string) : bool :=
  match f !! join [dir; name] with
  | Some (Dir _) => true
  | _ => false
  end.

(** [profileHasAugment]: [text] gives the text of a file that holds a
    JSON value; a failed read counts as [false]. *)
Definition profileHasAugment (text : json -> string) (f : gmap string Node)
  (extensionsJsonPath : string) : bool :=
  match f !! extensionsJsonPath with
  | Some (File (JsonText v)) => includes (text v) "augment.vscode-augment"
  | Some (File (Raw content)) => includes content "augment.vscode-augment"
  | Some (Dir _) => false
  | None => false
  end.

(** The body of the loop over the profile directories. *)
Definition profileAt (text : json -> string) (f : gmap string Node)
  (cursorProfilesPath profileDir : string) : option Profile :=
  let profilePath := join [cursorProfilesPath; profileDir] in
  let extensionsJsonPath := join [profilePath; "extensions.json"] in
  if bool_decide (is_Some (f !! extensionsJsonPath))
  then Some (mkProfile profileDir profilePath
               (profileHasAugment text f extensionsJsonPath))
  else None.

(** [getCursorProfiles] for the home directory [home]: the profiles and
    the lines logged. *)
Definition getCursorProfiles (home : string) (text : json -> string)
  (f : gmap string Node) : list Profile * list (Level * Line) :=
  let cursorProfilesPath := cursorProfilesPath home in
  match f !! cursorProfilesPath with
  | None => ([], [(warning, ProfilesDirNotFound)])
  | Some (File _) =>
      ([], [(error, ErrorGettingProfiles
                      ("ENOTDIR: not a directory, scandir '" ++ cursorProfilesPath ++ "'"))])
  | Some (Dir entries) =>
      let profileDirs := List.filter (isDirectory f cursorProfilesPath) entries in
      (omap (profileAt text f cursorProfilesPath) profileDirs, [])
  end.

(** Two profiles under [/home/u]. *)
Definition sampleFiles : gmap string Node :=
  <["/home/u/AppData/Roaming/Cursor/User/profiles" := Dir ["work"; "notes.txt"; "play"]]>
  (<["/home/u/AppData/Roaming/Cursor/User/profiles/work" := Dir ["extensions.json"]]>
  (<["/home/u/AppData/Roaming/Cursor/User/profiles/work/extensions.json"
     := File (JsonText (JArr []))]>
  (<["/home/u/AppData/Roaming/Cursor/User/profiles/notes.txt" := File (Raw "")]>
  (<["/home/u/AppData/Roaming/Cursor/User/profiles/play" := Dir ["extensions.json"]]>
  (<["/home/u/AppData/Roaming/Cursor/User/profiles/play/extensions.json"
     := File (Raw "augment.vscode-augment")]> ∅))))).

End Profiles.

(** ** What the fan-out may touch *)

Module FanoutSpec.
Import Fanout.

(** The paths the copy to one profile may create, remove or rewrite. *)
Definition written (dir : string) (profile : Profile) : list string :=
  [profileExtensionsPath profile; join [profileExtensionsPath profile; dir];
   extensionsJsonPath profile].

(** The paths the fan-out to [profiles] may touch, given the files at
    its start. *)
Definition footprint (env : Env) (profiles : list Profile) (f : gmap string Node)
  : list string :=
  match f !! defaultExtensionsPath env with
  | Some (Dir entries) =>
      match latestExtensionDir entries with
      | Some dir => flat_map (written dir) profiles
      | None => []
      end
  | _ => []
  end.

(** [path] is none of the paths [S], nor above or below one of them. *)
Definition unrelated (S : list string) (path : string) : Prop :=
  forall s, In s S ->
    path <> s /\ String.prefix (s ++ "/") path = false
    /\ String.prefix (path ++ "/") s = false.

(** Nothing differs outside the paths [S] but the log: no other file,
    no permission, no install command run, no delay awaited. *)
Definition apart (S : list string) (w w' : World) : Prop :=
  (forall path, ~ In path S -> fs w' !! path = fs w !! path)
  /\ denied w' = denied w /\ spawned w' = spawned w /\ slept w' = slept w.

End FanoutSpec.

(** ** The folder read of the second revision *)

Module Revision2.
Import Monitor.

Inductive Line : Type :=
| VsCodeVersionFailed (msg : string).

(** [getVSCodeExtensionVersion]: the version in the name of the first
    folder of [~/.vscode/extensions] that starts with
    [augment.vscode-augment-], and the lines logged. *)
Definition getVSCodeExtensionVersion (env : Env) (f : gmap string Node)
  : option string * list (Level * Line) :=
  match or_else (getenv env "HOME") (getenv env "USERPROFILE") with
  | None =>
      (None, [(warning, VsCodeVersionFailed
                          "The path argument must be of type string. Received undefined")])
  | Some homeDir =>
      let vscodeExtensionsPath := join [homeDir; ".vscode"; "extensions"] in
      match f !! vscodeExtensionsPath with
      | None => (None, [])
      | Some (File _) =>
          (None, [(warning, VsCodeVersionFailed
                              ("ENOTDIR: not a directory, scandir '"
                               ++ vscodeExtensionsPath ++ "'"))])
      | Some (Dir extensions) =>
          match List.find (fun folder => startsWith folder "augment.vscode-augment-")
                          extensions with
          | Some augmentFolder =>
              if truthy (Some augmentFolder) then
                let version := replace_first_empty augmentFolder "augment.vscode-augment-" in
                if truthy (Semver.valid version) then (Some version, []) else (None, [])
              else (None, [])
          | None => (None, [])
          end
      end
  end.

(** A home directory [/home/u] whose VS Code extensions folder lists
    [entries]. *)
Definition sampleEnv : Env :=
  ResolveSpec.fallbackEnv (Throw "offline") (fun _ => Throw "offline").

Definition vscodeFolder (entries : list string) : gmap string Node :=
  {[ "/home/u/.vscode/extensions" := Dir entries ]}.

End Revision2.

(** ** Vocabulary of the up-to-date run *)

Module QuietSpec.
Import Monitor.

(** The installed version [v] is a valid version that the latest one
    does not exceed. *)
Definition current (latest v : string) : bool :=
  truthy (Semver.valid latest) && truthy (Semver.valid v)
  && match Precedence.precedence latest v with Gt => false | _ => true end.

(** A scheduled run on a machine where Cursor answers, every scan
    reports the version the gallery lists, and a dialog would be
    answered with [Update All]. *)
Definition cronEnv : Env :=
  mkEnv false true false "/app/temp"
    (fun k => if String.eqb k "HOME" then Some "/home/u" else None) "linux"
    (fun cmd => String.eqb cmd "cursor --version")
    (Ok (mkResponse 200 (Ok (DownloadSpec.apiLatest "0.576.0"))))
    (fun _ => Throw "network unreachable")
    (fun _ => Throw "network unreachable")
    (fun _ _ => Some "0.576.0")
    (fun _ _ => Ok tt)
    "a" (fun _ => Some "button returned:Update All").

(** A machine where Cursor answers while neither the gallery nor the
    marketplace page can be reached. *)
Definition offlineEnv : Env :=
  ResolveSpec.fallbackEnv (Throw "offline") (fun _ => Throw "offline").

End QuietSpec.

(** ** Vocabulary of the artifact path *)

Module ArtifactSpec.
Import Monitor.




End ArtifactSpec.

(* ================================================================== *)
(** * Properties *)
(* ================================================================== *)

(** ** Strings *)

Module StringFacts.
Export StringNotions.

Lemma append_nil_r (s : string) : s +:+ "" = s.
Proof. induction s as [|c s IH]; simpl; [reflexivity | now rewrite IH]. Qed.

Lemma append_assoc (a b c : string) : (a +:+ b) +:+ c = a +:+ (b +:+ c).
Proof. induction a as [|x a IH]; simpl; [reflexivity | now rewrite IH]. Qed.

Lemma length_append (a b : string) :
  String.length (a +:+ b) = (String.length a + String.length b)%nat.
Proof. induction a as [|x a IH]; simpl; [reflexivity | now rewrite IH]. Qed.

Lemma all_chars_app p (a b : string) :
  all_chars p (a +:+ b) = all_chars p a && all_chars p b.
Proof.
  induction a as [|x a IH]; simpl; [reflexivity |].
  now rewrite IH, andb_assoc.
Qed.

Lemma all_chars_impl (p q : ascii -> bool) (s : string) :
  (forall c, p c = true -> q c = true) ->
  all_chars p s = true -> all_chars q s = true.
Proof.
  intros Hpq. induction s as [|x s IH]; simpl; [reflexivity |].
  intros [Hx Hs]%andb_true_iff. rewrite (Hpq _ Hx), (IH Hs). reflexivity.
Qed.

Lemma span_app p (a r : string) :
  all_chars p a = true -> stops p r = true -> span p (a +:+ r) = (a, r).
Proof.
  intros Ha Hr. induction a as [|x a IH]; simpl in *.
  - destruct r as [|c r]; simpl in *; [reflexivity |].
    apply negb_true_iff in Hr. now rewrite Hr.
  - apply andb_true_iff in Ha as [Hx Ha]. rewrite Hx, (IH Ha). reflexivity.
Qed.

Lemma span_spec p (s a r : string) :
  span p s = (a, r) -> s = a +:+ r /\ all_chars p a = true /\ stops p r = true.
Proof.
  revert a r. induction s as [|x s IH]; simpl; intros a r H.
  - injection H as <- <-. auto.
  - destruct (p x) eqn:Hx.
    + destruct (span p s) as [a' r'] eqn:Hs. injection H as <- <-.
      destruct (IH _ _ eq_refl) as (-> & Ha & Hr). simpl. rewrite Hx, Ha. auto.
    + injection H as <- <-. simpl. rewrite Hx. auto.
Qed.

Lemma trim_end_id (s : string) :
  all_chars (fun c => negb (is_space c)) s = true -> trim_end s = s.
Proof.
  induction s as [|x s IH]; simpl; [reflexivity |].
  intros [Hx Hs]%andb_true_iff. apply negb_true_iff in Hx.
  rewrite Hx, (IH Hs). reflexivity.
Qed.

Lemma trim_id (s : string) :
  all_chars (fun c => negb (is_space c)) s = true -> trim s = s.
Proof.
  intros H. unfold trim.
  assert (trim_start s = s) as ->; [| now apply trim_end_id].
  destruct s as [|x s]; simpl in *; [reflexivity |].
  apply andb_true_iff in H as [Hx _]. apply negb_true_iff in Hx.
  now rewrite Hx.
Qed.

Lemma first_some_In {A B} (f : A -> option B) (l : list A) (b : B) :
  first_some f l = Some b -> exists x, In x l /\ f x = Some b.
Proof.
  induction l as [|x l IH]; simpl; [discriminate |].
  destruct (f x) eqn:Hx.
  - intros [= <-]. exists x. auto.
  - intros H. destruct (IH H) as (y & Hy & Hfy). exists y. auto.
Qed.

End StringFacts.

(** ** The version grammar and [coerce] *)

Module SemverFacts.
Export SemverNotions.
Import Semver StringFacts.

Lemma digit_run_zero : digit_run "0".
Proof. repeat split; [discriminate | simpl; unfold MAX_SAFE_COMPONENT_LENGTH; lia]. Qed.

Lemma rx_end_stops (s : string) : rx_end s = stops is_digit s.
Proof. destruct s; reflexivity. Qed.

Lemma rx_digits_nil (n : nat) (r : string) :
  stops is_digit r = true -> rx_digits n r = [].
Proof.
  destruct n, r as [|c r]; simpl; try reflexivity.
  intros H%negb_true_iff. now rewrite H.
Qed.

Lemma rx_digits_In (n : nat) (s p r : string) :
  In (p, r) (rx_digits n s) ->
  s = p +:+ r /\ all_chars is_digit p = true /\ p <> ""
  /\ (String.length p <= n)%nat.
Proof.
  revert s p r. induction n as [|n IH]; intros s p r; simpl.
  - destruct s; intros [].
  - destruct s as [|c s]; [intros [] |].
    destruct (is_digit c) eqn:Hc; [| intros []].
    rewrite in_app_iff, in_map_iff. intros [((p', r') & Heq & Hin) | [Heq | []]].
    + simpl in Heq. injection Heq as <- <-.
      destruct (IH _ _ _ Hin) as (-> & Hd & _ & Hl).
      simpl. rewrite Hc, Hd. repeat split; [discriminate | lia].
    + injection Heq as <- <-. simpl. rewrite Hc.
      repeat split; [discriminate | lia].
Qed.

Lemma rx_digits_head (n : nat) (a r : string) :
  all_chars is_digit a = true -> a <> "" -> (String.length a <= n)%nat ->
  stops is_digit r = true ->
  exists tl, rx_digits n (a +:+ r) = (a, r) :: tl.
Proof.
  revert n. induction a as [|c a IH]; intros n Ha Hne Hl Hr; [congruence |].
  destruct n as [|n]; simpl in Hl; [lia |].
  simpl in Ha. apply andb_true_iff in Ha as [Hc Ha].
  simpl. rewrite Hc.
  destruct a as [|c' a].
  - simpl. rewrite (rx_digits_nil _ _ Hr). simpl. eauto.
  - destruct (IH n Ha ltac:(discriminate) ltac:(simpl in *; lia) Hr) as [tl ->].
    simpl. eauto.
Qed.

Lemma rx_patch_caps (r : string) (mc : option string) :
  rx_patch r = Some mc -> forall c, mc = Some c -> digit_run c.
Proof.
  unfold rx_patch. intros H c ->.
  destruct (strip_char "." r) as [x|].
  - destruct (first_some _ _) eqn:Hf.
    + injection H as ->. apply first_some_In in Hf as ([p q] & Hin & Hp).
      simpl in Hp. destruct (rx_end q); [| discriminate]. injection Hp as ->.
      apply rx_digits_In in Hin as (_ & ? & ? & ?). now repeat split.
    + destruct (rx_end _); discriminate.
  - destruct (rx_end _); discriminate.
Qed.

Lemma rx_minor_caps (r : string) (mb mc : option string) :
  rx_minor r = Some (mb, mc) ->
  (forall b, mb = Some b -> digit_run b) /\ (forall c, mc = Some c -> digit_run c).
Proof.
  unfold rx_minor. intros H.
  assert (forall p, rx_patch r = Some p -> Some (@None string, p) = Some (mb, mc) ->
          (forall b, mb = Some b -> digit_run b)
          /\ (forall c, mc = Some c -> digit_run c)) as Hskip.
  { intros p Hp [= <- <-]. split; [discriminate | eauto using rx_patch_caps]. }
  destruct (strip_char "." r) as [x|].
  - destruct (first_some _ _) as [[mb' mc']|] eqn:Hf.
    + injection H as -> ->. apply first_some_In in Hf as ([p q] & Hin & Hp).
      simpl in Hp. destruct (rx_patch q) as [pc|] eqn:Hq; [| discriminate].
      injection Hp as <- <-.
      apply rx_digits_In in Hin as (_ & ? & ? & ?).
      split; [intros b [= <-]; now repeat split | eauto using rx_patch_caps].
    + destruct (rx_patch r) eqn:Hp; [eauto | discriminate].
  - destruct (rx_patch r) eqn:Hp; [eauto | discriminate].
Qed.

Lemma rx_from_caps (s a : string) (mb mc : option string) :
  rx_from s = Some (a, mb, mc) ->
  digit_run a /\ (forall b, mb = Some b -> digit_run b)
  /\ (forall c, mc = Some c -> digit_run c).
Proof.
  unfold rx_from. intros ([p q] & Hin & Hp)%first_some_In. simpl in Hp.
  destruct (rx_minor q) as [[m' p']|] eqn:Hq; [| discriminate].
  injection Hp as <- <- <-.
  apply rx_digits_In in Hin as (_ & ? & ? & ?).
  apply rx_minor_caps in Hq. split; [now repeat split | exact Hq].
Qed.

Lemma coerce_match_caps (s a : string) (mb mc : option string) :
  coerce_match s = Some (a, mb, mc) ->
  digit_run a /\ (forall b, mb = Some b -> digit_run b)
  /\ (forall c, mc = Some c -> digit_run c).
Proof.
  unfold coerce_match. destruct (rx_from s) as [r|] eqn:Hs.
  - intros [= ->]. eauto using rx_from_caps.
  - clear Hs. induction s as [|x s IH]; simpl; [discriminate |].
    destruct (is_digit x); [exact IH |].
    destruct (rx_from s) as [r|] eqn:Hs; [| exact IH].
    intros [= ->]. eauto using rx_from_caps.
Qed.

Lemma rx_patch_dot (c : string) :
  digit_run c -> rx_patch (String "." c) = Some (Some c).
Proof.
  intros (Hc & Hnc & Hlc). unfold rx_patch. simpl strip_char.
  destruct (rx_digits_head _ c "" Hc Hnc Hlc eq_refl) as [tl Hd].
  rewrite append_nil_r in Hd. rewrite Hd. reflexivity.
Qed.

Lemma rx_minor_dot (b c : string) :
  digit_run b -> digit_run c ->
  rx_minor (String "." (b +:+ String "." c)) = Some (Some b, Some c).
Proof.
  intros (Hb & Hnb & Hlb) Hc. unfold rx_minor. simpl strip_char.
  destruct (rx_digits_head _ b (String "." c) Hb Hnb Hlb eq_refl) as [tl ->].
  simpl. now rewrite rx_patch_dot.
Qed.

(** On a dotted triple of digit runs the pattern captures the three runs. *)
Lemma coerce_match_dotted (a b c : string) :
  digit_run a -> digit_run b -> digit_run c ->
  coerce_match (a +:+ "." +:+ b +:+ "." +:+ c) = Some (a, Some b, Some c).
Proof.
  intros (Ha & Hna & Hla) Hb Hc.
  change (a +:+ "." +:+ b +:+ "." +:+ c)
    with (a +:+ String "." (b +:+ String "." c)).
  unfold coerce_match, rx_from.
  destruct (rx_digits_head _ a (String "." (b +:+ String "." c)) Ha Hna Hla eq_refl)
    as [tl ->].
  simpl. now rewrite rx_minor_dot.
Qed.

Lemma digit_not_space (c : ascii) :
  is_digit c = true -> negb (is_space c) = true.
Proof.
  destruct c as [[|] [|] [|] [|] [|] [|] [|] [|]]; vm_compute; congruence.
Qed.

Lemma digit_not_v (c : ascii) : is_digit c = true -> Ascii.eqb c "v" = false.
Proof.
  destruct c as [[|] [|] [|] [|] [|] [|] [|] [|]]; vm_compute; congruence.
Qed.

Lemma span_all p (s : string) : all_chars p s = true -> span p s = (s, "").
Proof.
  intros H. rewrite <- (append_nil_r s) at 1. now apply span_app.
Qed.

(** The strict parser on a dotted triple of digit runs. *)
Lemma parse_dotted (a b c : string) :
  digit_run a -> digit_run b -> digit_run c ->
  parse (a +:+ "." +:+ b +:+ "." +:+ c) =
  if numeric_identifier a && numeric_identifier b && numeric_identifier c
     && ((num a <=? MAX_SAFE_INTEGER)%N && (num b <=? MAX_SAFE_INTEGER)%N
         && (num c <=? MAX_SAFE_INTEGER)%N)
  then Some (mkSemVer (num a) (num b) (num c) [] []) else None.
Proof.
  intros (Ha & Hna & Hla) (Hb & Hnb & Hlb) (Hc & Hnc & Hlc).
  change (a +:+ "." +:+ b +:+ "." +:+ c)
    with (a +:+ String "." (b +:+ String "." c)).
  unfold parse.
  assert ((MAX_LENGTH <? String.length (a +:+ String "." (b +:+ String "." c)))%nat
          = false) as ->.
  { apply Nat.ltb_ge. rewrite length_append. simpl. rewrite length_append. simpl.
    unfold MAX_SAFE_COMPONENT_LENGTH, MAX_LENGTH in *. lia. }
  rewrite trim_id.
  2:{ rewrite all_chars_app. simpl. rewrite all_chars_app. simpl.
      rewrite !(all_chars_impl is_digit _ _ digit_not_space) by assumption.
      reflexivity. }
  assert (strip_char "v" (a +:+ String "." (b +:+ String "." c)) = None) as ->.
  { destruct a as [|x a]; [congruence |]. simpl in *.
    apply andb_true_iff in Ha as [Hx _]. now rewrite (digit_not_v _ Hx). }
  simpl default. unfold parse_main.
  rewrite (span_app is_digit a (String "." (b +:+ String "." c)) Ha eq_refl).
  simpl strip_char. cbv beta iota.
  rewrite (span_app is_digit b (String "." c) Hb eq_refl).
  simpl strip_char. cbv beta iota.
  rewrite (span_all is_digit c Hc).
  destruct (numeric_identifier a && numeric_identifier b && numeric_identifier c);
    simpl; [| reflexivity].
  now destruct (_ && _).
Qed.

Lemma uint_of_digits (s : string) :
  all_chars is_digit s = true -> exists d, NilEmpty.uint_of_string s = Some d.
Proof.
  induction s as [|x s IH]; simpl; [eauto |].
  intros [Hx Hs]%andb_true_iff. destruct (IH Hs) as [d ->].
  revert Hx. destruct x as [[|] [|] [|] [|] [|] [|] [|] [|]];
    vm_compute; intros; try congruence; eauto.
Qed.

(** Printing the value of a numeric identifier gives the identifier back:
    [String(+s) === s]. *)
Lemma show_num (s : string) : numeric_identifier s = true -> show (num s) = s.
Proof.
  unfold numeric_identifier, show, num. destruct s as [|x s]; [discriminate |].
  intros [Hd Hz]%andb_true_iff.
  destruct (uint_of_digits _ Hd) as [d Hu]. rewrite Hu.
  rewrite DecimalN.Unsigned.to_of.
  assert (Decimal.unorm d = d) as ->; [| now apply NilEmpty.sus].
  simpl in Hu. destruct (NilEmpty.uint_of_string s) as [d'|] eqn:Hs;
    [| discriminate].
  apply orb_true_iff in Hz as [Hz | Hz].
  - apply uint_of_char_spec in Hu.
    destruct Hu as [[-> ->] | Hu]; [discriminate |].
    repeat (destruct Hu as [[-> ->] | Hu]; [reflexivity |]).
    destruct Hu as [-> ->]. reflexivity.
  - apply String.eqb_eq in Hz as ->. simpl in Hs. injection Hs as <-.
    apply uint_of_char_spec in Hu.
    repeat (destruct Hu as [[-> ->] | Hu]; [reflexivity |]).
    destruct Hu as [-> ->]. reflexivity.
Qed.

End SemverFacts.

(** ** Normalisation *)

Section Normalize.
Import Semver SemverFacts.

Lemma version_dotted (a b c : string) :
  numeric_identifier a = true -> numeric_identifier b = true ->
  numeric_identifier c = true ->
  version (mkSemVer (num a) (num b) (num c) [] []) = a +:+ "." +:+ b +:+ "." +:+ c.
Proof.
  intros Ha Hb Hc. unfold version. simpl.
  rewrite !show_num by assumption. now rewrite StringFacts.append_nil_r.
Qed.

(** What [normalizeVersion] returns: a dotted triple of numeric
    identifiers that the strict parser accepts. *)
Lemma normalizeVersion_shape (v s : string) :
  normalizeVersion (Some v) = Some s ->
  exists a b c,
    s = a +:+ "." +:+ b +:+ "." +:+ c
    /\ digit_run a /\ digit_run b /\ digit_run c
    /\ parse s = Some (mkSemVer (num a) (num b) (num c) [] [])
    /\ version (mkSemVer (num a) (num b) (num c) [] []) = s.
Proof.
  unfold normalizeVersion. destruct (negb (truthy (Some v))); [discriminate |].
  unfold coerce. destruct (coerce_match v) as [[[a mb] mc]|] eqn:Hm;
    [| discriminate].
  apply coerce_match_caps in Hm as (Ha & Hb & Hc).
  assert (digit_run (default "0" mb)) as Hb'.
  { destruct mb; simpl; [auto | apply digit_run_zero]. }
  assert (digit_run (default "0" mc)) as Hc'.
  { destruct mc; simpl; [auto | apply digit_run_zero]. }
  set (b := default "0" mb) in *. set (c := default "0" mc) in *.
  pose proof (parse_dotted a b c Ha Hb' Hc') as Hp. rewrite Hp.
  destruct (numeric_identifier a && numeric_identifier b && numeric_identifier c)
    eqn:Hn; [| discriminate].
  apply andb_true_iff in Hn as [[Hna Hnb]%andb_true_iff Hnc].
  simpl andb in *. destruct (_ && _); [| discriminate].
  simpl option_map. rewrite (version_dotted a b c Hna Hnb Hnc). intros [= <-].
  exists a, b, c. rewrite (version_dotted a b c Hna Hnb Hnc). auto 10.
Qed.

(** Every successful normalisation is a fixed point of normalisation. *)
Lemma normalizeVersion_fixpoint (v s : string) :
  normalizeVersion (Some v) = Some s -> normalizeVersion (Some s) = Some s.
Proof.
  intros (a & b & c & -> & Ha & Hb & Hc & Hp & Hv)%normalizeVersion_shape.
  unfold normalizeVersion.
  assert (truthy (Some (a +:+ "." +:+ b +:+ "." +:+ c)) = true) as ->.
  { destruct Ha as (_ & Hne & _). destruct a; [congruence | reflexivity]. }
  simpl negb. cbv iota. unfold coerce.
  rewrite (coerce_match_dotted a b c Ha Hb Hc). simpl default.
  rewrite Hp. simpl. now rewrite Hv.
Qed.

Lemma component_spec (s : string) :
  component s = true ->
  digit_run s /\ numeric_identifier s = true /\ (num s <=? MAX_SAFE_INTEGER)%N = true.
Proof.
  unfold component. intros [[Hn Hl]%andb_true_iff Hm]%andb_true_iff.
  split; [| auto]. unfold numeric_identifier in Hn.
  destruct s as [|x s]; [discriminate |].
  apply andb_true_iff in Hn as [Hd _].
  repeat split; [exact Hd | discriminate | now apply Nat.leb_le].
Qed.

Lemma rx_patch_suffixed (c suffix : string) :
  digit_run c -> rx_end suffix = true ->
  rx_patch (String "." (c +:+ suffix)) = Some (Some c).
Proof.
  intros (Hc & Hnc & Hlc) Hend. unfold rx_patch. simpl strip_char.
  rewrite rx_end_stops in Hend.
  destruct (rx_digits_head _ c suffix Hc Hnc Hlc Hend) as [tl ->].
  cbn [first_some fst snd]. rewrite rx_end_stops, Hend. reflexivity.
Qed.

Lemma rx_minor_suffixed (b c suffix : string) :
  digit_run b -> digit_run c -> rx_end suffix = true ->
  rx_minor (String "." (b +:+ String "." (c +:+ suffix))) = Some (Some b, Some c).
Proof.
  intros (Hb & Hnb & Hlb) Hc Hend. unfold rx_minor. simpl strip_char.
  destruct (rx_digits_head _ b (String "." (c +:+ suffix)) Hb Hnb Hlb eq_refl)
    as [tl ->].
  cbn [first_some fst snd]. now rewrite rx_patch_suffixed.
Qed.

Lemma coerce_match_suffixed (a b c suffix : string) :
  digit_run a -> digit_run b -> digit_run c -> rx_end suffix = true ->
  coerce_match (a +:+ String "." (b +:+ String "." (c +:+ suffix)))
  = Some (a, Some b, Some c).
Proof.
  intros (Ha & Hna & Hla) Hb Hc Hend. unfold coerce_match, rx_from.
  destruct (rx_digits_head _ a (String "." (b +:+ String "." (c +:+ suffix)))
              Ha Hna Hla eq_refl) as [tl ->].
  cbn [first_some fst snd]. now rewrite rx_minor_suffixed.
Qed.

(** A dotted triple keeps its three components and loses whatever
    follows them, provided that does not start with a digit. *)
Lemma normalizeVersion_suffixed (a b c suffix : string) :
  component a = true -> component b = true -> component c = true ->
  rx_end suffix = true ->
  normalizeVersion (Some (a +:+ String "." (b +:+ String "." (c +:+ suffix))))
  = Some (a +:+ "." +:+ b +:+ "." +:+ c).
Proof.
  intros (Ha & Hna & Hma)%component_spec (Hb & Hnb & Hmb)%component_spec
         (Hc & Hnc & Hmc)%component_spec Hend.
  unfold normalizeVersion.
  assert (truthy (Some (a +:+ String "." (b +:+ String "." (c +:+ suffix)))) = true)
    as ->.
  { destruct Ha as (_ & Hne & _). destruct a; [congruence | reflexivity]. }
  cbn [negb]. unfold coerce.
  rewrite (coerce_match_suffixed a b c suffix Ha Hb Hc Hend).
  change (default "0" (Some b)) with b. change (default "0" (Some c)) with c.
  pose proof (parse_dotted a b c Ha Hb Hc) as Hp.
  rewrite Hna, Hnb, Hnc, Hma, Hmb, Hmc in Hp. cbn [andb] in Hp.
  etransitivity; [exact (f_equal (option_map version) Hp) |].
  cbn [option_map]. now rewrite (version_dotted a b c Hna Hnb Hnc).
Qed.

Lemma normalizeVersion_components (v s : string) :
  normalizeVersion (Some v) = Some s ->
  exists a b c,
    s = a +:+ "." +:+ b +:+ "." +:+ c
    /\ component a = true /\ component b = true /\ component c = true.
Proof.
  intros (a & b & c & -> & Ha & Hb & Hc & Hp & _)%normalizeVersion_shape.
  exists a, b, c. split; [reflexivity |].
  rewrite (parse_dotted a b c Ha Hb Hc) in Hp.
  destruct (numeric_identifier a && numeric_identifier b && numeric_identifier c
            && ((num a <=? MAX_SAFE_INTEGER)%N && (num b <=? MAX_SAFE_INTEGER)%N
                && (num c <=? MAX_SAFE_INTEGER)%N)) eqn:Hcond; [| discriminate].
  apply andb_true_iff in Hcond as [[[Hna Hnb]%andb_true_iff Hnc]%andb_true_iff
                                   [[Hma Hmb]%andb_true_iff Hmc]%andb_true_iff].
  destruct Ha as (_ & _ & Hla), Hb as (_ & _ & Hlb), Hc as (_ & _ & Hlc).
  apply Nat.leb_le in Hla, Hlb, Hlc.
  unfold component. now rewrite Hna, Hnb, Hnc, Hla, Hlb, Hlc, Hma, Hmb, Hmc.
Qed.

End Normalize.

(** ** Comparators as orders *)

Module OrderFacts.
Export Orders.

Section Generic.
Context {A : Type} (cmp : A -> A -> comparison) (O : Order cmp).

Lemma ord_lt_eq x y z : cmp x y = Lt -> cmp y z = Eq -> cmp x z = Lt.
Proof.
  intros Hxy Hyz.
  assert (cmp z y = Eq) as Hzy by (rewrite (ord_sym _ O y z), Hyz; reflexivity).
  rewrite (ord_sym _ O z x), (ord_eq _ O z y x Hzy), (ord_sym _ O x y), Hxy.
  reflexivity.
Qed.

Lemma le_refl x : le cmp x x.
Proof. unfold le. now rewrite (ord_refl _ O). Qed.

Lemma le_trans x y z : le cmp x y -> le cmp y z -> le cmp x z.
Proof.
  unfold le. intros Hxy Hyz.
  destruct (cmp x y) eqn:Exy; [| | congruence].
  - now rewrite (ord_eq _ O x y z Exy).
  - destruct (cmp y z) eqn:Eyz; [| | congruence].
    + now rewrite (ord_lt_eq x y z Exy Eyz).
    + now rewrite (ord_trans _ O x y z Exy Eyz).
Qed.

Lemma le_total x y : le cmp x y \/ le cmp y x.
Proof.
  unfold le. rewrite (ord_sym _ O x y). destruct (cmp x y); simpl; auto; left; discriminate.
Qed.

Lemma gt_le x y : cmp x y = Gt -> le cmp y x.
Proof. unfold le. intros H. rewrite (ord_sym _ O x y), H. discriminate. Qed.

End Generic.

Lemma Order_pullback {A B} (f : A -> B) (cmp : B -> B -> comparison) :
  Order cmp -> Order (fun x y => cmp (f x) (f y)).
Proof.
  intros O. split; intros.
  - apply (ord_refl _ O).
  - apply (ord_sym _ O).
  - eapply (ord_trans _ O); eauto.
  - now apply (ord_eq _ O).
Qed.

Lemma Order_flip {A} (cmp : A -> A -> comparison) :
  Order cmp -> Order (fun x y => cmp y x).
Proof.
  intros O. split; intros.
  - apply (ord_refl _ O).
  - apply (ord_sym _ O).
  - eapply (ord_trans _ O); eauto.
  - rewrite (ord_sym _ O y z), (ord_sym _ O x z). f_equal.
    apply (ord_eq _ O). rewrite (ord_sym _ O). now rewrite H.
Qed.

Lemma Order_lex {A} (c1 c2 : A -> A -> comparison) :
  Order c1 -> Order c2 -> Order (fun x y => Semver.lex (c1 x y) (c2 x y)).
Proof.
  intros O1 O2. split.
  - intros x. now rewrite (ord_refl _ O1), (ord_refl _ O2).
  - intros x y. rewrite (ord_sym _ O1 x y), (ord_sym _ O2 x y).
    now destruct (c1 x y), (c2 x y).
  - intros x y z. unfold Semver.lex.
    destruct (c1 x y) eqn:E1; [| | discriminate].
    + rewrite (ord_eq _ O1 x y z E1). destruct (c1 y z); [| reflexivity | discriminate].
      apply (ord_trans _ O2).
    + intros _. destruct (c1 y z) eqn:E2; [| | discriminate]; intros _.
      * now rewrite (ord_lt_eq _ O1 x y z E1 E2).
      * now rewrite (ord_trans _ O1 x y z E1 E2).
  - intros x y z. unfold Semver.lex.
    destruct (c1 x y) eqn:E1; try discriminate. intros E2.
    now rewrite (ord_eq _ O1 x y z E1), (ord_eq _ O2 x y z E2).
Qed.

Lemma Order_N : Order N.compare.
Proof.
  split.
  - apply N.compare_refl.
  - intros x y. apply N.compare_antisym.
  - intros x y z. rewrite !N.compare_lt_iff. apply N.lt_trans.
  - intros x y z ->%N.compare_eq. reflexivity.
Qed.

Lemma string_compare_refl (s : string) : String.compare s s = Eq.
Proof.
  induction s as [|c s IH]; simpl; [reflexivity |].
  unfold Ascii.compare. now rewrite N.compare_refl.
Qed.

Lemma Order_string : Order String.compare.
Proof.
  split.
  - apply string_compare_refl.
  - intros x y. apply String.compare_antisym.
  - intros x y z Hxy Hyz.
    assert (String.le x z) as Hle.
    { transitivity y; unfold String.le, String.leb; [now rewrite Hxy | now rewrite Hyz]. }
    unfold String.le, String.leb in Hle.
    destruct (String.compare x z) eqn:E; [| reflexivity | contradiction].
    apply String.compare_eq_iff in E as ->.
    rewrite String.compare_antisym, Hyz in Hxy. discriminate.
  - intros x y z ->%String.compare_eq_iff. reflexivity.
Qed.

Lemma Order_sum {A B} (ca : A -> A -> comparison) (cb : B -> B -> comparison) :
  Order ca -> Order cb -> Order (sum_compare ca cb).
Proof.
  intros Oa Ob. split.
  - intros [a|b]; simpl; [apply (ord_refl _ Oa) | apply (ord_refl _ Ob)].
  - intros [a|b] [a'|b']; simpl; try reflexivity;
      [apply (ord_sym _ Oa) | apply (ord_sym _ Ob)].
  - intros [a|b] [a'|b'] [a''|b'']; simpl; try congruence;
      [apply (ord_trans _ Oa) | apply (ord_trans _ Ob)].
  - intros [a|b] [a'|b'] [a''|b'']; simpl; try congruence;
      [apply (ord_eq _ Oa) | apply (ord_eq _ Ob)].
Qed.

(** Lexicographic order on lists, a proper prefix coming first. *)
Lemma Order_list {A} (c : A -> A -> comparison) (loop : list A -> list A -> comparison) :
  Order c ->
  (forall a b, loop a b =
     match a, b with
     | [], [] => Eq
     | _ :: _, [] => Gt
     | [], _ :: _ => Lt
     | x :: a', y :: b' => match c x y with Eq => loop a' b' | r => r end
     end) ->
  Order loop.
Proof.
  intros O Hloop. split.
  - intros a. induction a as [|x a IH]; rewrite Hloop; [reflexivity |].
    now rewrite (ord_refl _ O).
  - intros a. induction a as [|x a IH]; intros [|y b].
    + now rewrite (Hloop [] []).
    + now rewrite (Hloop (y :: b) []), (Hloop [] (y :: b)).
    + now rewrite (Hloop (x :: a) []), (Hloop [] (x :: a)).
    + rewrite (Hloop (y :: b) (x :: a)), (Hloop (x :: a) (y :: b)).
      rewrite (ord_sym _ O x y). destruct (c x y); simpl; auto.
  - intros a. induction a as [|x a IH]; intros [|y b] [|z d];
      rewrite ?(Hloop [] []), ?(Hloop [] (_ :: _)), ?(Hloop (_ :: _) []);
      try congruence.
    rewrite (Hloop (x :: a) (y :: b)), (Hloop (y :: b) (z :: d)),
      (Hloop (x :: a) (z :: d)).
    destruct (c x y) eqn:E1; [| | discriminate].
    + rewrite (ord_eq _ O x y z E1). destruct (c y z); [| reflexivity | discriminate].
      apply IH.
    + intros _. destruct (c y z) eqn:E2; [| | discriminate]; intros _.
      * now rewrite (ord_lt_eq _ O x y z E1 E2).
      * now rewrite (ord_trans _ O x y z E1 E2).
  - intros a. induction a as [|x a IH]; intros [|y b] [|z d];
      rewrite ?(Hloop [] []), ?(Hloop [] (_ :: _)), ?(Hloop (_ :: _) []);
      try congruence.
    rewrite (Hloop (x :: a) (y :: b)), (Hloop (y :: b) (z :: d)),
      (Hloop (x :: a) (z :: d)).
    destruct (c x y) eqn:E1; try discriminate. intros E2.
    rewrite (ord_eq _ O x y z E1). destruct (c y z); auto.
Qed.

End OrderFacts.

(** ** Version precedence is a total preorder *)

Module PrecedenceFacts.
Export Precedence.
Import Semver OrderFacts.

Lemma compareIdentifiers_key (a b : PreId) :
  compareIdentifiers a b = sum_compare N.compare String.compare (pre_key a) (pre_key b).
Proof.
  unfold compareIdentifiers, pre_key.
  destruct (pre_numeric a), (pre_numeric b); reflexivity.
Qed.

Lemma Order_compareIdentifiers : Order compareIdentifiers.
Proof.
  pose proof (Order_pullback pre_key _ (Order_sum _ _ Order_N Order_string)) as O.
  split; intros *; rewrite !compareIdentifiers_key; apply O.
Qed.

Lemma Order_comparePreLoop : Order comparePreLoop.
Proof.
  apply (Order_list compareIdentifiers); [apply Order_compareIdentifiers |].
  intros [|x a] [|y b]; reflexivity.
Qed.

Lemma Order_comparePreIds : Order comparePreIds.
Proof.
  pose proof Order_comparePreLoop as O. split.
  - intros [|x a]; [reflexivity | apply (ord_refl _ O)].
  - intros [|x a] [|y b]; try reflexivity. apply (ord_sym _ O).
  - intros [|x a] [|y b] [|z d]; unfold comparePreIds; try congruence.
    apply (ord_trans _ O).
  - intros [|x a] [|y b] [|z d]; unfold comparePreIds; try congruence.
    apply (ord_eq _ O).
Qed.

Lemma Order_compareSemVer : Order compareSemVer.
Proof.
  unfold compareSemVer, compareMain.
  apply (Order_lex (fun x y => lex (N.compare (major x) (major y))
                     (lex (N.compare (minor x) (minor y))
                          (N.compare (patch x) (patch y))))
                   comparePre).
  - apply (Order_lex (fun x y => N.compare (major x) (major y))
                     (fun x y => lex (N.compare (minor x) (minor y))
                                     (N.compare (patch x) (patch y)))).
    + apply (Order_pullback major _ Order_N).
    + apply (Order_lex (fun x y => N.compare (minor x) (minor y))
                       (fun x y => N.compare (patch x) (patch y)));
        [apply (Order_pullback minor _ Order_N) | apply (Order_pullback patch _ Order_N)].
  - exact (Order_pullback prerelease comparePreIds Order_comparePreIds).
Qed.

Lemma Order_precedence : Order precedence.
Proof. apply (Order_pullback key _ Order_compareSemVer). Qed.

Lemma show_nonempty (n : N) : show n <> "".
Proof.
  unfold show. pose proof (DecimalN.Unsigned.to_of (N.to_uint n)) as H.
  rewrite DecimalN.Unsigned.of_to in H.
  pose proof (unorm_nonnil (N.to_uint n)) as Hn. rewrite <- H in Hn.
  destruct (N.to_uint n); [congruence | discriminate..].
Qed.

Lemma version_nonempty (v : SemVer) : version v <> "".
Proof.
  unfold version. pose proof (show_nonempty (major v)) as H.
  destruct (show (major v)); [congruence | discriminate].
Qed.

Lemma valid_truthy (v : string) :
  truthy (valid v) = true <-> exists x, parse v = Some x.
Proof.
  unfold valid. destruct (parse v) as [x|]; simpl.
  - split; [eauto | intros _].
    pose proof (version_nonempty x) as H. destruct (version x); [congruence | reflexivity].
  - split; [discriminate | intros [x [=]]].
Qed.

Lemma compare_valid (a b : string) :
  truthy (valid a) = true -> truthy (valid b) = true ->
  compare a b = Ok (precedence a b).
Proof.
  intros [x Hx]%valid_truthy [y Hy]%valid_truthy.
  unfold compare, precedence, key. now rewrite Hx, Hy.
Qed.

End PrecedenceFacts.

(** ** Sorting *)

Module SortFacts.
Import JsArray OrderFacts.

Section Sorting.
Context {A : Type} (cmp : A -> A -> result comparison) (c : A -> A -> comparison).
Context (P : A -> Prop).
Hypothesis O : Order c.
Hypothesis cmp_c : forall x y, P x -> P y -> cmp x y = Ok (c x y).

Lemma insert_by_sorted (x : A) (l : list A) :
  P x -> Forall P l -> StronglySorted (le c) l ->
  exists l', insert_by cmp x l = Ok l'
             /\ Permutation (x :: l) l' /\ StronglySorted (le c) l'.
Proof.
  intros Px Pl Hs. induction l as [|y l IH]; simpl.
  - exists [x]. repeat split; [reflexivity | repeat constructor].
  - inversion Pl as [|? ? Py Pl']; subst.
    inversion Hs as [|? ? Hs' Hy]; subst.
    rewrite (cmp_c x y Px Py). simpl.
    destruct (c x y) eqn:E.
    + exists (x :: y :: l). repeat split; [reflexivity |].
      constructor; [assumption |]. constructor; [unfold le; congruence |].
      eapply Forall_impl; [exact Hy |]. intros z Hz.
      apply (le_trans c O x y z); [unfold le; congruence | exact Hz].
    + exists (x :: y :: l). repeat split; [reflexivity |].
      constructor; [assumption |]. constructor; [unfold le; congruence |].
      eapply Forall_impl; [exact Hy |]. intros z Hz.
      apply (le_trans c O x y z); [unfold le; congruence | exact Hz].
    + destruct (IH Pl' Hs') as (l' & -> & Hp & Hs''). simpl.
      exists (y :: l'). repeat split.
      * rewrite perm_swap. now constructor.
      * constructor; [assumption |].
        rewrite <- Hp. constructor; [now apply (gt_le c O) | assumption].
Qed.

Lemma sort_by_sorted (l : list A) :
  Forall P l ->
  exists l', sort_by cmp l = Ok l'
             /\ Permutation l l' /\ StronglySorted (le c) l'.
Proof.
  induction l as [|x l IH]; intros Pl; simpl.
  - exists []. repeat split; constructor.
  - inversion Pl as [|? ? Px Pl']; subst.
    destruct (IH Pl') as (l1 & -> & Hp & Hs). simpl.
    assert (Forall P l1) as Pl1 by (now rewrite <- Hp).
    destruct (insert_by_sorted x l1 Px Pl1 Hs) as (l2 & -> & Hp2 & Hs2).
    exists l2. repeat split; [| assumption].
    rewrite <- Hp2. now constructor.
Qed.

End Sorting.

Lemma sorted_last_max {A} (R : A -> A -> Prop) (l : list A) (m : A) :
  (forall x, R x x) -> StronglySorted R l -> pop l = Some m ->
  In m l /\ forall w, In w l -> R w m.
Proof.
  intros Hrefl Hs. induction Hs as [|x l Hs IH Hx]; [discriminate |].
  destruct l as [|y l].
  - intros [= <-]. split; [now left |]. intros w [<- | []]. apply Hrefl.
  - intros Hm. change (pop (y :: l) = Some m) in Hm.
    destruct (IH Hm) as [Hin Hmax]. split; [now right |].
    intros w [<- | Hw]; [| auto].
    rewrite List.Forall_forall in Hx. apply Hx. exact Hin.
Qed.

Lemma pop_None {A} (l : list A) : pop l = None -> l = [].
Proof.
  induction l as [|x l IH]; [reflexivity |].
  destruct l as [|y l]; [discriminate |]. intros H.
  change (pop (y :: l) = None) in H. discriminate (IH H).
Qed.

End SortFacts.

(** ** Directory scans *)

Module ScanFacts.
Import StringFacts OrderFacts PrecedenceFacts SortFacts.

Lemma prefix_app (p v : string) : String.prefix p (p +:+ v) = true.
Proof.
  induction p as [|c p IH]; simpl; [now destruct v |].
  destruct (ascii_dec c c); [exact IH | congruence].
Qed.

Lemma prefix_split (p s : string) :
  String.prefix p s = true -> s = p +:+ drop (String.length p) s.
Proof.
  revert s. induction p as [|c p IH]; intros s; [reflexivity |].
  destruct s as [|d s]; simpl; [discriminate |].
  destruct (ascii_dec c d) as [-> |]; [| discriminate].
  intros H. f_equal. now apply IH.
Qed.

Lemma drop_app (p v : string) : drop (String.length p) (p +:+ v) = v.
Proof. induction p as [|c p IH]; simpl; [reflexivity | exact IH]. Qed.

Lemma replace_first_prefix (s p : string) :
  String.prefix p s = true -> replace_first_empty s p = drop (String.length p) s.
Proof.
  intros H.
  assert (replace_first_empty s p =
          if String.prefix p s then drop (String.length p) s
          else match s with
               | EmptyString => EmptyString
               | String c s' => String c (replace_first_empty s' p)
               end) as -> by (destruct s; reflexivity).
  now rewrite H.
Qed.

(** The suffixes kept by the scan are the valid versions [v] for which
    the directory holds an entry [<identifier>-v]. *)
Lemma candidateVersions_spec (entries : list string) (id v : string) :
  In v (candidateVersions entries id) <->
  In (folderPrefix id +:+ v) entries /\ truthy (Semver.valid v) = true.
Proof.
  unfold candidateVersions. rewrite List.filter_In, List.in_map_iff. split.
  - intros [(folder & <- & [Hin Hsw]%List.filter_In) Hv]. split; [| exact Hv].
    unfold startsWith in Hsw. rewrite (replace_first_prefix _ _ Hsw).
    now rewrite <- (prefix_split _ _ Hsw).
  - intros [Hin Hv]. split; [| exact Hv].
    exists (folderPrefix id +:+ v). split.
    + rewrite replace_first_prefix by apply prefix_app. apply drop_app.
    + apply List.filter_In. split; [exact Hin | apply prefix_app].
Qed.

Lemma candidateVersions_valid (entries : list string) (id : string) :
  Forall (fun v => truthy (Semver.valid v) = true) (candidateVersions entries id).
Proof.
  apply List.Forall_forall. intros v Hv.
  now apply candidateVersions_spec in Hv as [_ Hv].
Qed.

(** Sorting the kept suffixes by [rcompare] never throws, and puts a
    greatest version first. *)
Lemma sort_rcompare_head (vs : list string) :
  Forall (fun v => truthy (Semver.valid v) = true) vs ->
  exists l, JsArray.sort_by Semver.rcompare vs = Ok l /\ Permutation vs l
            /\ match l with
               | [] => True
               | h :: _ => forall w, In w vs -> precedence w h <> Gt
               end.
Proof.
  intros Hv.
  destruct (sort_by_sorted Semver.rcompare (fun a b => precedence b a)
              (fun v => truthy (Semver.valid v) = true)
              (Order_flip _ Order_precedence)
              (fun x y Hx Hy => compare_valid y x Hy Hx) vs Hv)
    as (l & Hl & Hp & Hs).
  exists l. repeat split; [exact Hl | exact Hp |].
  destruct l as [|h t]; [exact I |].
  intros w Hw. apply (Permutation_in _ Hp) in Hw as [<- | Hw].
  - rewrite (ord_refl _ Order_precedence). discriminate.
  - inversion Hs as [|? ? _ Hh]; subst.
    rewrite List.Forall_forall in Hh. exact (Hh w Hw).
Qed.

End ScanFacts.


(** ** The effect monad *)

Module SysFacts.

Lemma bindM_ok {A B} (m : M A) (k : A -> M B) (w w' : World) (a : A) :
  m w = (Ok a, w') -> bindM m k w = k a w'.
Proof. intros H. unfold bindM. now rewrite H. Qed.

Lemma bindM_throw {A B} (m : M A) (k : A -> M B) (w w' : World) (msg : string) :
  m w = (Throw msg, w') -> bindM m k w = (Throw msg, w').
Proof. intros H. unfold bindM. now rewrite H. Qed.

Lemma bindM_lift_ok {A B} (a : A) (k : A -> M B) (w : World) :
  bindM (lift (Ok a)) k w = k a w.
Proof. reflexivity. Qed.

Lemma bindM_lift_throw {A B} (msg : string) (k : A -> M B) (w : World) :
  bindM (lift (Throw msg)) k w = (Throw msg, w).
Proof. reflexivity. Qed.

Lemma guard_denied_ok (p : string) (w : World) :
  p ∉ denied w -> guard_denied p w = (Ok tt, w).
Proof. intros H. unfold guard_denied. now rewrite bool_decide_eq_false_2. Qed.

Lemma existsSync_present (p : string) (w : World) (n : Node) :
  fs w !! p = Some n -> existsSync p w = (Ok true, w).
Proof.
  intros H. unfold existsSync. rewrite bool_decide_eq_true_2; [reflexivity |].
  rewrite H. eauto.
Qed.

Lemma existsSync_absent (p : string) (w : World) :
  fs w !! p = None -> existsSync p w = (Ok false, w).
Proof.
  intros H. unfold existsSync. rewrite bool_decide_eq_false_2; [reflexivity |].
  rewrite H. intros [? [=]].
Qed.

Lemma readJson_json (p : string) (w : World) (v : json) :
  fs w !! p = Some (File (JsonText v)) -> readJson p w = (Ok v, w).
Proof. intros H. unfold readJson, bindM, get_world. now rewrite H. Qed.

Lemma writeFileSync_ok (p : string) (d : FileData) (w : World) :
  p ∉ denied w ->
  writeFileSync p d w
  = (Ok tt, mkWorld (<[p := File d]> (fs w)) (denied w) (journal w) (slept w)
                    (spawned w) (requests w) (scans w)).
Proof.
  intros H. unfold writeFileSync.
  rewrite (bindM_ok _ _ w w tt (guard_denied_ok _ _ H)). reflexivity.
Qed.

Lemma writeFileSync_denied (p : string) (d : FileData) (w : World) :
  p ∈ denied w ->
  exists msg, writeFileSync p d w = (Throw msg, w).
Proof.
  intros H. unfold writeFileSync, bindM, guard_denied.
  rewrite bool_decide_eq_true_2 by assumption. eauto.
Qed.

End SysFacts.

(** ** The registry rewrite *)

Module RegistryFacts.
Import Fanout Registry SysFacts.

Lemma keepEntry_record (r : json) :
  isRecord r = true -> keepEntry r = Ok (negb (mentionsAugment r)).
Proof.
  unfold isRecord, keepEntry, mentionsAugment, recordId.
  destruct r as [| | | | |fields]; try discriminate. simpl.
  destruct (lookup "identifier" fields) as [[| | | | |idf]|]; try discriminate;
    [| reflexivity].
  simpl. destruct (lookup "id" idf) as [[| | |s| |]|]; try discriminate;
    [| reflexivity].
  simpl. destruct (String.eqb_spec s "") as [-> |]; reflexivity.
Qed.

Lemma filter_by_records (items : list json) :
  Forall (fun r => isRecord r = true) items ->
  JsArray.filter_by keepEntry items
  = Ok (List.filter (fun r => negb (mentionsAugment r)) items).
Proof.
  induction 1 as [|r items Hr _ IH]; [reflexivity |].
  simpl. rewrite (keepEntry_record r Hr), IH. reflexivity.
Qed.

Lemma prefix_refl (s : string) : String.prefix s s = true.
Proof.
  induction s as [|c s IH]; simpl; [reflexivity |].
  destruct (ascii_dec c c); [exact IH | congruence].
Qed.

Lemma includes_refl (s : string) : includes s s = true.
Proof.
  assert (includes s s = String.prefix s s
                         || match s with
                            | EmptyString => false
                            | String _ s' => includes s' s
                            end) as -> by (destruct s; reflexivity).
  now rewrite prefix_refl.
Qed.

(** After the filter no record of the package itself is left. *)
Lemma filter_drops_augment (items : list json) :
  List.filter isAugment (List.filter (fun r => negb (mentionsAugment r)) items) = [].
Proof.
  induction items as [|r items IH]; [reflexivity |]. simpl.
  destruct (mentionsAugment r) eqn:Hm; simpl; [exact IH |].
  assert (isAugment r = false) as ->; [| exact IH].
  unfold isAugment, mentionsAugment in *. destruct (recordId r) as [s|]; [| reflexivity].
  destruct (String.eqb_spec s augmentId) as [-> |]; [| reflexivity].
  now rewrite includes_refl in Hm.
Qed.

Lemma entryVersion_suffix (v : string) :
  v <> "" -> all_chars (fun c => negb (is_line_terminator c)) v = true ->
  entryVersion (augmentDirPrefix ++ v) = v.
Proof.
  intros Hne Hv. unfold entryVersion.
  assert (matchVersion (augmentDirPrefix ++ v) = Some v) as ->; [| reflexivity].
  assert (forall s, matchVersion s =
            let rest := drop (String.length augmentDirPrefix) s in
            if String.prefix augmentDirPrefix s && negb (String.eqb rest "")
               && all_chars (fun c => negb (is_line_terminator c)) rest
            then Some rest
            else match s with
                 | EmptyString => None
                 | String _ s' => matchVersion s'
                 end) as -> by (intros []; reflexivity).
  cbv zeta. rewrite ScanFacts.prefix_app, ScanFacts.drop_app, Hv.
  destruct (String.eqb_spec v ""); [congruence | reflexivity].
Qed.

(** The rewrite of an existing registry that holds an array of records. *)
Lemma updateProfileExtensionsJson_rewrite (env : Env) (profile : Profile)
  (dir : string) (w : World) (items : list json) :
  fs w !! extensionsJsonPath profile = Some (File (JsonText (JArr items))) ->
  extensionsJsonPath profile ∉ denied w ->
  Forall (fun r => isRecord r = true) items ->
  updateProfileExtensionsJson env profile dir w
  = (Ok tt,
     mkWorld (<[extensionsJsonPath profile :=
                  File (JsonText (JArr (List.filter (fun r => negb (mentionsAugment r)) items
                                        ++ [newExtensionEntry env dir])))]> (fs w))
             (denied w) (journal w) (slept w) (spawned w) (requests w) (scans w)).
Proof.
  intros Hfile Hden Hrec. unfold updateProfileExtensionsJson, try_catch.
  rewrite (bindM_ok _ _ w w true (existsSync_present _ _ _ Hfile)).
  change (negb true) with false. cbv iota.
  rewrite (bindM_ok _ _ w w (JArr items) (readJson_json _ _ _ Hfile)).
  unfold rewriteRegistry, filterEntries. rewrite (filter_by_records items Hrec).
  simpl bind. rewrite bindM_lift_ok.
  now rewrite (writeFileSync_ok _ _ w Hden).
Qed.

End RegistryFacts.

(** ** What the file-system primitives leave untouched *)

Module FrameFacts.
Export Frames.
Import SysFacts.

Lemma silent_ret {A} (a : A) : silent (ret a).
Proof. intros w r w' [= <- <-]. auto. Qed.

Lemma silent_throw {A} (msg : string) : silent (@throw A msg).
Proof. intros w r w' [= <- <-]. auto. Qed.

Lemma silent_lift {A} (x : result A) : silent (lift x).
Proof. intros w r w' [= <- <-]. auto. Qed.

Lemma silent_get_world : silent get_world.
Proof. intros w r w' [= <- <-]. auto. Qed.

Lemma silent_set_fs (f : gmap string Node) : silent (set_fs f).
Proof. intros w r w' [= <- <-]. auto. Qed.

Lemma silent_existsSync (p : string) : silent (existsSync p).
Proof. intros w r w' [= <- <-]. auto. Qed.

Lemma silent_guard_denied (p : string) : silent (guard_denied p).
Proof.
  intros w r w'. unfold guard_denied.
  destruct (bool_decide _); intros [= <- <-]; auto.
Qed.

Lemma silent_bind {A B} (m : M A) (k : A -> M B) :
  silent m -> (forall a, silent (k a)) -> silent (bindM m k).
Proof.
  intros Hm Hk w r w'. unfold bindM.
  destruct (m w) as [[a|msg] w1] eqn:E.
  - intros H. destruct (Hm _ _ _ E) as (H1 & H2 & H3 & H4 & H5).
    destruct (Hk a _ _ _ H) as (K1 & K2 & K3 & K4 & K5).
    repeat split; congruence.
  - intros [= <- <-]. exact (Hm _ _ _ E).
Qed.

Lemma silent_if {A} (b : bool) (m1 m2 : M A) :
  silent m1 -> silent m2 -> silent (if b then m1 else m2).
Proof. now destruct b. Qed.

Lemma silent_writeFileSync (p : string) (d : FileData) : silent (writeFileSync p d).
Proof.
  apply silent_bind; [apply silent_guard_denied | intros _].
  apply silent_bind; [apply silent_get_world | intros w]. apply silent_set_fs.
Qed.

Lemma silent_mkdirSync (p : string) : silent (mkdirSync p).
Proof.
  apply silent_bind; [apply silent_guard_denied | intros _].
  apply silent_bind; [apply silent_get_world | intros w].
  destruct (fs w !! p) as [[|]|];
    [apply silent_throw | apply silent_ret | apply silent_set_fs].
Qed.

Lemma silent_rmSync (p : string) : silent (rmSync p).
Proof.
  apply silent_bind; [apply silent_guard_denied | intros _].
  apply silent_bind; [apply silent_get_world | intros w]. apply silent_set_fs.
Qed.

Lemma silent_unlinkSync (p : string) : silent (unlinkSync p).
Proof.
  apply silent_bind; [apply silent_guard_denied | intros _].
  apply silent_bind; [apply silent_get_world | intros w].
  destruct (fs w !! p); [apply silent_set_fs | apply silent_throw].
Qed.

Lemma silent_readdirSync (p : string) : silent (readdirSync p).
Proof.
  apply silent_bind; [apply silent_get_world | intros w].
  destruct (fs w !! p) as [[|]|]; [apply silent_throw | apply silent_ret | apply silent_throw].
Qed.

Lemma silent_readJson (p : string) : silent (readJson p).
Proof.
  apply silent_bind; [apply silent_get_world | intros w].
  destruct (fs w !! p) as [[[|]|]|];
    [apply silent_ret | apply silent_throw | apply silent_throw | apply silent_throw].
Qed.

Lemma log_appends (lvl : Level) (msg : Message) (w : World) :
  exists w', appends (log lvl msg) w (Ok tt) w' [(lvl, msg)].
Proof. eexists. repeat split. Qed.

End FrameFacts.

(** ** The fan-out loop *)

Module FanoutFacts.
Import Fanout Registry FanoutScenario SysFacts FrameFacts.

Lemma silent_copyDirectory (source target : string) :
  silent (copyDirectory source target).
Proof.
  apply silent_bind; [apply silent_get_world | intros w].
  destruct (fs w !! source) as [[|entries]|].
  - apply silent_bind; [apply silent_mkdirSync | intros _]. apply silent_throw.
  - apply silent_bind; [apply silent_mkdirSync | intros _].
    apply silent_bind; [apply silent_guard_denied | intros _].
    apply silent_bind; [apply silent_get_world | intros w']. apply silent_set_fs.
  - apply silent_throw.
Qed.

(** The registry update never throws: it writes no log line, or the one
    line that reports its failure. *)
Lemma updateProfileExtensionsJson_outcome (env : Env) (profile : Profile)
  (dir : string) (w : World) :
  exists w' es,
    appends (updateProfileExtensionsJson env profile dir) w (Ok tt) w' es
    /\ (es = [] \/ exists msg,
          es = [(error, ErrorUpdatingRegistry (profile_name profile) msg)]).
Proof.
  unfold updateProfileExtensionsJson, try_catch, appends.
  match goal with |- context [ (bindM ?m ?k) w ] =>
    assert (silent (bindM m k)) as Hs; [| destruct (bindM m k w) as [[[]|msg] w1] eqn:E]
  end.
  - apply silent_bind; [apply silent_existsSync | intros present].
    apply silent_if; [apply silent_writeFileSync |].
    apply silent_bind; [apply silent_readJson | intros data].
    apply silent_bind; [apply silent_lift | intros rewritten].
    apply silent_writeFileSync.
  - destruct (Hs _ _ _ E) as (Hj & Hp & _).
    exists w1, []. rewrite app_nil_r. auto.
  - destruct (Hs _ _ _ E) as (Hj & Hp & _).
    eexists _, [(error, ErrorUpdatingRegistry (profile_name profile) msg)].
    split; [| right; eauto]. split; [reflexivity |]. simpl. split; congruence.
Qed.

(** One profile: the body of the loop never throws. Either the copy is
    reported done, after at most one line reporting a failed registry
    update, or the copy is reported failed. *)
Lemma copyToProfile_outcome (env : Env) (source dir : string) (profile : Profile)
  (w : World) :
  exists w' es,
    appends (copyToProfile env source dir profile) w (Ok tt) w' es
    /\ ((exists pre,
           es = pre ++ [(success, CopiedToProfile (profile_name profile))]
           /\ (pre = [] \/ exists msg,
                 pre = [(error, ErrorUpdatingRegistry (profile_name profile) msg)]))
        \/ exists msg, es = [(error, CopyToProfileFailed (profile_name profile) msg)]).
Proof.
  unfold copyToProfile, try_catch, appends.
  set (pre :=
    let* present := existsSync (profileExtensionsPath profile) in
    do (if negb present then mkdirSync (profileExtensionsPath profile) else ret tt) then
    let* stale := existsSync (join [profileExtensionsPath profile; dir]) in
    do (if stale then rmSync (join [profileExtensionsPath profile; dir]) else ret tt) then
    copyDirectory source (join [profileExtensionsPath profile; dir])).
  assert (silent pre) as Hpre.
  { apply silent_bind; [apply silent_existsSync | intros present].
    apply silent_bind; [apply silent_if; [apply silent_mkdirSync | apply silent_ret] | intros _].
    apply silent_bind; [apply silent_existsSync | intros stale].
    apply silent_bind; [apply silent_if; [apply silent_rmSync | apply silent_ret] | intros _].
    apply silent_copyDirectory. }
  match goal with |- context [ (bindM ?m ?k) w ] =>
    assert (bindM m k w =
            bindM pre (fun _ =>
              do updateProfileExtensionsJson env profile dir then
              log success (CopiedToProfile (profile_name profile))) w) as ->
  end.
  { unfold pre, bindM.
    destruct (existsSync (profileExtensionsPath profile) w) as [[p|] w1];
      [| reflexivity].
    match goal with |- context [ (if negb p then ?a else ?b) w1 ] =>
      destruct ((if negb p then a else b) w1) as [[[]|] w2]; [| reflexivity] end.
    destruct (existsSync (join [profileExtensionsPath profile; dir]) w2)
      as [[st|] w3]; [| reflexivity].
    match goal with |- context [ (if st then ?a else ?b) w3 ] =>
      destruct ((if st then a else b) w3) as [[[]|] w4]; reflexivity end. }
  unfold bindM at 1. destruct (pre w) as [[[]|msg] w1] eqn:E;
    destruct (Hpre _ _ _ E) as (Hj & Hp & _).
  - destruct (updateProfileExtensionsJson_outcome env profile dir w1)
      as (w2 & es & (Hu & Hj2 & Hp2) & Hes).
    unfold bindM. rewrite Hu.
    eexists _, (es ++ [(success, CopiedToProfile (profile_name profile))]).
    split; [split; [reflexivity |]; simpl; split |].
    + rewrite Hj2, Hj. now rewrite app_assoc.
    + congruence.
    + left. exists es. auto.
  - eexists _, [(error, CopyToProfileFailed (profile_name profile) msg)].
    split; [split; [reflexivity |]; simpl; split; congruence |]. right. eauto.
Qed.

Lemma copyToProfile_reports (env : Env) (source dir : string) (profile : Profile)
  (w : World) :
  exists w' es,
    appends (copyToProfile env source dir profile) w (Ok tt) w' es
    /\ map fst (omap profileOutcome es) = [profile_name profile]
    /\ forallb isFanoutLine es = true.
Proof.
  destruct (copyToProfile_outcome env source dir profile w) as (w' & es & Ha & Hes).
  exists w', es. split; [exact Ha |].
  destruct Hes as [(pre & -> & [-> | [msg ->]]) | [msg ->]]; auto.
Qed.

(** The loop gives every profile its outcome, in order, whatever happens
    to the others. *)
Lemma forEach_copyToProfile (env : Env) (source dir : string) (profiles : list Profile)
  (w : World) :
  exists w' es,
    appends (forEach (copyToProfile env source dir) profiles) w (Ok tt) w' es
    /\ map fst (omap profileOutcome es) = map profile_name profiles
    /\ forallb isFanoutLine es = true.
Proof.
  revert w. induction profiles as [|p ps IH]; intros w.
  - exists w, []. unfold appends. simpl. rewrite app_nil_r. auto.
  - destruct (copyToProfile_reports env source dir p w)
      as (w1 & es1 & (H1 & Hj1 & Hp1) & Ho1 & Hf1).
    destruct (IH w1) as (w2 & es2 & (H2 & Hj2 & Hp2) & Ho2 & Hf2).
    exists w2, (es1 ++ es2). unfold appends. simpl. unfold bindM. rewrite H1.
    repeat split.
    + exact H2.
    + now rewrite Hj2, Hj1, app_assoc.
    + congruence.
    + rewrite omap_app, map_app, Ho1, Ho2. reflexivity.
    + now rewrite forallb_app, Hf1, Hf2.
Qed.

End FanoutFacts.

Module InstallFacts.
Import Fanout Registry FanoutScenario SysFacts FrameFacts.

(** When the install into the default profile fails, nothing is copied:
    the install command is run a second time and its outcome is the
    outcome of the whole call. *)
Lemma default_install_failure (env : Env) (vsixPath command : string)
  (config : Config) (w : World) (msg : string) :
  cursorProfiles env <> [] ->
  install_outcome env (spawned w) (installCommand command config vsixPath) = Throw msg ->
  let cmd := installCommand command config vsixPath in
  let retry := install_outcome env (spawned w ++ [cmd]) cmd in
  installExtensionInAllCursorProfiles env vsixPath command config w
  = (retry,
     mkWorld (fs w) (denied w)
       (journal w
        ++ [(info, FoundProfiles (List.length (cursorProfiles env)));
            (info, InstallingDefaultProfile);
            (error, DefaultProfileInstallFailed msg);
            (error, ErrorManagingProfiles msg)]
        ++ (if is_ok retry then [(success, InstalledFallback)] else []))
       (slept w) (spawned w ++ [cmd; cmd]) (requests w) (scans w)).
Proof.
  intros Hne Hfail. cbv zeta.
  unfold installExtensionInAllCursorProfiles.
  destruct (cursorProfiles env) as [|p ps] eqn:Hps; [congruence |].
  revert Hfail. generalize (installCommand command config vsixPath). intros cmd Hfail.
  unfold try_catch, bindM, log, execInstall, throw. simpl.
  rewrite Hfail. simpl. rewrite <- !app_assoc. simpl.
  destruct (install_outcome env (spawned w ++ [cmd]) cmd) as [[]|]; simpl;
    rewrite <- ?app_assoc; reflexivity.
Qed.

End InstallFacts.

(** ** Download attempts *)

Module DownloadFacts.
Import Monitor DownloadSpec SysFacts.

Ltac flip_negb :=
  repeat first [ progress change (negb true) with false
               | progress change (negb false) with true ];
  cbv beta iota; cbn [fs denied journal slept spawned requests scans].

Lemma after_nil (w : World) : after w (fs w) [] [] = w.
Proof. destruct w. unfold after. simpl. now rewrite !app_nil_r. Qed.

Lemma after_after (w : World) f es ds f' es' ds' :
  after (after w f es ds) f' es' ds' = after w f' (es ++ es') (ds ++ ds').
Proof. unfold after. simpl. now rewrite !app_assoc. Qed.

(** One attempt, outside dry-run mode. *)
Lemma downloadAttempt_eval (env : Env) (version : option json) (k : nat) (w : World) :
  isDryRun env = false ->
  downloadAttempt env version k w =
  if attemptOk env version (denied w) k
  then (Ok (vsixFilePath env version),
        after w (<[vsixFilePath env version := File (Raw (received env k))]> (fs w))
              [(info, Downloading (template version) k);
               (success, Downloaded (vsixFileName version)
                                    (String.length (received env k)))] [])
  else (Throw (attemptError env version k),
        after w (fs w) [(info, Downloading (template version) k)] []).
Proof.
  intros Hdry. unfold downloadAttempt, attemptOk, accepted, received, attemptError.
  rewrite Hdry.
  unfold bindM, log, lift, throw, ret, writeFileSync, bindM, guard_denied, get_world,
    set_fs, existsSync, after.
  cbn [fs denied journal slept spawned requests scans].
  destruct (downloadReply env k) as [response|msg];
    [| now rewrite !app_nil_r].
  destruct (ok response); flip_negb; [| now rewrite !app_nil_r].
  destruct (payload response) as [buffer|msg]; [| now rewrite !app_nil_r].
  destruct (String.length buffer =? 0)%nat; flip_negb; simpl andb; cbv iota;
    [now rewrite !app_nil_r |].
  destruct (bool_decide (vsixFilePath env version ∈ denied w)); flip_negb.
  - now rewrite !app_nil_r.
  - cbn [fs denied journal slept spawned requests scans].
    rewrite bool_decide_eq_true_2
      by (rewrite lookup_insert_eq; eexists; reflexivity).
    flip_negb. cbn [fs denied journal slept spawned requests scans].
    now rewrite !app_nil_r, <- app_assoc.
Qed.

Lemma downloadLoop_ok (env : Env) (version : option json) (n k : nat) (e : string)
  (w : World) :
  isDryRun env = false ->
  attemptOk env version (denied w) k = true ->
  downloadLoop env version (S n) k e w =
  (Ok (vsixFilePath env version),
   after w (<[vsixFilePath env version := File (Raw (received env k))]> (fs w))
         (successLines env version k) []).
Proof.
  intros Hdry Hok. simpl downloadLoop. unfold bindM, attempt.
  rewrite (downloadAttempt_eval env version k w Hdry), Hok. reflexivity.
Qed.

Lemma downloadLoop_retry (env : Env) (version : option json) (n k : nat) (e : string)
  (w : World) :
  isDryRun env = false ->
  attemptOk env version (denied w) k = false ->
  downloadLoop env version (S n) k e w =
  downloadLoop env version n (S k) (attemptError env version k)
    (after w (fs w) (failureLines env version k) (failureDelay k)).
Proof.
  intros Hdry Hko. simpl downloadLoop. unfold bindM at 1. unfold attempt.
  rewrite (downloadAttempt_eval env version k w Hdry), Hko.
  unfold bindM at 1. unfold log at 1. cbv beta iota.
  unfold failureLines, failureDelay.
  destruct (k <? maxRetries)%nat.
  - unfold bindM, log, sleep, after.
    cbn [fs denied journal slept spawned requests scans].
    rewrite !app_nil_r, <- !app_assoc. reflexivity.
  - unfold bindM, ret, after.
    cbn [fs denied journal slept spawned requests scans].
    rewrite !app_nil_r, <- !app_assoc. reflexivity.
Qed.

Lemma accepted_response (env : Env) (k : nat) :
  accepted env k = true ->
  exists response buffer,
    downloadReply env k = Ok response /\ 200 <= status response <= 299
    /\ payload response = Ok buffer /\ 0 < String.length buffer.
Proof.
  unfold accepted. destruct (downloadReply env k) as [response|]; [| discriminate].
  intros [Hok Hbuf]%andb_prop.
  destruct (payload response) as [buffer|] eqn:Hpay; [| discriminate].
  exists response, buffer. unfold ok in Hok. apply andb_prop in Hok as [Hlo Hhi].
  apply Nat.leb_le in Hlo. apply Nat.ltb_lt in Hhi.
  apply negb_true_iff, Nat.eqb_neq in Hbuf.
  repeat split; solve [reflexivity | assumption | lia].
Qed.

Lemma onUpdateFailed_throws (env : Env) (msg : string) (w : World) :
  exists es, onUpdateFailed env msg w = (Throw msg, after w (fs w) es []).
Proof.
  assert (forall es, after w (fs w) es [] =
                     mkWorld (fs w) (denied w) (journal w ++ es) (slept w)
                             (spawned w) (requests w) (scans w)) as Hafter.
  { intros es. unfold after. now rewrite app_nil_r. }
  unfold onUpdateFailed, notifyOutcome, sendNativeNotification.
  destruct (isCronMode env), (isDryRun env); try destruct (dialog env _);
    unfold bindM, log, ret, throw;
    cbn [fs denied journal slept spawned requests scans];
    rewrite <- ?app_assoc; eexists; rewrite Hafter; reflexivity.
Qed.

End DownloadFacts.

(** ** The downloaded artifact *)

Module ArtifactFacts.
Import Frames.
Import Monitor DownloadSpec SysFacts DownloadFacts.

Lemma keeps_ret {A} (a : A) : keeps (ret a).
Proof. intros w r w' [= <- <-]. auto. Qed.

Lemma keeps_throw {A} (msg : string) : keeps (@throw A msg).
Proof. intros w r w' [= <- <-]. auto. Qed.

Lemma keeps_lift {A} (x : result A) : keeps (lift x).
Proof. intros w r w' [= <- <-]. auto. Qed.

Lemma keeps_log (lvl : Level) (msg : Message) : keeps (log lvl msg).
Proof. intros w r w' [= <- <-]. auto. Qed.

Lemma keeps_sleep (ms : N) : keeps (sleep ms).
Proof. intros w r w' [= <- <-]. auto. Qed.

Lemma keeps_count_scan : keeps count_scan.
Proof. intros w r w' [= <- <-]. auto. Qed.

Lemma keeps_execInstall outcome (cmd : string) : keeps (execInstall outcome cmd).
Proof. intros w r w' [= <- <-]. auto. Qed.

Lemma keeps_bind {A B} (m : M A) (k : A -> M B) :
  keeps m -> (forall a, keeps (k a)) -> keeps (bindM m k).
Proof.
  intros Hm Hk w r w'. unfold bindM.
  destruct (m w) as [[a|msg] w1] eqn:E.
  - intros H. destruct (Hm _ _ _ E) as [H1 H2].
    destruct (Hk a _ _ _ H) as [K1 K2]. split; congruence.
  - intros [= <- <-]. exact (Hm _ _ _ E).
Qed.

Lemma keeps_try_catch {A} (m : M A) (h : string -> M A) :
  keeps m -> (forall msg, keeps (h msg)) -> keeps (try_catch m h).
Proof.
  intros Hm Hh w r w'. unfold try_catch.
  destruct (m w) as [[a|msg] w1] eqn:E.
  - intros [= <- <-]. exact (Hm _ _ _ E).
  - intros H. destruct (Hm _ _ _ E) as [H1 H2].
    destruct (Hh msg _ _ _ H) as [K1 K2]. split; congruence.
Qed.

Lemma keeps_if {A} (b : bool) (m1 m2 : M A) :
  keeps m1 -> keeps m2 -> keeps (if b then m1 else m2).
Proof. now destruct b. Qed.

Lemma keeps_mapM {A B} (f : A -> M B) (l : list A) :
  (forall x, keeps (f x)) -> keeps (mapM f l).
Proof.
  intros Hf. induction l as [|x xs IH]; [apply keeps_ret |].
  apply keeps_bind; [apply Hf | intros y].
  apply keeps_bind; [exact IH | intros ys; apply keeps_ret].
Qed.

Create HintDb keeps.

#[local] Hint Resolve keeps_ret keeps_throw keeps_lift keeps_log keeps_sleep
  keeps_count_scan keeps_execInstall : keeps.

Ltac keeps_step :=
  first [ apply keeps_bind; [| intro]
        | apply keeps_try_catch; [| intro]
        | apply keeps_if
        | apply keeps_mapM; intro
        | solve [auto with keeps] ].

Lemma keeps_scanIDEs (env : Env) (detectedIDEs : list Detected) :
  keeps (scanIDEs env detectedIDEs).
Proof. unfold scanIDEs. repeat keeps_step. Qed.

Lemma keeps_installExtensions (env : Env) (targets : list Status) (vsixPath : string) :
  keeps (installExtensions env targets vsixPath).
Proof. unfold installExtensions, installOne. repeat keeps_step. Qed.

Lemma keeps_verifyTarget (env : Env) (detectedIDEs : list Detected) (t : Status)
  (expectedVersion : option json) (remaining attemptNo : nat) :
  keeps (verifyTarget env detectedIDEs t expectedVersion remaining attemptNo).
Proof.
  revert attemptNo. induction remaining as [|n IH]; intros attemptNo; simpl.
  - apply keeps_ret.
  - apply keeps_bind; [apply keeps_sleep | intros _].
    apply keeps_bind; [apply keeps_scanIDEs | intros allStatus].
    destruct (List.find _ allStatus).
    + apply keeps_if; repeat keeps_step.
    + repeat keeps_step.
Qed.

Lemma keeps_verifyInstallations (env : Env) (detectedIDEs : list Detected)
  (targets : list Status) (expectedVersion : option json) :
  keeps (verifyInstallations env detectedIDEs targets expectedVersion).
Proof.
  unfold verifyInstallations, verifyOne.
  repeat first [ apply keeps_verifyTarget | keeps_step ].
Qed.

Lemma keeps_notifyOutcome (env : Env) (title : string) : keeps (notifyOutcome env title).
Proof.
  unfold notifyOutcome, sendNativeNotification.
  destruct (dialog env title); repeat keeps_step.
Qed.

Lemma keeps_onUpdateFailed (env : Env) (msg : string) :
  keeps (onUpdateFailed env msg).
Proof.
  unfold onUpdateFailed. repeat first [ apply keeps_notifyOutcome | keeps_step ].
Qed.

Lemma resolve_segments (stack segs : list string) (absolute : bool) :
  Forall (fun seg => seg <> "") stack ->
  Forall (fun seg => seg <> "") (resolve stack segs absolute).
Proof.
  revert stack. induction segs as [|seg rest IH]; intros stack Hstack; simpl.
  - apply List.Forall_rev. exact Hstack.
  - destruct (String.eqb seg "") eqn:Hempty; simpl orb; cbv iota; [now apply IH |].
    apply String.eqb_neq in Hempty.
    destruct (String.eqb seg "."); simpl orb; cbv iota; [now apply IH |].
    destruct (String.eqb seg "..").
    + destruct stack as [|top below].
      * destruct absolute; apply IH; repeat constructor; assumption.
      * destruct (String.eqb top "..").
        -- apply IH. now constructor.
        -- apply IH. now inversion Hstack.
    + apply IH. now constructor.
Qed.

Lemma join_truthy (parts : list string) : truthy (Some (join parts)) = true.
Proof.
  unfold truthy, join.
  set (joined := String.concat "/" _).
  pose proof (resolve_segments [] (split "/" joined) (String.prefix "/" joined)
                (List.Forall_nil _)) as Hsegs.
  destruct (resolve [] (split "/" joined) (String.prefix "/" joined)) as [|seg segs],
    (String.prefix "/" joined); try reflexivity.
  inversion Hsegs as [|? ? Hseg _]; subst.
  destruct seg as [|c seg]; [congruence |].
  destruct segs; reflexivity.
Qed.

Lemma downloadLoop_success (env : Env) (version : option json) (n k : nat) (e : string)
  (w : World) (p : string) (w1 : World) :
  isDryRun env = false ->
  downloadLoop env version n k e w = (Ok p, w1) ->
  p = vsixFilePath env version
  /\ (exists j, fs w1 = <[p := File (Raw (received env j))]> (fs w))
  /\ denied w1 = denied w /\ p ∉ denied w.
Proof.
  intros Hdry. revert k e w. induction n as [|n IH]; intros k e w; [discriminate |].
  destruct (attemptOk env version (denied w) k) eqn:Hk.
  - rewrite (downloadLoop_ok env version n k e w Hdry Hk). intros [= <- <-].
    apply andb_prop in Hk as [_ Hden].
    apply negb_true_iff, bool_decide_eq_false_1 in Hden.
    repeat split; [now exists k | assumption].
  - rewrite (downloadLoop_retry env version n k e w Hdry Hk). intros H.
    apply IH in H. exact H.
Qed.

Lemma cleanupFile_removes (env : Env) (p : string) (w : World) :
  isDryRun env = false -> is_Some (fs w !! p) -> p ∉ denied w ->
  cleanupFile env p w =
  (Ok tt, mkWorld (delete p (fs w)) (denied w) (journal w ++ [(success, CleanedUp p)])
                  (slept w) (spawned w) (requests w) (scans w)).
Proof.
  intros Hdry [node Hnode] Hden. unfold cleanupFile, try_catch. rewrite Hdry.
  unfold bindM, existsSync, unlinkSync, bindM, guard_denied, get_world, set_fs, log.
  rewrite bool_decide_eq_true_2 by (rewrite Hnode; eexists; reflexivity).
  rewrite bool_decide_eq_false_2 by assumption.
  rewrite Hnode. reflexivity.
Qed.

End ArtifactFacts.

(** ** Resolving the latest version *)

Module ResolveFacts.
Import Monitor ResolveSpec SysFacts.

Ltac world_eq :=
  cbv beta iota; cbn [fs denied journal slept spawned requests scans];
  rewrite <- ?app_assoc; cbn [app].

Lemma fetched_fetched (w : World) es urls es' urls' :
  fetched (fetched w es urls) es' urls' = fetched w (es ++ es') (urls ++ urls').
Proof. unfold fetched. simpl. now rewrite !app_assoc. Qed.

Lemma getLatestVersionFallback_eval (env : Env) (w : World) :
  getLatestVersionFallback env w =
  match fallbackOutcome env (requests w) with
  | Ok v => (Ok (Some (JStr v)),
             fetched w [(info, UsingFallback); (info, LatestVersionFallback v)] [pageUrl])
  | Throw msg => (Throw msg,
                  fetched w [(info, UsingFallback); (error, FallbackFailed msg)] [pageUrl])
  end.
Proof.
  unfold getLatestVersionFallback, fallbackOutcome, pageVersion, try_catch, bindM, log,
    fetchPage, lift, throw, ret, fetched.
  cbn [fs denied journal slept spawned requests scans].
  destruct (pageReply env (requests w)) as [response|msg]; [| now world_eq].
  destruct (ok response); DownloadFacts.flip_negb; [| now world_eq].
  destruct (payload response) as [html|msg]; [| now world_eq].
  destruct (first_some _ _); now world_eq.
Qed.

Lemma opt_index0_ok (v r : option json) : index0 v = Ok r -> opt index0 v = r.
Proof.
  destruct v as [[| | | [|] | |]|]; simpl; try discriminate; now intros [= <-].
Qed.

Lemma opt_prop_ok (v r : option json) (name : string) :
  prop v name = Ok r -> opt (fun x => prop x name) v = r.
Proof. destruct v as [[]|]; simpl; try discriminate; now intros [= <-]. Qed.

Lemma opt_index0_inv (v : option json) (x : json) :
  opt index0 v = Some x -> truthy_value v = true /\ index0 v = Ok (Some x).
Proof.
  destruct v as [[| b | n | [|c s] | items | fields]|]; simpl; try discriminate;
    intros ->; split; reflexivity.
Qed.

Lemma opt_prop_inv (v : option json) (name : string) (x : json) :
  opt (fun y => prop y name) v = Some x ->
  truthy_value v = true /\ prop v name = Ok (Some x).
Proof.
  destruct v as [[| b | n | s | items | fields]|]; simpl; try discriminate;
    intros ->; split; reflexivity.
Qed.

(** With the chain in place the guard passes and the [version] property
    of its head is returned, be it [undefined]. *)
Lemma extractVersion_present (data : json) :
  chainMissing data = false ->
  extractVersion data = Ok (Version (opt (fun v => prop v "version") (chainHead data))).
Proof.
  unfold chainMissing, chainHead, extractVersion.
  set (r1 := opt (fun v => prop v "results") (Some data)).
  set (r2 := opt index0 r1).
  set (r3 := opt (fun v => prop v "extensions") r2).
  set (r4 := opt index0 r3).
  set (r5 := opt (fun v => prop v "versions") r4).
  destruct (opt index0 r5) as [x6|] eqn:H6; [| discriminate].
  intros Hx6.
  destruct (opt_index0_inv _ _ H6) as [_ I6].
  destruct r5 as [x5|] eqn:H5; [| discriminate].
  destruct (opt_prop_inv _ _ _ H5) as [T4 P5].
  destruct r4 as [x4|] eqn:H4; [| discriminate].
  destruct (opt_index0_inv _ _ H4) as [T3 I4].
  destruct r3 as [x3|] eqn:H3; [| discriminate].
  destruct (opt_prop_inv _ _ _ H3) as [T2 P3].
  destruct r2 as [x2|] eqn:H2; [| discriminate].
  destruct (opt_index0_inv _ _ H2) as [T1 I2].
  destruct r1 as [x1|] eqn:H1; [| discriminate].
  destruct (opt_prop_inv _ _ _ H1) as [_ P1].
  rewrite P1. cbn [bind]. rewrite T1. cbn [negb]. rewrite I2. cbn [bind].
  rewrite T2. cbn [negb]. rewrite P3. cbn [bind]. rewrite T3. cbn [negb].
  rewrite I4. cbn [bind]. rewrite T4. cbn [negb]. rewrite P5. cbn [bind].
  rewrite I6. cbn [bind].
  destruct x6; try discriminate; reflexivity.
Qed.

(** A version is extracted only from a response whose chain is in
    place. *)
Lemma extractVersion_version (data : json) (v : option json) :
  extractVersion data = Ok (Version v) -> chainMissing data = false.
Proof.
  unfold chainMissing, chainHead, extractVersion.
  destruct (prop (Some data) "results") as [r1|] eqn:P1; [| discriminate].
  rewrite (opt_prop_ok _ _ _ P1). cbn [bind].
  destruct (truthy_value r1); cbn [negb]; [| discriminate].
  destruct (index0 r1) as [r2|] eqn:I2; [| discriminate].
  rewrite (opt_index0_ok _ _ I2). cbn [bind].
  destruct (truthy_value r2); cbn [negb]; [| discriminate].
  destruct (prop r2 "extensions") as [r3|] eqn:P3; [| discriminate].
  rewrite (opt_prop_ok _ _ _ P3). cbn [bind].
  destruct (truthy_value r3); cbn [negb]; [| discriminate].
  destruct (index0 r3) as [r4|] eqn:I4; [| discriminate].
  rewrite (opt_index0_ok _ _ I4). cbn [bind].
  destruct (truthy_value r4); cbn [negb]; [| discriminate].
  destruct (prop r4 "versions") as [r5|] eqn:P5; [| discriminate].
  rewrite (opt_prop_ok _ _ _ P5). cbn [bind].
  destruct (index0 r5) as [r6|] eqn:I6; [| discriminate].
  rewrite (opt_index0_ok _ _ I6). cbn [bind].
  destruct r6 as [[]|]; simpl; try discriminate; reflexivity.
Qed.

(** The whole resolution, case by case. *)
Lemma getLatestVersion_eval (env : Env) (w : World) :
  getLatestVersion env w =
  if primaryFails env then
    let pre := (info, FetchingLatest) :: primaryNote env in
    match fallbackOutcome env (requests w) with
    | Ok s =>
        (Ok (Some (JStr s)),
         fetched w (pre ++ [(info, UsingFallback); (info, LatestVersionFallback s)])
                 [pageUrl])
    | Throw m =>
        if declined env then
          match fallbackOutcome env (requests w ++ [pageUrl]) with
          | Ok s =>
              (Ok (Some (JStr s)),
               fetched w (pre ++ [(info, UsingFallback); (error, FallbackFailed m);
                                  (warning, ApiFailed m); (info, UsingFallback);
                                  (info, LatestVersionFallback s)])
                       [pageUrl; pageUrl])
          | Throw m' =>
              (Throw m',
               fetched w (pre ++ [(info, UsingFallback); (error, FallbackFailed m);
                                  (warning, ApiFailed m); (info, UsingFallback);
                                  (error, FallbackFailed m')])
                       [pageUrl; pageUrl])
          end
        else
          (Throw m,
           fetched w (pre ++ [(info, UsingFallback); (error, FallbackFailed m)])
                   [pageUrl])
    end
  else
    (Ok (primaryVersion env),
     fetched w [(info, FetchingLatest); (info, LatestVersion (primaryVersion env))] []).
Proof.
  unfold getLatestVersion, primaryFails, primaryVersion, primaryNote, declined.
  unfold try_catch at 1. unfold bindM at 1. unfold log at 1. cbv beta iota.
  set (w1 := mkWorld _ _ _ _ _ _ _).
  assert (w1 = fetched w [(info, FetchingLatest)] []) as -> .
  { unfold w1, fetched. now rewrite app_nil_r. }
  destruct (apiReply env) as [response|m0].
  2:{ rewrite bindM_lift_throw. unfold bindM, log. cbv beta iota.
      rewrite getLatestVersionFallback_eval.
      cbn [fs denied journal slept spawned requests scans fetched].
      rewrite app_nil_r.
      destruct (fallbackOutcome env (requests w)); unfold fetched; now world_eq. }
  rewrite bindM_lift_ok.
  destruct (ok response); DownloadFacts.flip_negb; cbn [orb].
  2:{ unfold bindM at 1. unfold log at 1. cbv beta iota.
      rewrite getLatestVersionFallback_eval.
      cbn [fs denied journal slept spawned requests scans fetched].
      rewrite app_nil_r.
      destruct (fallbackOutcome env (requests w)) as [s|m]; [unfold fetched; now world_eq |].
      unfold bindM, log. cbv beta iota. rewrite getLatestVersionFallback_eval.
      cbn [fs denied journal slept spawned requests scans fetched].
      destruct (fallbackOutcome env (requests w ++ [pageUrl]));
        unfold fetched; now world_eq. }
  destruct (payload response) as [data|m1].
  2:{ rewrite bindM_lift_throw. unfold bindM, log. cbv beta iota.
      rewrite getLatestVersionFallback_eval.
      cbn [fs denied journal slept spawned requests scans fetched].
      rewrite app_nil_r.
      destruct (fallbackOutcome env (requests w)); unfold fetched; now world_eq. }
  rewrite bindM_lift_ok.
  destruct (chainMissing data) eqn:Hchain.
  - destruct (extractVersion data) as [[|v]|m2] eqn:Hex.
    + rewrite bindM_lift_ok. unfold bindM at 1. unfold log at 1. cbv beta iota.
      rewrite getLatestVersionFallback_eval.
      cbn [fs denied journal slept spawned requests scans fetched].
      rewrite app_nil_r.
      destruct (fallbackOutcome env (requests w)) as [s|m];
        [unfold fetched; now world_eq |].
      unfold bindM, log. cbv beta iota. rewrite getLatestVersionFallback_eval.
      cbn [fs denied journal slept spawned requests scans fetched].
      destruct (fallbackOutcome env (requests w ++ [pageUrl]));
        unfold fetched; now world_eq.
    + apply extractVersion_version in Hex. congruence.
    + rewrite bindM_lift_throw. unfold bindM, log. cbv beta iota.
      rewrite getLatestVersionFallback_eval.
      cbn [fs denied journal slept spawned requests scans fetched].
      rewrite app_nil_r.
      destruct (fallbackOutcome env (requests w)); unfold fetched; now world_eq.
  - rewrite (extractVersion_present data Hchain). rewrite bindM_lift_ok.
    unfold bindM, log, ret, fetched. now world_eq.
Qed.

Lemma primaryNote_lines (env : Env) :
  List.filter isPrimaryLine (primaryNote env) = [].
Proof.
  unfold primaryNote.
  destruct (apiReply env) as [response|]; [| reflexivity].
  destruct (negb (ok response)); [reflexivity |].
  destruct (payload response) as [data|]; [| reflexivity].
  destruct (extractVersion data) as [[|v]|]; reflexivity.
Qed.

End ResolveFacts.

(** ** Detection *)

Module DetectFacts.
Import Frames.
Import Monitor DetectSpec SysFacts.

Lemma logged_nil (w : World) : logged w [] = w.
Proof. destruct w. unfold logged. simpl. now rewrite app_nil_r. Qed.

Lemma logged_logged (w : World) es es' :
  logged (logged w es) es' = logged w (es ++ es').
Proof. unfold logged. simpl. now rewrite app_assoc. Qed.

Lemma logs_only_ret {A} (a : A) : logs_only (ret a).
Proof. intros w. exists []. symmetry. apply logged_nil. Qed.

Lemma logs_only_throw {A} (msg : string) : logs_only (@throw A msg).
Proof. intros w. exists []. symmetry. apply logged_nil. Qed.

Lemma logs_only_lift {A} (x : result A) : logs_only (lift x).
Proof. intros w. exists []. symmetry. apply logged_nil. Qed.

Lemma logs_only_existsSync (p : string) : logs_only (existsSync p).
Proof. intros w. exists []. symmetry. apply logged_nil. Qed.

Lemma logs_only_log (lvl : Level) (msg : Message) : logs_only (log lvl msg).
Proof. intros w. now exists [(lvl, msg)]. Qed.

Lemma logs_only_bind {A B} (m : M A) (k : A -> M B) :
  logs_only m -> (forall a, logs_only (k a)) -> logs_only (bindM m k).
Proof.
  intros Hm Hk w. unfold bindM. destruct (Hm w) as [es Hes].
  destruct (m w) as [[a|msg] w1]; cbn [snd] in Hes; subst w1.
  - destruct (Hk a (logged w es)) as [es' Hes']. exists (es ++ es').
    now rewrite Hes', logged_logged.
  - now exists es.
Qed.

Lemma logs_only_try_catch {A} (m : M A) (h : string -> M A) :
  logs_only m -> (forall msg, logs_only (h msg)) -> logs_only (try_catch m h).
Proof.
  intros Hm Hh w. unfold try_catch. destruct (Hm w) as [es Hes].
  destruct (m w) as [[a|msg] w1]; cbn [snd] in Hes; subst w1.
  - now exists es.
  - destruct (Hh msg (logged w es)) as [es' Hes']. exists (es ++ es').
    now rewrite Hes', logged_logged.
Qed.

Lemma logs_only_if {A} (b : bool) (m1 m2 : M A) :
  logs_only m1 -> logs_only m2 -> logs_only (if b then m1 else m2).
Proof. now destruct b. Qed.

Ltac logs_step :=
  first [ apply logs_only_bind; [| intro]
        | apply logs_only_try_catch; [| intro]
        | apply logs_only_if
        | apply logs_only_ret | apply logs_only_throw | apply logs_only_lift
        | apply logs_only_existsSync | apply logs_only_log
        | match goal with
          | |- logs_only (match ?x with _ => _ end) => destruct x
          end ].

Lemma logs_only_detectOne (env : Env) (entry : string * Config) :
  logs_only (Monitor.detectOne env entry).
Proof.
  destruct entry as [ide config]. unfold Monitor.detectOne, Monitor.probeCli.
  repeat logs_step.
Qed.

Lemma logs_only_detectOne_modular (env : Env) (entry : string * Config) :
  logs_only (IDEManager.detectOne env entry).
Proof.
  destruct entry as [ide config]. unfold IDEManager.detectOne, IDEManager.probeCli.
  repeat logs_step.
Qed.

Ltac run_effects :=
  unfold try_catch, bindM, log, lift, ret, throw, existsSync;
  repeat (cbv beta iota;
          cbn [fs denied journal slept spawned requests scans fst snd negb andb]).

Lemma detectOne_value (env : Env) (entry : string * Config) (w : World) :
  fst (Monitor.detectOne env entry w)
  = Ok (detects (extensionFolder env) env (fs w) entry).
Proof.
  destruct entry as [ide config]. unfold Monitor.detectOne, Monitor.probeCli, detects.
  cbv zeta.
  set (command := default ide _).
  destruct (probe env _); [reflexivity |].
  destruct (macPaths env ide) as [macPath|].
  - destruct (String.eqb (platform env) "darwin" && truthy (Some macPath)); cbn [andb].
    + run_effects.
      destruct (bool_decide (is_Some (fs w !! macPath))); run_effects; [reflexivity |].
      destruct (extensionFolder env ide) as [[p|]|msg]; run_effects; try reflexivity.
      destruct (truthy (Some p)), (bool_decide (is_Some (fs w !! p))); reflexivity.
    + run_effects.
      destruct (extensionFolder env ide) as [[p|]|msg]; run_effects; try reflexivity.
      destruct (truthy (Some p)), (bool_decide (is_Some (fs w !! p))); reflexivity.
  - run_effects.
    destruct (extensionFolder env ide) as [[p|]|msg]; run_effects; try reflexivity.
    destruct (truthy (Some p)), (bool_decide (is_Some (fs w !! p))); reflexivity.
Qed.

Lemma detectOne_value_modular (env : Env) (entry : string * Config) (w : World) :
  fst (IDEManager.detectOne env entry w)
  = Ok (detects (IDEManager.getExtensionPath env) env (fs w) entry).
Proof.
  destruct entry as [ide config].
  unfold IDEManager.detectOne, IDEManager.probeCli, detects.
  cbv zeta.
  set (command := default ide _).
  destruct (probe env _); [reflexivity |].
  destruct (macPaths env ide) as [macPath|].
  - destruct (String.eqb (platform env) "darwin" && truthy (Some macPath)); cbn [andb].
    + run_effects.
      destruct (bool_decide (is_Some (fs w !! macPath))); run_effects; [reflexivity |].
      destruct (IDEManager.getExtensionPath env ide) as [[p|]|msg]; run_effects;
        try reflexivity.
      destruct (truthy (Some p)), (bool_decide (is_Some (fs w !! p))); reflexivity.
    + run_effects.
      destruct (IDEManager.getExtensionPath env ide) as [[p|]|msg]; run_effects;
        try reflexivity.
      destruct (truthy (Some p)), (bool_decide (is_Some (fs w !! p))); reflexivity.
  - run_effects.
    destruct (IDEManager.getExtensionPath env ide) as [[p|]|msg]; run_effects;
      try reflexivity.
    destruct (truthy (Some p)), (bool_decide (is_Some (fs w !! p))); reflexivity.
Qed.

(** The loop decides every target on its own. *)
Lemma collectAvailable_eval (env : Env) (table : list (string * Config)) (w : World) :
  exists es,
    Monitor.collectAvailable env table w
    = (Ok (omap (detects (extensionFolder env) env (fs w)) table), logged w es).
Proof.
  revert w. induction table as [|entry rest IH]; intros w.
  - exists []. cbn. now rewrite logged_nil.
  - cbn [Monitor.collectAvailable]. unfold bindM at 1.
    pose proof (detectOne_value env entry w) as Hvalue.
    destruct (logs_only_detectOne env entry w) as [es Hes].
    destruct (Monitor.detectOne env entry w) as [r w1].
    cbn [fst snd] in Hvalue, Hes. subst r w1.
    destruct (IH (logged w es)) as [es' Hrest]. unfold bindM. rewrite Hrest.
    exists (es ++ es'). rewrite logged_logged. cbn [omap list_omap fs logged ret].
    unfold ret. destruct (detects _ env (fs w) entry); reflexivity.
Qed.

Lemma collectAvailable_eval_modular (env : Env) (table : list (string * Config))
  (w : World) :
  exists es,
    IDEManager.collectAvailable env table w
    = (Ok (omap (detects (IDEManager.getExtensionPath env) env (fs w)) table),
       logged w es).
Proof.
  revert w. induction table as [|entry rest IH]; intros w.
  - exists []. cbn. now rewrite logged_nil.
  - cbn [IDEManager.collectAvailable]. unfold bindM at 1.
    pose proof (detectOne_value_modular env entry w) as Hvalue.
    destruct (logs_only_detectOne_modular env entry w) as [es Hes].
    destruct (IDEManager.detectOne env entry w) as [r w1].
    cbn [fst snd] in Hvalue, Hes. subst r w1.
    destruct (IH (logged w es)) as [es' Hrest]. unfold bindM. rewrite Hrest.
    exists (es ++ es'). rewrite logged_logged. cbn [omap list_omap fs logged ret].
    unfold ret. destruct (detects _ env (fs w) entry); reflexivity.
Qed.

Lemma insert_with_length {A} (cmp : A -> A -> comparison) (x : A) (l : list A) :
  List.length (JsArray.insert_with cmp x l) = S (List.length l).
Proof.
  induction l as [|y ys IH]; [reflexivity |].
  simpl. destruct (cmp x y); simpl; congruence.
Qed.

Lemma sort_with_length {A} (cmp : A -> A -> comparison) (l : list A) :
  List.length (JsArray.sort_with cmp l) = List.length l.
Proof.
  induction l as [|x xs IH]; [reflexivity |].
  unfold JsArray.sort_with in *. simpl. now rewrite insert_with_length, IH.
Qed.

End DetectFacts.

(* ================================================================== *)
(** * The claims *)

(** Claim C1 (the code departs from it). Outside dry-run mode, once the
    download has produced the artifact, the update phase of [run] ends
    with the artifact removed from disk, whatever the installation and
    the verification report: the [finally] block deletes it on every
    path. *)
Theorem C1_artifact_removed_whatever_verification (env : Monitor.Env)
  (detectedIDEs : list Monitor.Detected) (targets : list Monitor.Status)
  (version : option Json.json) (w : Sys.World) (p : string) (w1 : Sys.World) :
  Monitor.isDryRun env = false ->
  Monitor.downloadVsix env version w = (Js.Ok p, w1) ->
  exists r w2,
    Monitor.updatePhase env detectedIDEs targets version w = (r, w2)
    /\ is_Some (Sys.fs w1 !! p)
    /\ Sys.fs w2 = delete p (Sys.fs w1)
    /\ Sys.fs w2 !! p = None
    /\ In (Sys.success, Sys.CleanedUp p) (Sys.journal w2).
Proof.
  intros Hdry Hdl.
  destruct (ArtifactFacts.downloadLoop_success env version _ _ _ w p w1 Hdry Hdl)
    as (Hp & [k Hfs] & Hden & Hfree).
  assert (is_Some (Sys.fs w1 !! p)) as Hthere.
  { rewrite Hfs, lookup_insert_eq. eexists; reflexivity. }
  unfold Monitor.updatePhase, Sys.bindM, Sys.attempt. rewrite Hdl.
  unfold Sys.try_finally.
  match goal with
  | |- context [ Sys.try_catch ?body ?handler w1 ] =>
      destruct (Sys.try_catch body handler w1) as [r w2] eqn:Hbody;
      assert (Frames.keeps (Sys.try_catch body handler)) as Hkeeps
  end.
  { apply ArtifactFacts.keeps_try_catch;
      [| intros msg; apply ArtifactFacts.keeps_onUpdateFailed].
    apply ArtifactFacts.keeps_bind;
      [apply ArtifactFacts.keeps_installExtensions | intros installResults].
    apply ArtifactFacts.keeps_bind;
      [apply ArtifactFacts.keeps_verifyInstallations | intros verifyResult].
    apply ArtifactFacts.keeps_notifyOutcome. }
  destruct (Hkeeps _ _ _ Hbody) as [Hfs2 Hden2].
  assert (Js.truthy (Some p) = true) as ->
    by (rewrite Hp; apply ArtifactFacts.join_truthy).
  rewrite (ArtifactFacts.cleanupFile_removes env p w2 Hdry)
    by (rewrite ?Hfs2, ?Hden2, ?Hden; assumption).
  cbn [snd]. do 2 eexists. split; [reflexivity |].
  cbn [Sys.fs Sys.journal]. rewrite Hfs2.
  repeat split.
  - exact Hthere.
  - apply lookup_delete_eq.
  - apply in_or_app. right. now left.
Qed.

(** Claim C1 on a run whose verification fails: the installed version never
    changes, every verification attempt reports a mismatch, and the
    artifact is gone when the run returns. *)
Lemma C1_failed_verification_sample :
  let env := DownloadSpec.sampleEnv DownloadSpec.steadyHost DownloadSpec.stillOld in
  let p := "/app/temp/augment.vscode-augment-0.576.0.vsix" in
  (exists r w2,
     Monitor.updatePhase env (DownloadSpec.sampleDetected env)
       (DownloadSpec.sampleTargets env) DownloadSpec.sampleVersion DownloadSpec.emptyWorld
     = (r, w2)
     /\ Sys.fs w2 !! p = None
     /\ In (Sys.success, Sys.CleanedUp p) (Sys.journal w2))
  /\ fst (Monitor.run env DownloadSpec.emptyWorld) = Js.Ok Monitor.Returned
  /\ List.filter DownloadSpec.isVerdict
       (Sys.journal (snd (Monitor.run env DownloadSpec.emptyWorld)))
     = [(Sys.error, Sys.VerifyFailed "Cursor"); (Sys.success, Sys.CleanedUp p)]
  /\ Sys.fs (snd (Monitor.run env DownloadSpec.emptyWorld)) !! p = None.
Proof.
  intros env p. split.
  - destruct (C1_artifact_removed_whatever_verification env
                (DownloadSpec.sampleDetected env) (DownloadSpec.sampleTargets env)
                DownloadSpec.sampleVersion DownloadSpec.emptyWorld p
                (snd (Monitor.downloadVsix env DownloadSpec.sampleVersion
                        DownloadSpec.emptyWorld)) eq_refl)
      as (r & w2 & Hrun & _ & _ & Hgone & Hlog).
    + vm_compute. reflexivity.
    + exists r, w2. repeat split; assumption.
  - vm_compute. repeat split; reflexivity.
Defined.

(** Claim C2 (the code departs from it). A directory
    [augment.vscode-augment-0.576.0-universal] is reported as installed
    version ["0.576.0-universal"]; against latest ["0.576.0"] the code
    compares the raw strings and asks for an update, where the rule
    [installed is absent OR normalize(latest) > normalize(installed)]
    asks for none. The CLI manager compares raw strings in the same way. *)
Theorem C2_update_decision_on_raw_strings :
  getExtensionVersionFromDir
    (Listing ["augment.vscode-augment-0.576.0-universal"]) "augment.vscode-augment"
  = Some "0.576.0-universal"
  /\ isOutdated "0.576.0" (Some "0.576.0-universal") = Ok true
  /\ needsUpdate_spec (Some "0.576.0-universal") "0.576.0" = Some false
  /\ Managers.needsUpdate
       (Managers.checkOne (fun _ => Ok "0.576.0")
          (Managers.mkDetectedCLI "claude-code" "@anthropic-ai/claude-code"
             "0.576.0-universal"))
     = true.
Proof. repeat split; vm_compute; reflexivity. Qed.

(** Claim C3, amended. Each target is decided on its own, from the
    environment and the file system: the detection loop returns exactly
    the targets that [DetectSpec.detects] finds, in table order, so an
    exception in one target's detection leaves that target absent and
    changes nothing for the others, and the loop itself never throws.
    [detectAvailableIDEs] of [index.js] then throws exactly when no
    target was found; the one of the modular manager never throws.  With
    no home directory set and only the VS Code command answering, Cursor
    and Antigravity fail with an exception and VS Code is detected. *)
Theorem C3_detection_failures_are_local :
  (forall (env : Monitor.Env) (table : list (string * Ide.Config)) (w : Sys.World),
     exists es,
       Monitor.collectAvailable env table w
       = (Js.Ok (omap (DetectSpec.detects (Monitor.extensionFolder env) env (Sys.fs w))
                      table),
          DetectSpec.logged w es))
  /\ (forall (env : Monitor.Env) (table : list (string * Ide.Config)) (w : Sys.World),
        fst (Monitor.detectAvailableIDEs env table w)
        = match omap (DetectSpec.detects (Monitor.extensionFolder env) env (Sys.fs w))
                     table with
          | [] => Js.Throw "No supported IDE found (Cursor or VS Code)"
          | found => Js.Ok (JsArray.sort_with Monitor.byPriority found)
          end)
  /\ (forall (env : Monitor.Env) (table : list (string * Ide.Config)) (w : Sys.World),
        fst (IDEManager.detectAvailableIDEs env table w)
        = Js.Ok (JsArray.sort_with Monitor.byPriority
                   (omap (DetectSpec.detects (IDEManager.getExtensionPath env) env
                            (Sys.fs w)) table)))
  /\ (let r := Monitor.detectAvailableIDEs (DetectSpec.bareEnv DetectSpec.onlyCode)
                 Monitor.supportedIDEs DetectSpec.blankWorld in
      fst r = Js.Ok [Monitor.mkDetected "vscode" Monitor.vscodeConfig "vscode" 2]
      /\ List.filter (fun e => match snd e with
                               | Sys.DetectionFailed _ _ => true
                               | _ => false
                               end) (Sys.journal (snd r))
         = [(Sys.warning,
             Sys.DetectionFailed "Cursor"
               "The path argument must be of type string. Received undefined");
            (Sys.warning,
             Sys.DetectionFailed "Antigravity"
               "The path argument must be of type string. Received undefined")]).
Proof.
  split; [| split; [| split]].
  - intros env table w. apply DetectFacts.collectAvailable_eval.
  - intros env table w. unfold Monitor.detectAvailableIDEs.
    unfold Sys.bindM, Sys.log. cbv beta iota.
    match goal with
    | |- context [ Monitor.collectAvailable env table ?w1 ] =>
        destruct (DetectFacts.collectAvailable_eval env table w1) as [es Hloop];
        change (Sys.fs w1) with (Sys.fs w) in Hloop
    end.
    rewrite Hloop.
    rewrite DetectFacts.sort_with_length.
    destruct (omap _ table) as [|d found]; [reflexivity |].
    cbn [List.length Nat.eqb]. reflexivity.
  - intros env table w. unfold IDEManager.detectAvailableIDEs.
    unfold Sys.bindM, Sys.log. cbv beta iota.
    match goal with
    | |- context [ IDEManager.collectAvailable env table ?w1 ] =>
        destruct (DetectFacts.collectAvailable_eval_modular env table w1) as [es Hloop];
        change (Sys.fs w1) with (Sys.fs w) in Hloop
    end.
    rewrite Hloop.
    destruct (0 <? _)%nat; reflexivity.
  - vm_compute. split; reflexivity.
Qed.

(** Claim C3 as stated fails. No version command runs and no home
    directory is set: the detection of every target fails, and
    [detectAvailableIDEs] of [index.js] throws, which ends the run with
    exit code 1. *)
Lemma C3_detection_aborts_run :
  fst (Monitor.detectAvailableIDEs (DetectSpec.bareEnv DetectSpec.nothingRuns)
         Monitor.supportedIDEs DetectSpec.blankWorld)
  = Js.Throw "No supported IDE found (Cursor or VS Code)"
  /\ fst (Monitor.run (DetectSpec.bareEnv DetectSpec.nothingRuns) DetectSpec.blankWorld)
     = Js.Ok (Monitor.Exited 1)
  /\ last (Sys.journal (snd (Monitor.run (DetectSpec.bareEnv DetectSpec.nothingRuns)
                               DetectSpec.blankWorld)))
     = Some (Sys.error,
             Sys.UpdateProcessFailed "No supported IDE found (Cursor or VS Code)").
Proof. vm_compute. repeat split; reflexivity. Qed.

(** Claim C4, amended. For a profile whose registry file holds a
    JSON array of records, the update rewrites the file to the records
    whose identifier does not contain the package identifier, in their
    order and unchanged, followed by one freshly built record. That record
    is the only one whose identifier is the package identifier; its version
    is the suffix of the installed directory name. *)
Theorem C4_registry_rewrite (env : Fanout.Env) (profile : Fanout.Profile)
  (dir : string) (w : World) (items : list json) :
  fs w !! Fanout.extensionsJsonPath profile = Some (File (JsonText (JArr items))) ->
  Fanout.extensionsJsonPath profile ∉ denied w ->
  Forall (fun r => Registry.isRecord r = true) items ->
  exists registry w',
    Fanout.updateProfileExtensionsJson env profile dir w = (Ok tt, w')
    /\ fs w' = <[Fanout.extensionsJsonPath profile :=
                   File (JsonText (JArr registry))]> (fs w)
    /\ journal w' = journal w
    /\ registry = List.filter (fun r => negb (Registry.mentionsAugment r)) items
                  ++ [Fanout.newExtensionEntry env dir]
    /\ List.filter Registry.isAugment registry = [Fanout.newExtensionEntry env dir]
    /\ Registry.recordVersion (Fanout.newExtensionEntry env dir)
       = Some (JStr (Fanout.entryVersion dir))
    /\ (forall v, v <> "" ->
          all_chars (fun c => negb (is_line_terminator c)) v = true ->
          Fanout.entryVersion (augmentDirPrefix ++ v) = v)
    /\ (forall r, In r items -> Registry.mentionsAugment r = false -> In r registry).
Proof.
  intros Hfile Hden Hrec.
  eexists _, _. split; [apply RegistryFacts.updateProfileExtensionsJson_rewrite; eassumption |].
  simpl. repeat split.
  - rewrite List.filter_app, RegistryFacts.filter_drops_augment. reflexivity.
  - apply RegistryFacts.entryVersion_suffix.
  - intros r Hin Hm. apply in_or_app. left. apply List.filter_In. now rewrite Hm.
Qed.

(** Claim C4, amended, on a registry holding a stale record of the package and a
    record of another extension. *)
Lemma C4_registry_rewrite_sample :
  exists registry w',
    Fanout.updateProfileExtensionsJson Registry.sampleEnv Registry.sampleProfile
      FanoutScenario.installedDir
      (Registry.sampleWorld [Registry.staleRecord; Registry.pythonRecord])
    = (Ok tt, w')
    /\ fs w' = <[Fanout.extensionsJsonPath Registry.sampleProfile :=
                   File (JsonText (JArr registry))]>
                 (fs (Registry.sampleWorld [Registry.staleRecord; Registry.pythonRecord]))
    /\ journal w'
       = journal (Registry.sampleWorld [Registry.staleRecord; Registry.pythonRecord])
    /\ registry
       = List.filter (fun r => negb (Registry.mentionsAugment r))
           [Registry.staleRecord; Registry.pythonRecord]
         ++ [Fanout.newExtensionEntry Registry.sampleEnv FanoutScenario.installedDir]
    /\ List.filter Registry.isAugment registry
       = [Fanout.newExtensionEntry Registry.sampleEnv FanoutScenario.installedDir]
    /\ Registry.recordVersion
         (Fanout.newExtensionEntry Registry.sampleEnv FanoutScenario.installedDir)
       = Some (JStr (Fanout.entryVersion FanoutScenario.installedDir))
    /\ (forall v, v <> "" ->
          all_chars (fun c => negb (is_line_terminator c)) v = true ->
          Fanout.entryVersion (augmentDirPrefix ++ v) = v)
    /\ (forall r, In r [Registry.staleRecord; Registry.pythonRecord] ->
          Registry.mentionsAugment r = false -> In r registry).
Proof.
  apply (C4_registry_rewrite Registry.sampleEnv Registry.sampleProfile
           FanoutScenario.installedDir
           (Registry.sampleWorld [Registry.staleRecord; Registry.pythonRecord])
           [Registry.staleRecord; Registry.pythonRecord]).
  - apply lookup_singleton_eq.
  - apply not_elem_of_empty.
  - repeat constructor.
Defined.

(** Claim C4 as stated fails. A record of another extension whose
    identifier merely contains the package identifier is not preserved:
    the rewrite drops it. *)
Lemma C4_unrelated_record_dropped :
  Registry.recordId Registry.nightlyRecord = Some "augment.vscode-augment-nightly"
  /\ Registry.isAugment Registry.nightlyRecord = false
  /\ Registry.isRecord Registry.nightlyRecord = true
  /\ fs (snd (Fanout.updateProfileExtensionsJson Registry.sampleEnv
                Registry.sampleProfile FanoutScenario.installedDir
                (Registry.sampleWorld [Registry.nightlyRecord; Registry.pythonRecord])))
       !! Fanout.extensionsJsonPath Registry.sampleProfile
     = Some (File (JsonText (JArr
         [Registry.pythonRecord;
          Fanout.newExtensionEntry Registry.sampleEnv FanoutScenario.installedDir]))).
Proof. repeat split; vm_compute; reflexivity. Qed.

(** Claim C5. Outside dry-run mode, [downloadVsix] makes between one and
    three attempts and waits [baseDelay * k] after failed attempt [k]
    when another attempt follows.  It returns the artifact path at the
    first attempt whose reply has a status in 200..299 and a non-empty
    payload that could be written to disk; when no attempt succeeds it
    throws after the third one, and the update phase of the run rethrows
    that error without having started an installation.  In particular two
    failures followed by a success take three attempts and delays of
    [1 * baseDelay] and [2 * baseDelay]. *)
Theorem C5_download_retries (env : Monitor.Env) (version : option Json.json)
  (w : Sys.World) :
  Monitor.isDryRun env = false ->
  exists f es ds r,
    Monitor.downloadVsix env version w = (r, DownloadSpec.after w f es ds)
    /\ 1 <= DownloadSpec.attemptsIn es <= Monitor.maxRetries
    /\ ds = map DownloadSpec.backoff (seq 1 (DownloadSpec.attemptsIn es - 1))
    /\ match DownloadSpec.firstSuccess env version (Sys.denied w) with
       | Some k =>
           r = Js.Ok (Monitor.vsixFilePath env version)
           /\ DownloadSpec.attemptsIn es = k
           /\ f = <[Monitor.vsixFilePath env version :=
                      Sys.File (Sys.Raw (DownloadSpec.received env k))]> (Sys.fs w)
           /\ exists response buffer,
                Monitor.downloadReply env k = Js.Ok response
                /\ 200 <= Monitor.status response <= 299
                /\ Monitor.payload response = Js.Ok buffer
                /\ 0 < String.length buffer
       | None =>
           r = Js.Throw ("Download failed after 3 attempts. Last error: "
                         +:+ DownloadSpec.attemptError env version 3)
           /\ DownloadSpec.attemptsIn es = 3 /\ f = Sys.fs w
           /\ forall detectedIDEs targets, exists msg w',
                Monitor.updatePhase env detectedIDEs targets version w
                = (Js.Throw msg, w')
                /\ Sys.spawned w' = Sys.spawned w /\ Sys.fs w' = Sys.fs w
       end
    /\ (DownloadSpec.attemptOk env version (Sys.denied w) 1 = false ->
        DownloadSpec.attemptOk env version (Sys.denied w) 2 = false ->
        DownloadSpec.attemptOk env version (Sys.denied w) 3 = true ->
        r = Js.Ok (Monitor.vsixFilePath env version)
        /\ DownloadSpec.attemptsIn es = 3
        /\ ds = [(1 * Monitor.baseDelay)%N; (2 * Monitor.baseDelay)%N]).
Proof.
  intros Hdry.
  assert (forall k, DownloadSpec.attemptOk env version (Sys.denied w) k = true ->
            exists response buffer,
              Monitor.downloadReply env k = Js.Ok response
              /\ 200 <= Monitor.status response <= 299
              /\ Monitor.payload response = Js.Ok buffer
              /\ 0 < String.length buffer) as Hacc.
  { intros k [H _]%andb_prop. now apply DownloadFacts.accepted_response. }
  unfold Monitor.downloadVsix, DownloadSpec.firstSuccess.
  change Monitor.maxRetries with 3. cbn [seq find].
  destruct (DownloadSpec.attemptOk env version (Sys.denied w) 1) eqn:H1.
  { rewrite (DownloadFacts.downloadLoop_ok env version 2 1 _ w Hdry H1).
    do 4 eexists. split; [reflexivity |].
    repeat split; try reflexivity; try (cbn; lia); try discriminate.
    now apply Hacc. }
  rewrite (DownloadFacts.downloadLoop_retry env version 2 1 _ w Hdry H1).
  set (w1 := DownloadSpec.after w _ _ _).
  destruct (DownloadSpec.attemptOk env version (Sys.denied w) 2) eqn:H2.
  { rewrite (DownloadFacts.downloadLoop_ok env version 1 2 _ w1 Hdry H2).
    unfold w1. rewrite DownloadFacts.after_after.
    do 4 eexists. split; [reflexivity |].
    repeat split; try reflexivity; try (cbn; lia); try discriminate.
    now apply Hacc. }
  rewrite (DownloadFacts.downloadLoop_retry env version 1 2 _ w1 Hdry H2).
  set (w2 := DownloadSpec.after w1 _ _ _).
  destruct (DownloadSpec.attemptOk env version (Sys.denied w) 3) eqn:H3.
  { rewrite (DownloadFacts.downloadLoop_ok env version 0 3 _ w2 Hdry H3).
    unfold w2, w1. rewrite !DownloadFacts.after_after.
    do 4 eexists. split; [reflexivity |].
    repeat split; try reflexivity; try (cbn; lia).
    now apply Hacc. }
  rewrite (DownloadFacts.downloadLoop_retry env version 0 3 _ w2 Hdry H3).
  cbn [Monitor.downloadLoop]. unfold Sys.throw.
  unfold w2, w1. rewrite !DownloadFacts.after_after.
  do 4 eexists. split; [reflexivity |].
  repeat split; try reflexivity; try (cbn; lia); try discriminate.
  intros detectedIDEs targets. unfold Monitor.updatePhase, Sys.bindM, Sys.attempt,
    Monitor.downloadVsix.
  change Monitor.maxRetries with 3.
  rewrite (DownloadFacts.downloadLoop_retry env version 2 1 _ w Hdry H1).
  fold w1.
  rewrite (DownloadFacts.downloadLoop_retry env version 1 2 _ w1 Hdry H2).
  fold w2.
  rewrite (DownloadFacts.downloadLoop_retry env version 0 3 _ w2 Hdry H3).
  cbn [Monitor.downloadLoop]. unfold Sys.throw.
  match goal with
  | |- context [ Monitor.onUpdateFailed env ?m ?w3 ] =>
      destruct (DownloadFacts.onUpdateFailed_throws env m w3) as [es ->]
  end.
  do 2 eexists. split; [reflexivity |]. split; reflexivity.
Qed.

(** Claim C5 on its scenario: the host answers 500, 500 and then 200 with a
    non-empty body. *)
Lemma C5_two_failures_then_success :
  let env := DownloadSpec.sampleEnv DownloadSpec.flakyHost DownloadSpec.stillOld in
  exists f es,
    Monitor.downloadVsix env DownloadSpec.sampleVersion DownloadSpec.emptyWorld
    = (Js.Ok "/app/temp/augment.vscode-augment-0.576.0.vsix",
       DownloadSpec.after DownloadSpec.emptyWorld f es [2000; 4000]%N)
    /\ DownloadSpec.attemptsIn es = 3
    /\ f !! "/app/temp/augment.vscode-augment-0.576.0.vsix"
       = Some (Sys.File (Sys.Raw "PK-vsix-bytes")).
Proof.
  intros env.
  destruct (C5_download_retries env DownloadSpec.sampleVersion DownloadSpec.emptyWorld
              eq_refl) as (f & es & ds & r & Hrun & _ & _ & Hfirst & Hscenario).
  destruct (Hscenario eq_refl eq_refl eq_refl) as (-> & Hn & ->).
  exists f, es. split; [exact Hrun |]. split; [exact Hn |].
  change (DownloadSpec.firstSuccess env DownloadSpec.sampleVersion
            (Sys.denied DownloadSpec.emptyWorld)) with (Some 3) in Hfirst.
  destruct Hfirst as (_ & _ & -> & _). apply lookup_insert_eq.
Defined.

(** When every attempt fails, the run ends with exit code 1 after three
    attempts and without having started an installation. *)
Lemma dead_host_run_exits :
  let r := Monitor.run (DownloadSpec.sampleEnv DownloadSpec.deadHost DownloadSpec.stillOld)
             DownloadSpec.emptyWorld in
  fst r = Js.Ok (Monitor.Exited 1)
  /\ DownloadSpec.attemptsIn (Sys.journal (snd r)) = 3
  /\ Sys.slept (snd r) = [2000; 4000]%N
  /\ Sys.spawned (snd r) = [].
Proof. vm_compute. repeat split; reflexivity. Qed.

(** In dry-run mode no request is made: the first attempt returns the
    path the artifact would have, and nothing is written or awaited. *)
Lemma dry_run_download (env : Monitor.Env) (version : option Json.json) (w : Sys.World) :
  Monitor.isDryRun env = true ->
  Monitor.downloadVsix env version w
  = (Js.Ok (Monitor.vsixFilePath env version),
     DownloadSpec.after w (Sys.fs w)
       [(Sys.info, Sys.Downloading (Monitor.template version) 1);
        (Sys.warning, Sys.DryRunDownload)] []).
Proof.
  intros Hdry. unfold Monitor.downloadVsix. change Monitor.maxRetries with 3.
  cbn [Monitor.downloadLoop]. unfold Monitor.downloadAttempt. rewrite Hdry.
  unfold Sys.bindM, Sys.attempt, Sys.log, Sys.ret, DownloadSpec.after.
  cbn [Sys.fs Sys.denied Sys.journal Sys.slept Sys.spawned Sys.requests Sys.scans].
  now rewrite app_nil_r, <- app_assoc.
Qed.


(** Claim C7. The claim holds of the code except for one case the
    guard of [getLatestVersion] misses: an answer with status 200 whose
    results / extensions / versions chain is there while the head of
    [versions] carries no [version].  Whenever the primary answer passes
    the guard and what it reports is not a string, [getLatestVersion]
    returns that value as its result, logs it as the latest version and
    fetches no page.  On the answer [versions: [{}]] it returns
    [undefined] although the fallback page carries 9.9.9, and the run
    then fails on the comparison with the installed version and ends
    with exit code 1. *)
Theorem C7_versionless_answer_is_success :
  (forall (env : Monitor.Env) (w : Sys.World),
     ResolveSpec.primaryFails env = false ->
     (forall s, ResolveSpec.primaryVersion env <> Some (Json.JStr s)) ->
     let r := Monitor.getLatestVersion env w in
     fst r = Js.Ok (ResolveSpec.primaryVersion env)
     /\ (forall s, fst r <> Js.Ok (Some (Json.JStr s)))
     /\ Sys.requests (snd r) = Sys.requests w
     /\ Sys.journal (snd r)
        = Sys.journal w ++ [(Sys.info, Sys.FetchingLatest);
                            (Sys.info, Sys.LatestVersion (ResolveSpec.primaryVersion env))])
  /\ ResolveSpec.primaryFails ResolveSpec.versionlessEnv = false
  /\ ResolveSpec.fallbackOutcome ResolveSpec.versionlessEnv [] = Js.Ok "9.9.9"
  /\ Monitor.getLatestVersion ResolveSpec.versionlessEnv DownloadSpec.emptyWorld
     = (Js.Ok None,
        ResolveSpec.fetched DownloadSpec.emptyWorld
          [(Sys.info, Sys.FetchingLatest); (Sys.info, Sys.LatestVersion None)] [])
  /\ (let r := Monitor.run ResolveSpec.versionlessEnv DownloadSpec.emptyWorld in
      fst r = Js.Ok (Monitor.Exited 1)
      /\ exists msg,
           last (Sys.journal (snd r)) = Some (Sys.error, Sys.UpdateProcessFailed msg)).
Proof.
  split;
    [| do 3 (split; [vm_compute; reflexivity |]); cbv zeta;
       split; [vm_compute; reflexivity | eexists; vm_compute; reflexivity]].
  intros env w Hprimary Hversion. cbv zeta.
  rewrite (ResolveFacts.getLatestVersion_eval env w), Hprimary.
  cbn [fst snd ResolveSpec.fetched Sys.requests Sys.journal].
  repeat split; [| apply app_nil_r].
  intros s [= H]. exact (Hversion s H).
Qed.

(** Claim C8, amended. In the loop over the profiles every
    profile gets its own outcome, in order, and the loop never throws: a
    failed copy is caught and reported as that profile's failure, a failed
    registry update is caught and reported as an error for that profile,
    which is then still reported as copied. When the install into the
    default profile fails, nothing is copied and no registry is touched;
    the install command is run once more, and the call fails only if that
    second run fails too. *)
Theorem C8_fanout_failures_are_local :
  (forall env source dir profiles w,
     exists w' es,
       forEach (Fanout.copyToProfile env source dir) profiles w = (Ok tt, w')
       /\ journal w' = journal w ++ es
       /\ map fst (omap FanoutScenario.profileOutcome es)
          = map Fanout.profile_name profiles)
  /\ (forall env source dir profile w,
        exists w' es,
          Fanout.copyToProfile env source dir profile w = (Ok tt, w')
          /\ journal w' = journal w ++ es
          /\ ((exists pre,
                 es = pre ++ [(success, CopiedToProfile (Fanout.profile_name profile))]
                 /\ (pre = [] \/ exists msg,
                       pre = [(error, ErrorUpdatingRegistry
                                        (Fanout.profile_name profile) msg)]))
              \/ exists msg,
                   es = [(error, CopyToProfileFailed (Fanout.profile_name profile) msg)]))
  /\ (forall env vsixPath command config w msg,
        Fanout.cursorProfiles env <> [] ->
        Fanout.install_outcome env (spawned w)
          (Ide.installCommand command config vsixPath) = Throw msg ->
        let cmd := Ide.installCommand command config vsixPath in
        let r := Fanout.installExtensionInAllCursorProfiles env vsixPath command config w in
        fst r = Fanout.install_outcome env (spawned w ++ [cmd]) cmd
        /\ fs (snd r) = fs w
        /\ spawned (snd r) = spawned w ++ [cmd; cmd]
        /\ List.filter FanoutScenario.isFanoutLine (journal (snd r))
           = List.filter FanoutScenario.isFanoutLine (journal w))
  /\ journal (snd (Fanout.installExtensionInAllCursorProfiles FanoutScenario.envInstalls
                     "/tmp/augment.vsix" "cursor" FanoutScenario.cursorConfig
                     FanoutScenario.threeProfiles))
     = [(info, FoundProfiles 3); (info, InstallingDefaultProfile);
        (success, InstalledDefaultProfile);
        (info, FoundExtension "augment.vscode-augment-0.576.0");
        (success, CopiedToProfile "A");
        (error, CopyToProfileFailed "B"
           "EACCES: permission denied, '/u2/Cursor/.cursor/extensions/augment.vscode-augment-0.576.0'");
        (error, ErrorUpdatingRegistry "C" "Unexpected token in JSON");
        (success, CopiedToProfile "C")].
Proof.
  split; [| split; [| split]].
  - intros env source dir profiles w.
    destruct (FanoutFacts.forEach_copyToProfile env source dir profiles w)
      as (w' & es & (H & Hj & _) & Ho & _). eauto.
  - intros env source dir profile w.
    destruct (FanoutFacts.copyToProfile_outcome env source dir profile w)
      as (w' & es & (H & Hj & _) & Ho). eauto.
  - intros env vsixPath command config w msg Hne Hfail. cbv zeta.
    rewrite (InstallFacts.default_install_failure env vsixPath command config w msg Hne Hfail).
    simpl. repeat split.
    rewrite !List.filter_app. simpl.
    destruct (is_ok _); simpl; now rewrite app_nil_r.
  - vm_compute. reflexivity.
Qed.

(** Claim C8, amended: its default-profile clause on a run where the install command
    fails once. *)
Lemma C8_default_failure_sample :
  let cmd := Ide.installCommand "cursor" FanoutScenario.cursorConfig "/tmp/augment.vsix" in
  let r := Fanout.installExtensionInAllCursorProfiles FanoutScenario.envFailsOnce
             "/tmp/augment.vsix" "cursor" FanoutScenario.cursorConfig
             FanoutScenario.threeProfiles in
  fst r = Fanout.install_outcome FanoutScenario.envFailsOnce
            (spawned FanoutScenario.threeProfiles ++ [cmd]) cmd
  /\ fs (snd r) = fs FanoutScenario.threeProfiles
  /\ spawned (snd r) = spawned FanoutScenario.threeProfiles ++ [cmd; cmd]
  /\ List.filter FanoutScenario.isFanoutLine (journal (snd r))
     = List.filter FanoutScenario.isFanoutLine (journal FanoutScenario.threeProfiles).
Proof.
  apply (proj1 (proj2 (proj2 C8_fanout_failures_are_local))
           FanoutScenario.envFailsOnce "/tmp/augment.vsix" "cursor"
           FanoutScenario.cursorConfig FanoutScenario.threeProfiles
           "Command failed: exit code 1").
  - discriminate.
  - reflexivity.
Defined.

(** Claim C8 as stated fails. The install into the default
    profile fails, nothing is copied, and yet the call returns normally:
    the second run of the install command succeeded, so the target is not
    reported failed. *)
Lemma C8_default_failure_not_fatal :
  Fanout.install_outcome FanoutScenario.envFailsOnce
    (spawned FanoutScenario.threeProfiles)
    (Ide.installCommand "cursor" FanoutScenario.cursorConfig "/tmp/augment.vsix")
  = Throw "Command failed: exit code 1"
  /\ Fanout.installExtensionInAllCursorProfiles FanoutScenario.envFailsOnce
       "/tmp/augment.vsix" "cursor" FanoutScenario.cursorConfig
       FanoutScenario.threeProfiles
     = (Ok tt,
        mkWorld (fs FanoutScenario.threeProfiles) (denied FanoutScenario.threeProfiles)
          [(info, FoundProfiles 3); (info, InstallingDefaultProfile);
           (error, DefaultProfileInstallFailed "Command failed: exit code 1");
           (error, ErrorManagingProfiles "Command failed: exit code 1");
           (success, InstalledFallback)]
          []
          [Ide.installCommand "cursor" FanoutScenario.cursorConfig "/tmp/augment.vsix";
           Ide.installCommand "cursor" FanoutScenario.cursorConfig "/tmp/augment.vsix"]
          [] 0).
Proof. split; reflexivity. Qed.

(** Claim C9. [normalize] is idempotent: normalising a normalised version
    returns it unchanged, for every input including absent and
    unparseable ones.  It drops the suffix: a dotted triple [a.b.c] of
    numeric identifiers followed by anything that does not start with a
    digit normalises to [a.b.c], and whatever it returns is such a triple;
    the suffix-qualified ["0.560.0-universal"] normalises to
    ["0.560.0"]. *)
Theorem C9_normalize_idempotent :
  (forall v : option string,
     normalizeVersion (normalizeVersion v) = normalizeVersion v)
  /\ (forall a b c suffix : string,
        SemverNotions.component a = true -> SemverNotions.component b = true ->
        SemverNotions.component c = true -> Semver.rx_end suffix = true ->
        normalizeVersion (Some (a ++ "." ++ b ++ "." ++ c ++ suffix)%string)
        = Some (a ++ "." ++ b ++ "." ++ c)%string)
  /\ (forall (v : option string) (s : string),
        normalizeVersion v = Some s ->
        exists a b c,
          s = (a ++ "." ++ b ++ "." ++ c)%string
          /\ SemverNotions.component a = true /\ SemverNotions.component b = true
          /\ SemverNotions.component c = true)
  /\ normalizeVersion (Some "0.560.0-universal") = Some "0.560.0".
Proof.
  split; [| split; [| split; [| vm_compute; reflexivity]]].
  - intros [v|]; [| reflexivity].
    destruct (normalizeVersion (Some v)) as [s|] eqn:H; [| reflexivity].
    exact (normalizeVersion_fixpoint v s H).
  - intros a b c suffix Ha Hb Hc Hend.
    exact (normalizeVersion_suffixed a b c suffix Ha Hb Hc Hend).
  - intros [v|] s H; [| discriminate].
    exact (normalizeVersion_components v s H).
Qed.

(** Claim C10. The directory replicated during profile fan-out is the
    greatest matching directory name in plain string order; with versions
    9.0.0 and 10.0.0 both installed it is the 9.0.0 directory, although the
    highest installed version is 10.0.0. *)
Theorem C10_fanout_source_lexicographic (entries : list string) :
  match latestExtensionDir entries with
  | Some d =>
      In d entries /\ startsWith d augmentDirPrefix = true
      /\ forall e, In e entries -> startsWith e augmentDirPrefix = true ->
                   String.compare e d <> Gt
  | None => forall e, In e entries -> startsWith e augmentDirPrefix = false
  end
  /\ latestExtensionDir
       ["augment.vscode-augment-10.0.0"; "augment.vscode-augment-9.0.0"]
     = Some "augment.vscode-augment-9.0.0"
  /\ getExtensionVersionFromDir
       (Listing ["augment.vscode-augment-10.0.0"; "augment.vscode-augment-9.0.0"])
       "augment.vscode-augment"
     = Some "10.0.0".
Proof.
  split; [| split; vm_compute; reflexivity].
  unfold latestExtensionDir, JsArray.sort.
  set (dirs := List.filter _ entries).
  destruct (SortFacts.sort_by_sorted JsArray.default_compare String.compare
              (fun _ => True) OrderFacts.Order_string (fun x y _ _ => eq_refl) dirs)
    as (l & -> & Hp & Hs).
  { apply List.Forall_forall. auto. }
  destruct (JsArray.pop l) as [d|] eqn:Hpop.
  - destruct (SortFacts.sorted_last_max _ l d
                (OrderFacts.le_refl _ OrderFacts.Order_string) Hs Hpop) as [Hin Hmax].
    apply (Permutation_in _ (Permutation_sym Hp)) in Hin.
    apply List.filter_In in Hin as [Hin Hsw]. repeat split; [exact Hin | exact Hsw |].
    intros e He Hse. apply Hmax. apply (Permutation_in _ Hp).
    apply List.filter_In. now split.
  - apply SortFacts.pop_None in Hpop as ->. apply Permutation_sym, Permutation_nil in Hp.
    intros e He. destruct (startsWith e augmentDirPrefix) eqn:Hse; [| reflexivity].
    assert (In e dirs) as Hd by (apply List.filter_In; now split).
    rewrite Hp in Hd. destruct Hd.
Qed.

(** ** The status table *)

Module TableFacts.
Import Monitor VersionTable.

Lemma isOutdatedValue_eval (latest : string) (s : Status) :
  if comparable latest s
  then isOutdatedValue (Some (JStr latest)) (st_version s) = Ok (older latest s)
  else exists msg, isOutdatedValue (Some (JStr latest)) (st_version s) = Throw msg.
Proof.
  unfold comparable, older, reports, isOutdatedValue, isOutdated.
  destruct (st_version s) as [v|]; [| reflexivity].
  destruct (truthy (Some v)) eqn:Hv; [| reflexivity].
  destruct (truthy (Semver.valid latest)) eqn:Hl; simpl andb.
  - destruct (truthy (Semver.valid v)) eqn:Hvalid.
    + unfold Semver.gt. rewrite (PrecedenceFacts.compare_valid latest v Hl Hvalid).
      reflexivity.
    + unfold Semver.gt, Semver.compare.
      destruct (Semver.parse latest); [| eexists; reflexivity].
      destruct (Semver.parse v) eqn:Hp; [| eexists; reflexivity].
      assert (truthy (Semver.valid v) = true) as H
        by (apply PrecedenceFacts.valid_truthy; eauto).
      congruence.
  - unfold Semver.gt, Semver.compare.
    destruct (Semver.parse latest) eqn:Hp; [| eexists; reflexivity].
    assert (truthy (Semver.valid latest) = true) as H
      by (apply PrecedenceFacts.valid_truthy; eauto).
    congruence.
Qed.

Lemma anyOutdated_eval (latest : string) (statuses : list Status) :
  if forallb (comparable latest) statuses
  then anyOutdated (Some (JStr latest)) statuses = Ok (existsb (older latest) statuses)
  else exists msg, anyOutdated (Some (JStr latest)) statuses = Throw msg.
Proof.
  induction statuses as [|s rest IH]; [reflexivity |].
  cbn [forallb existsb anyOutdated].
  pose proof (isOutdatedValue_eval latest s) as Hs.
  destruct (comparable latest s); cbn [andb].
  - rewrite Hs. cbn [bind]. destruct (forallb (comparable latest) rest).
    + now rewrite IH.
    + destruct IH as [msg ->]. eauto.
  - destruct Hs as [msg ->]. eauto.
Qed.




End TableFacts.

(** ** Frames *)

Module PreservesFacts.
Import Frame.

Section Generic.
Context (R : World -> World -> Prop).
Hypothesis R_refl : forall w, R w w.
Hypothesis R_trans : forall w1 w2 w3, R w1 w2 -> R w2 w3 -> R w1 w3.

Lemma preserves_ret {A} (a : A) : preserves R (ret a).
Proof. intros w r w' [= <- <-]. apply R_refl. Qed.

Lemma preserves_throw {A} (msg : string) : preserves R (@throw A msg).
Proof. intros w r w' [= <- <-]. apply R_refl. Qed.

Lemma preserves_lift {A} (x : result A) : preserves R (lift x).
Proof. intros w r w' [= <- <-]. apply R_refl. Qed.

Lemma preserves_existsSync (p : string) : preserves R (existsSync p).
Proof. intros w r w' [= <- <-]. apply R_refl. Qed.

Lemma preserves_get_world : preserves R get_world.
Proof. intros w r w' [= <- <-]. apply R_refl. Qed.

(** Sequencing, with what is known of the value handed on. *)
Lemma preserves_bind_post {A B} (P : A -> Prop) (m : M A) (k : A -> M B) :
  (forall w a w', m w = (Ok a, w') -> P a) ->
  preserves R m -> (forall a, P a -> preserves R (k a)) -> preserves R (bindM m k).
Proof.
  intros HP Hm Hk w r w'. unfold bindM.
  destruct (m w) as [[a|msg] w1] eqn:E.
  - intros H. exact (R_trans _ _ _ (Hm _ _ _ E) (Hk a (HP _ _ _ E) _ _ _ H)).
  - intros [= <- <-]. exact (Hm _ _ _ E).
Qed.

Lemma preserves_bind {A B} (m : M A) (k : A -> M B) :
  preserves R m -> (forall a, preserves R (k a)) -> preserves R (bindM m k).
Proof.
  intros Hm Hk. apply (preserves_bind_post (fun _ => True)); auto.
Qed.

Lemma preserves_try_catch {A} (m : M A) (h : string -> M A) :
  preserves R m -> (forall msg, preserves R (h msg)) -> preserves R (try_catch m h).
Proof.
  intros Hm Hh w r w'. unfold try_catch.
  destruct (m w) as [[a|msg] w1] eqn:E.
  - intros [= <- <-]. exact (Hm _ _ _ E).
  - intros H. exact (R_trans _ _ _ (Hm _ _ _ E) (Hh msg _ _ _ H)).
Qed.

Lemma preserves_try_finally {A} (m : M A) (f : M unit) :
  preserves R m -> preserves R f -> preserves R (try_finally m f).
Proof.
  intros Hm Hf w r w'. unfold try_finally.
  destruct (m w) as [r1 w1] eqn:E. destruct (f w1) as [r2 w2] eqn:F.
  intros [= <- <-]. exact (R_trans _ _ _ (Hm _ _ _ E) (Hf _ _ _ F)).
Qed.

Lemma preserves_attempt {A} (m : M A) : preserves R m -> preserves R (attempt m).
Proof.
  intros Hm w r w'. unfold attempt. destruct (m w) as [r1 w1] eqn:E.
  intros [= <- <-]. exact (Hm _ _ _ E).
Qed.

Lemma preserves_if {A} (b : bool) (m1 m2 : M A) :
  preserves R m1 -> preserves R m2 -> preserves R (if b then m1 else m2).
Proof. now destruct b. Qed.

Lemma preserves_mapM {A B} (f : A -> M B) (l : list A) :
  (forall x, preserves R (f x)) -> preserves R (mapM f l).
Proof.
  intros Hf. induction l as [|x xs IH]; [apply preserves_ret |].
  apply preserves_bind; [apply Hf | intros y].
  apply preserves_bind; [exact IH | intros ys; apply preserves_ret].
Qed.

Lemma preserves_forEach {A} (f : A -> M unit) (l : list A) :
  (forall x, preserves R (f x)) -> preserves R (forEach f l).
Proof.
  intros Hf. induction l as [|x xs IH]; [apply preserves_ret |].
  apply preserves_bind; [apply Hf | intros _; exact IH].
Qed.

End Generic.

Lemma untouched_refl (w : World) : untouched w w.
Proof. repeat split. Qed.

Lemma untouched_trans (w1 w2 w3 : World) :
  untouched w1 w2 -> untouched w2 w3 -> untouched w1 w3.
Proof. intros (? & ? & ? & ?) (? & ? & ? & ?). repeat split; congruence. Qed.

Lemma idle_refl (w : World) : idle w w.
Proof. repeat split. Qed.

Lemma idle_trans (w1 w2 w3 : World) : idle w1 w2 -> idle w2 w3 -> idle w1 w3.
Proof. intros (? & ? & ?) (? & ? & ?). repeat split; congruence. Qed.

Lemma untouched_idle {A} (m : M A) : preserves untouched m -> preserves idle m.
Proof. intros H w r w' E. destruct (H _ _ _ E) as (? & ? & ? & ?). now repeat split. Qed.

Lemma untouched_log (lvl : Level) (msg : Message) : preserves untouched (log lvl msg).
Proof. intros w r w' [= <- <-]. repeat split. Qed.

Lemma untouched_count_scan : preserves untouched count_scan.
Proof. intros w r w' [= <- <-]. repeat split. Qed.

Lemma untouched_fetchPage {A} (reply : list string -> result A) (url : string) :
  preserves untouched (fetchPage reply url).
Proof. intros w r w' [= <- <-]. repeat split. Qed.

Lemma idle_sleep (ms : N) : preserves idle (sleep ms).
Proof. intros w r w' [= <- <-]. repeat split. Qed.

(** One step of a frame proof for [untouched]. *)
Ltac untouched_step :=
  first [ apply (preserves_bind untouched untouched_trans); [| intro]
        | apply (preserves_try_catch untouched untouched_trans); [| intro]
        | apply preserves_if
        | apply (preserves_mapM untouched untouched_refl untouched_trans); intro
        | apply (preserves_forEach untouched untouched_refl untouched_trans); intro
        | apply (preserves_ret untouched untouched_refl)
        | apply (preserves_throw untouched untouched_refl)
        | apply (preserves_lift untouched untouched_refl)
        | apply (preserves_existsSync untouched untouched_refl)
        | apply untouched_log | apply untouched_count_scan | apply untouched_fetchPage
        | match goal with
          | |- preserves untouched (match ?x with _ => _ end) => destruct x
          end ].

Ltac idle_step :=
  first [ apply (preserves_bind idle idle_trans); [| intro]
        | apply (preserves_try_catch idle idle_trans); [| intro]
        | apply preserves_if
        | apply (preserves_mapM idle idle_refl idle_trans); intro
        | apply (preserves_ret idle idle_refl)
        | apply (preserves_throw idle idle_refl)
        | apply (preserves_lift idle idle_refl)
        | apply idle_sleep
        | apply untouched_idle; first [ apply untouched_log | apply untouched_count_scan ]
        | match goal with
          | |- preserves idle (match ?x with _ => _ end) => destruct x
          end ].

End PreservesFacts.

(** ** What a run leaves alone *)

Module RunFacts.
Import Monitor Frame PreservesFacts.

Lemma untouched_collectAvailable (env : Env) (table : list (string * Config)) :
  preserves untouched (collectAvailable env table).
Proof.
  induction table as [|[ide config] rest IH]; [apply (preserves_ret _ untouched_refl) |].
  cbn [collectAvailable]. unfold detectOne, probeCli.
  apply (preserves_bind untouched untouched_trans); [repeat untouched_step |].
  intros found. apply (preserves_bind untouched untouched_trans); [exact IH |].
  intros others. apply (preserves_ret _ untouched_refl).
Qed.

Lemma untouched_detectAvailableIDEs (env : Env) (table : list (string * Config)) :
  preserves untouched (detectAvailableIDEs env table).
Proof.
  unfold detectAvailableIDEs.
  apply (preserves_bind untouched untouched_trans); [apply untouched_log | intros _].
  apply (preserves_bind untouched untouched_trans);
    [apply untouched_collectAvailable | intros found].
  repeat untouched_step.
Qed.

Lemma untouched_scanIDEs (env : Env) (detectedIDEs : list Detected) :
  preserves untouched (scanIDEs env detectedIDEs).
Proof. unfold scanIDEs. repeat untouched_step. Qed.

Lemma untouched_getLatestVersionFallback (env : Env) :
  preserves untouched (getLatestVersionFallback env).
Proof. unfold getLatestVersionFallback. repeat untouched_step. Qed.

Lemma untouched_getLatestVersion (env : Env) : preserves untouched (getLatestVersion env).
Proof.
  unfold getLatestVersion.
  repeat first [ apply untouched_getLatestVersionFallback | untouched_step ].
Qed.

Lemma untouched_sendNativeNotification (env : Env) (title : string)
  (buttons : list string) :
  preserves untouched (sendNativeNotification env title buttons).
Proof. unfold sendNativeNotification. repeat untouched_step. Qed.

Lemma untouched_notifyOutcome (env : Env) (title : string) :
  preserves untouched (notifyOutcome env title).
Proof.
  unfold notifyOutcome.
  repeat first [ apply untouched_sendNativeNotification | untouched_step ].
Qed.

Lemma untouched_onUpdateFailed (env : Env) (msg : string) :
  preserves untouched (onUpdateFailed env msg).
Proof.
  unfold onUpdateFailed. repeat first [ apply untouched_notifyOutcome | untouched_step ].
Qed.

Lemma untouched_promptSelection (env : Env) (ideStatus : list Status)
  (latestVersion : option json) :
  preserves untouched (promptSelection env ideStatus latestVersion).
Proof.
  unfold promptSelection.
  repeat first [ apply untouched_sendNativeNotification | untouched_step ].
Qed.

(** *** Dry runs *)

Section DryRun.
Context (env : Env) (Hdry : isDryRun env = true).

Lemma untouched_downloadVsix_dry (version : option json) :
  preserves untouched (downloadVsix env version).
Proof.
  intros w r w' E. unfold downloadVsix in E. change maxRetries with 3 in E.
  cbn [downloadLoop] in E. unfold downloadAttempt in E. rewrite Hdry in E.
  unfold bindM, attempt, log, ret in E. injection E as <- <-. repeat split.
Qed.

Lemma untouched_installExtensions_dry (targets : list Status) (vsixPath : string) :
  preserves untouched (installExtensions env targets vsixPath).
Proof.
  unfold installExtensions, installOne. rewrite Hdry. repeat untouched_step.
Qed.

Lemma untouched_verifyInstallations_dry (detectedIDEs : list Detected)
  (targets : list Status) (expectedVersion : option json) :
  preserves untouched (verifyInstallations env detectedIDEs targets expectedVersion).
Proof. unfold verifyInstallations. rewrite Hdry. repeat untouched_step. Qed.

Lemma untouched_cleanupFile_dry (filePath : string) :
  preserves untouched (cleanupFile env filePath).
Proof. unfold cleanupFile. rewrite Hdry. repeat untouched_step. Qed.

Lemma untouched_updatePhase_dry (detectedIDEs : list Detected) (targets : list Status)
  (latestVersion : option json) :
  preserves untouched (updatePhase env detectedIDEs targets latestVersion).
Proof.
  unfold updatePhase.
  apply (preserves_bind untouched untouched_trans).
  { apply (preserves_attempt _), untouched_downloadVsix_dry. }
  intros [vsixPath|msg]; [| apply untouched_onUpdateFailed].
  apply (preserves_try_finally untouched untouched_trans).
  - apply (preserves_try_catch untouched untouched_trans);
      [| intros msg; apply untouched_onUpdateFailed].
    apply (preserves_bind untouched untouched_trans);
      [apply untouched_installExtensions_dry | intros installResults].
    apply (preserves_bind untouched untouched_trans);
      [apply untouched_verifyInstallations_dry | intros verifyResult].
    apply untouched_notifyOutcome.
  - apply preserves_if;
      [apply untouched_cleanupFile_dry | apply (preserves_ret _ untouched_refl)].
Qed.

End DryRun.

(** *** Runs in which nothing is selected *)

(** The operator has not asked for an update: in cron mode the dialog
    did not return [Update All] (in a dry run it is not shown and counts
    as [OK]); at the terminal the answer was [q]. *)
Lemma promptSelection_declined (env : Env) (ideStatus : list Status)
  (latestVersion : option json) (w : World) (targets : list Status) (w' : World) :
  (if isCronMode env
   then isDryRun env = true
        \/ (forall output,
              dialog env "Augment Extension Update Available" = Some output ->
              buttonReturned output ["Cancel"; "Update All"] <> Some "Update All")
   else choice env = "q") ->
  promptSelection env ideStatus latestVersion w = (Ok targets, w') -> targets = [].
Proof.
  unfold promptSelection. destruct (isCronMode env).
  - intros Hno. unfold bindM, lift at 1.
    destruct (JsArray.filter_by _ ideStatus) as [updatesNeeded|msg]; [| discriminate].
    destruct (List.length updatesNeeded =? 0)%nat; [now intros [= <- _] |].
    unfold sendNativeNotification.
    destruct (isDryRun env).
    + unfold bindM, log, ret. now intros [= <- _].
    + destruct Hno as [? | Hno]; [discriminate |].
      destruct (dialog env _) as [output|] eqn:Hd.
      * specialize (Hno output eq_refl).
        assert (strictEq (Some (JStr "Update All"))
                         (buttonReturned output ["Cancel"; "Update All"]) = false) as Hb.
        { unfold strictEq. destruct (buttonReturned _ _) as [button|]; [| reflexivity].
          apply String.eqb_neq. congruence. }
        unfold bindM, ret. cbv beta iota. rewrite Hb. now intros [= <- _].
      * unfold bindM, log, ret. now intros [= <- _].
  - intros ->. unfold ret. now intros [= <- _].
Qed.

Lemma untouched_run_when (env : Env) :
  (forall detectedIDEs targets latestVersion,
     targets <> [] ->
     (exists ideStatus w w',
        promptSelection env ideStatus latestVersion w = (Ok targets, w')) ->
     preserves untouched (updatePhase env detectedIDEs targets latestVersion)) ->
  preserves untouched (run env).
Proof.
  intros Hphase. unfold run.
  apply (preserves_try_catch untouched untouched_trans); [| intros msg; repeat untouched_step].
  apply (preserves_bind untouched untouched_trans); [apply untouched_log | intros _].
  apply (preserves_bind untouched untouched_trans);
    [apply untouched_detectAvailableIDEs | intros detectedIDEs].
  apply (preserves_bind untouched untouched_trans);
    [apply untouched_scanIDEs | intros ideStatus].
  apply (preserves_bind untouched untouched_trans);
    [apply untouched_getLatestVersion | intros latestVersion].
  apply (preserves_bind untouched untouched_trans);
    [apply (preserves_lift _ untouched_refl) | intros updateAvailable].
  apply preserves_if; [apply (preserves_ret _ untouched_refl) |].
  apply (preserves_bind_post untouched untouched_trans
           (fun targets => exists w w',
              promptSelection env ideStatus latestVersion w = (Ok targets, w'))).
  { intros w a w' E. eauto. }
  { apply untouched_promptSelection. }
  intros targets (w & w' & Hsel).
  destruct targets as [|t targets]; [cbn; repeat untouched_step |].
  cbn [List.length Nat.eqb].
  apply (preserves_bind untouched untouched_trans);
    [| intros _; apply (preserves_ret _ untouched_refl)].
  apply Hphase; [discriminate | eauto].
Qed.

End RunFacts.

(** ** The selection menu *)

Module SelectionFacts.
Import Monitor.

Lemma num_show (n : N) : num (show n) = n.
Proof.
  unfold num, show. rewrite NilEmpty.usu. apply DecimalN.Unsigned.of_to.
Qed.

Lemma show_inj (m n : N) : show m = show n -> m = n.
Proof. intros H. rewrite <- (num_show m), <- (num_show n). now rewrite H. Qed.

Lemma show_not_a (n : nat) : String.eqb (show (N.of_nat (S n))) "a" = false.
Proof.
  apply String.eqb_neq. intros H.
  pose proof (num_show (N.of_nat (S n))) as Hn. rewrite H in Hn.
  vm_compute in Hn. lia.
Qed.

(** The search through the numbered options, for numbers starting at
    [from]. *)
Lemma numbered_option (from : nat) (ideStatus : list Status) (k : nat) (s : Status) :
  ideStatus !! k = Some s ->
  first_some
    (fun entry : nat * Status =>
       if String.eqb (show (N.of_nat (fst entry))) (show (N.of_nat (from + k)))
       then Some [snd entry] else None)
    (combine (seq from (List.length ideStatus)) ideStatus)
  = Some [s].
Proof.
  revert from k. induction ideStatus as [|t rest IH]; intros from k Hk; [discriminate |].
  cbn [List.length seq combine first_some fst snd].
  destruct k as [|k].
  - injection Hk as ->. rewrite Nat.add_0_r, String.eqb_refl. reflexivity.
  - assert (String.eqb (show (N.of_nat from)) (show (N.of_nat (from + S k))) = false)
      as ->.
    { apply String.eqb_neq. intros H%show_inj. lia. }
    replace (from + S k) with (S from + k) by lia. apply IH. exact Hk.
Qed.

Lemma numbered_option_member (from : nat) (ideStatus : list Status) (answer : string)
  (l : list Status) :
  first_some
    (fun entry : nat * Status =>
       if String.eqb (show (N.of_nat (fst entry))) answer then Some [snd entry] else None)
    (combine (seq from (List.length ideStatus)) ideStatus)
  = Some l ->
  exists k s, ideStatus !! k = Some s /\ l = [s] /\ answer = show (N.of_nat (from + k)).
Proof.
  revert from. induction ideStatus as [|t rest IH]; intros from; [discriminate |].
  cbn [List.length seq combine first_some fst snd].
  destruct (String.eqb (show (N.of_nat from)) answer) eqn:Hhit.
  - intros [= <-]. exists 0, t. apply String.eqb_eq in Hhit.
    rewrite Nat.add_0_r. auto.
  - intros (k & s & Hk & Hl & Ha)%IH. exists (S k), s.
    replace (from + S k) with (S from + k) by lia. auto.
Qed.

End SelectionFacts.

(** ** Installing and verifying *)

Module InstallVerifyFacts.
Import Monitor VerifySpec Frame PreservesFacts.

Lemma installOne_eval (env : Env) (vsixPath : string) (t : Status) (w : World) :
  exists r w',
    installOne env vsixPath t w = (Ok r, w')
    /\ target r = t
    /\ fs w' = fs w /\ denied w' = denied w /\ slept w' = slept w
    /\ spawned w' = spawned w ++ (if isDryRun env then [] else [commandFor vsixPath t])
    /\ (succeeded r = true <-> failure r = None)
    /\ succeeded r = (if isDryRun env then true
                      else is_ok (install_outcome env (spawned w) (commandFor vsixPath t))).
Proof.
  unfold installOne, commandFor, try_catch, bindM, log, execInstall, ret.
  repeat (cbv beta iota; cbn [fs denied journal slept spawned requests scans]).
  destruct (isDryRun env);
    repeat (cbv beta iota; cbn [fs denied journal slept spawned requests scans]).
  - do 2 eexists. split; [reflexivity |]. cbn. rewrite app_nil_r.
    repeat split; auto.
  - destruct (install_outcome env (spawned w) _) as [[]|msg];
      do 2 eexists; (split; [reflexivity |]); cbn; repeat split; auto; discriminate.
Qed.

Lemma mapM_installOne (env : Env) (vsixPath : string) (targets : list Status)
  (w : World) :
  exists results w',
    mapM (installOne env vsixPath) targets w = (Ok results, w')
    /\ map target results = targets
    /\ fs w' = fs w /\ denied w' = denied w /\ slept w' = slept w
    /\ spawned w' = spawned w ++ (if isDryRun env then []
                                  else map (commandFor vsixPath) targets)
    /\ Forall (fun r => succeeded r = true <-> failure r = None) results
    /\ (forall i t, targets !! i = Some t ->
          exists r, results !! i = Some r /\ target r = t
            /\ succeeded r
               = (if isDryRun env then true
                  else is_ok (install_outcome env
                                (spawned w ++ map (commandFor vsixPath) (take i targets))
                                (commandFor vsixPath t)))).
Proof.
  revert w. induction targets as [|t rest IH]; intros w.
  - exists [], w. cbn. destruct (isDryRun env);
      repeat split; auto; try (rewrite ?app_nil_r; reflexivity); intros i t [=].
  - destruct (installOne_eval env vsixPath t w)
      as (r & w1 & E1 & Ht & Hfs1 & Hden1 & Hsl1 & Hsp1 & Hiff1 & Hsucc1).
    destruct (IH w1) as (rs & w2 & E2 & Hts & Hfs2 & Hden2 & Hsl2 & Hsp2 & Hiff2 & Hnth).
    exists (r :: rs), w2. cbn [mapM]. unfold bindM at 1. rewrite E1.
    unfold bindM at 1. rewrite E2. unfold ret.
    split; [reflexivity |]. split; [cbn; congruence |].
    split; [congruence |]. split; [congruence |]. split; [congruence |].
    split.
    { rewrite Hsp2, Hsp1. destruct (isDryRun env); cbn; rewrite <- ?app_assoc;
        reflexivity. }
    split; [now constructor |].
    intros [|i] t' Hi.
    + injection Hi as <-. exists r. cbn. rewrite app_nil_r. auto.
    + destruct (Hnth i t' Hi) as (r' & Hr' & Ht' & Hs'). exists r'.
      split; [exact Hr' |]. split; [exact Ht' |]. rewrite Hs', Hsp1.
      destruct (isDryRun env); [reflexivity |]. cbn. now rewrite <- app_assoc.
Qed.

Lemma find_map {A B} (p : B -> bool) (f : A -> B) (l : list A) :
  List.find p (map f l) = option_map f (List.find (fun x => p (f x)) l).
Proof.
  induction l as [|x xs IH]; [reflexivity |]. cbn. destruct (p (f x)); auto.
Qed.

Lemma waited_nil (w : World) : waited w [] 0 = w.
Proof.
  destruct w. unfold waited. cbn. now rewrite !app_nil_r, Nat.add_0_r.
Qed.

Lemma waited_waited (w : World) es n es' n' :
  waited (waited w es n) es' n' = waited w (es ++ es') (n + n').
Proof.
  unfold waited. cbn. now rewrite repeat_app, !app_assoc, Nat.add_assoc.
Qed.

(** One scan of a verification: the delay, the scan, and what it shows
    for the target. *)
Lemma verifyTarget_eval (env : Env) (detectedIDEs : list Detected) (t : Status)
  (expectedVersion : option json) (remaining attemptNo : nat) (w : World) :
  exists b n es,
    verifyTarget env detectedIDEs t expectedVersion remaining attemptNo w
    = (Ok b, waited w es n)
    /\ n <= remaining
    /\ (forall k, k < n - 1 ->
          matches env detectedIDEs t expectedVersion (scans w + k) = false)
    /\ (if b
        then 1 <= n /\ matches env detectedIDEs t expectedVersion (scans w + (n - 1)) = true
        else n = remaining
             /\ forall k, k < remaining ->
                  matches env detectedIDEs t expectedVersion (scans w + k) = false).
Proof.
  revert attemptNo w. induction remaining as [|remaining IH]; intros attemptNo w.
  - exists false, 0, []. cbn [verifyTarget]. unfold ret. rewrite waited_nil.
    repeat split; [lia | intros k Hk; lia | intros k Hk; lia].
  - cbn [verifyTarget]. unfold bindM at 1. unfold sleep at 1. cbv beta iota.
    unfold bindM at 1. unfold scanIDEs, bindM at 1. unfold count_scan at 1.
    cbv beta iota. unfold ret at 1. cbv beta iota.
    cbn [fs denied journal slept spawned requests scans].
    rewrite find_map. cbn [st_ide].
    pose proof (eq_refl (matches env detectedIDEs t expectedVersion (scans w))) as Hm.
    unfold matches at 1 in Hm.
    set (w1 := mkWorld _ _ _ _ _ _ _).
    assert (forall lvl msg, log lvl msg w1 = (Ok tt, waited w [(lvl, msg)] 1)) as Hlog.
    { intros lvl msg. unfold log, w1, waited. cbn. now rewrite Nat.add_1_r. }
    assert (forall lvl msg (b0 : bool),
              bindM (log lvl msg) (fun _ => ret b0) w1 = (Ok b0, waited w [(lvl, msg)] 1))
      as Hdone.
    { intros lvl msg b0. unfold bindM. rewrite (Hlog lvl msg). reflexivity. }
    assert (forall lvl msg,
              matches env detectedIDEs t expectedVersion (scans w) = false ->
              exists b n es,
                bindM (log lvl msg)
                  (fun _ => verifyTarget env detectedIDEs t expectedVersion remaining
                              (S attemptNo)) w1
                = (Ok b, waited w es n)
                /\ n <= S remaining
                /\ (forall k, k < n - 1 ->
                      matches env detectedIDEs t expectedVersion (scans w + k) = false)
                /\ (if b
                    then 1 <= n
                         /\ matches env detectedIDEs t expectedVersion (scans w + (n - 1))
                            = true
                    else n = S remaining
                         /\ forall k, k < S remaining ->
                              matches env detectedIDEs t expectedVersion (scans w + k)
                              = false)) as Hmore.
    { intros lvl msg Hmiss. unfold bindM. rewrite (Hlog lvl msg).
      destruct (IH (S attemptNo) (waited w [(lvl, msg)] 1))
        as (b & n & es & E & Hn & Hbefore & Hlast).
      cbn [scans waited] in Hbefore, Hlast.
      exists b, (1 + n), ([(lvl, msg)] ++ es). rewrite E, waited_waited.
      split; [reflexivity |]. split; [lia |]. split.
      - intros k Hk. destruct k as [|k]; [now rewrite Nat.add_0_r |].
        replace (scans w + S k) with (scans w + 1 + k) by lia. apply Hbefore. lia.
      - destruct b.
        + destruct Hlast as [H1 H2]. split; [lia |].
          replace (scans w + (1 + n - 1)) with (scans w + 1 + (n - 1)) by lia. exact H2.
        + destruct Hlast as [H1 H2]. split; [lia |].
          intros k Hk. destruct k as [|k]; [now rewrite Nat.add_0_r |].
          replace (scans w + S k) with (scans w + 1 + k) by lia. apply H2. lia. }
    destruct (List.find _ detectedIDEs) as [d|]; cbn [option_map].
    + cbn [st_version]. destruct (strictEq expectedVersion (scanned env (scans w) (ide d))).
      * rewrite Hdone. exists true, 1, [(success,
                                         Verified (name (st_config t))
                                           (default "" (scanned env (scans w) (ide d))))].
        split; [reflexivity |]. split; [lia |]. split; [intros k Hk; lia |].
        split; [lia |]. cbn. now rewrite Nat.add_0_r.
      * apply Hmore. now symmetry.
    + apply Hmore. now symmetry.
Qed.

Lemma verifyOne_eval (env : Env) (detectedIDEs : list Detected)
  (expectedVersion : option json) (t : Status) (w : World) :
  exists failures n es,
    verifyOne env detectedIDEs expectedVersion t w = (Ok failures, waited w es n)
    /\ 1 <= n <= verifyRetries
    /\ (forall k, k < n - 1 ->
          matches env detectedIDEs t expectedVersion (scans w + k) = false)
    /\ ((failures = []
         /\ matches env detectedIDEs t expectedVersion (scans w + (n - 1)) = true)
        \/ (failures = [t] /\ n = verifyRetries
            /\ matches env detectedIDEs t expectedVersion (scans w + (n - 1)) = false)).
Proof.
  unfold verifyOne, bindM at 1.
  destruct (verifyTarget_eval env detectedIDEs t expectedVersion verifyRetries 1 w)
    as (b & n & es & E & Hn & Hbefore & Hlast).
  rewrite E. destruct b.
  - destruct Hlast as [H1 H2]. exists [], n, es. unfold ret.
    split; [reflexivity |]. split; [lia |]. split; [exact Hbefore |]. now left.
  - destruct Hlast as [-> Hall].
    exists [t], verifyRetries, (es ++ [(error, VerifyFailed (name (st_config t)))]).
    unfold bindM, log, ret, waited. cbn. rewrite <- !app_assoc.
    split; [reflexivity |]. split; [unfold verifyRetries; lia |].
    split; [exact Hbefore |]. right. repeat split. apply Hall.
    unfold verifyRetries. lia.
Qed.

Lemma mapM_verifyOne (env : Env) (detectedIDEs : list Detected)
  (expectedVersion : option json) (targets : list Status) (w : World) :
  exists failures n es,
    mapM (verifyOne env detectedIDEs expectedVersion) targets w
    = (Ok failures, waited w es n)
    /\ sublist (concat failures) targets
    /\ List.length targets <= n <= verifyRetries * List.length targets
    /\ verifyRetries * List.length (concat failures) <= n.
Proof.
  revert w. induction targets as [|t rest IH]; intros w.
  - exists [], 0, []. cbn. unfold ret. rewrite waited_nil.
    repeat split; [constructor | lia..].
  - destruct (verifyOne_eval env detectedIDEs expectedVersion t w)
      as (f1 & n1 & es1 & E1 & Hn1 & _ & Hcase).
    destruct (IH (waited w es1 n1)) as (fs2 & n2 & es2 & E2 & Hsub & Hn2 & Hfail).
    exists (f1 :: fs2), (n1 + n2), (es1 ++ es2).
    cbn [mapM]. unfold bindM at 1. rewrite E1. unfold bindM at 1. rewrite E2.
    unfold ret. rewrite waited_waited. split; [reflexivity |].
    cbn [concat List.length]. unfold verifyRetries in *.
    destruct Hcase as [[-> _] | (-> & -> & _)]; cbn [app List.length].
    + split; [now constructor |]. split; lia.
    + split; [now constructor |]. split; lia.
Qed.

End InstallVerifyFacts.

(** ** The registry update as a whole *)

Module RegistryUpdateFacts.
Import Fanout Registry SysFacts.

Lemma filter_by_kept {A} (f : A -> result bool) (l r : list A) :
  JsArray.filter_by f l = Ok r -> Forall (fun x => f x = Ok true) r.
Proof.
  revert r. induction l as [|x xs IH]; intros r.
  - intros [= <-]. constructor.
  - cbn. destruct (f x) as [keep|] eqn:Hx; [| discriminate]. cbn.
    destruct (JsArray.filter_by f xs) as [r'|]; [| discriminate]. cbn.
    intros [= <-]. destruct keep; [constructor |]; auto.
Qed.

Lemma filter_by_again {A} (f : A -> result bool) (r : list A) (x : A) :
  Forall (fun y => f y = Ok true) r -> f x = Ok false ->
  JsArray.filter_by f (r ++ [x]) = Ok r.
Proof.
  intros Hr Hx. induction Hr as [|y r Hy _ IH]; cbn.
  - now rewrite Hx.
  - now rewrite Hy, IH.
Qed.

Lemma keepEntry_new (env : Env) (dir : string) :
  keepEntry (newExtensionEntry env dir) = Ok false.
Proof. reflexivity. Qed.

Lemma rewriteRegistry_shape (env : Env) (dir : string) (data r : json) :
  rewriteRegistry env dir data = Ok r ->
  exists items kept,
    data = JArr items /\ JsArray.filter_by keepEntry items = Ok kept
    /\ r = JArr (kept ++ [newExtensionEntry env dir]).
Proof.
  unfold rewriteRegistry, filterEntries.
  destruct data as [| | | |items|]; try discriminate.
  destruct (JsArray.filter_by keepEntry items) as [kept|] eqn:Hk; [| discriminate].
  intros [= <-]. eauto.
Qed.

End RegistryUpdateFacts.

(** ** Sorting by a numeric key *)

Module PriorityFacts.
Import Monitor DetectSpec.

Section ByKey.
Context {A : Type} (key : A -> Z).

Let cmp (a b : A) : comparison := Z.compare (key a) (key b).
Let R (a b : A) : Prop := (key a <= key b)%Z.

Lemma insert_with_perm (x : A) (l : list A) :
  Permutation (JsArray.insert_with cmp x l) (x :: l).
Proof.
  induction l as [|y ys IH]; [reflexivity |]. cbn.
  destruct (cmp x y); try reflexivity.
  rewrite IH. apply perm_swap.
Qed.

Lemma insert_with_sorted (x : A) (l : list A) :
  StronglySorted R l -> StronglySorted R (JsArray.insert_with cmp x l).
Proof.
  induction 1 as [|y ys Hs IH Hall]; [repeat constructor |]. cbn.
  unfold cmp at 1. destruct (Z.compare_spec (key x) (key y)) as [Heq | Hlt | Hgt].
  - constructor; [now constructor |]. constructor; [unfold R; lia |].
    eapply List.Forall_impl; [| exact Hall]. unfold R. intros z Hz. lia.
  - constructor; [now constructor |]. constructor; [unfold R; lia |].
    eapply List.Forall_impl; [| exact Hall]. unfold R. intros z Hz. lia.
  - constructor; [exact IH |].
    apply (Permutation_Forall (Permutation_sym (insert_with_perm x ys))).
    constructor; [unfold R; lia | exact Hall].
Qed.

Lemma sort_with_sorted (l : list A) :
  StronglySorted R (JsArray.sort_with cmp l) /\ Permutation (JsArray.sort_with cmp l) l.
Proof.
  induction l as [|x xs [IHs IHp]]; [split; [constructor | reflexivity] |].
  unfold JsArray.sort_with in *. cbn [fold_right]. split.
  - now apply insert_with_sorted.
  - rewrite insert_with_perm. now constructor.
Qed.

End ByKey.

End PriorityFacts.

(** ** Paths *)

Module PathFacts.

Lemma resolve_no_empty (st segs : list string) (abs : bool) :
  Forall (fun s => s <> ""%string) st ->
  Forall (fun s => s <> ""%string) (resolve st segs abs).
Proof.
  revert st. induction segs as [|seg rest IH]; intros st Hst; cbn [resolve].
  - apply Forall_rev. exact Hst.
  - destruct (String.eqb seg "" || String.eqb seg ".") eqn:He; [now apply IH |].
    assert (seg <> ""%string) as Hseg.
    { intros ->. discriminate. }
    destruct (String.eqb seg "..").
    + destruct st as [|top below].
      * destruct abs; apply IH; auto.
      * destruct (String.eqb top ".."); apply IH; auto.
        now inversion Hst.
    + apply IH. auto.
Qed.

Lemma concat_nonempty (segs : list string) :
  segs <> [] -> Forall (fun s => s <> ""%string) segs -> String.concat "/" segs <> ""%string.
Proof.
  destruct segs as [|x [|y l]]; [congruence | |]; intros _ H; inversion H; subst.
  - assumption.
  - cbn [String.concat]. destruct x; [congruence | discriminate].
Qed.

(** [path.join] never returns the empty string. *)
Lemma join_nonempty (parts : list string) : join parts <> ""%string.
Proof.
  unfold join.
  set (joined := String.concat "/" _).
  pose proof (resolve_no_empty [] (split "/" joined) (String.prefix "/" joined)
                (List.Forall_nil _)) as H.
  destruct (resolve [] (split "/" joined) (String.prefix "/" joined)) as [|x l] eqn:Hr.
  - destruct (String.prefix "/" joined); discriminate.
  - destruct (String.prefix "/" joined); [discriminate |].
    apply concat_nonempty; [discriminate | exact H].
Qed.

End PathFacts.

(** ** The scan of the detected IDEs *)

Module ScanModelFacts.
Import Monitor Scan ScanSpec StringFacts.



Lemma valid_nonempty (v : string) :
  truthy (Semver.valid v) = true -> truthy (Some v) = true.
Proof. destruct v; [vm_compute; discriminate | reflexivity]. Qed.






(** *** The pattern applied to the output of the list command *)

Lemma search_sound {A} (here : string -> option A) (s : string) (a : A) :
  Rx.search here s = Some a -> exists pre rest, s = pre +:+ rest /\ here rest = Some a.
Proof.
  induction s as [|c s IH]; cbn [Rx.search].
  - destruct (here "") eqn:H0; [| discriminate]. intros [= <-].
    now exists ""%string, ""%string.
  - destruct (here (String c s)) eqn:H0.
    + intros [= <-]. now exists ""%string, (String c s).
    + intros (pre & rest & -> & Hr)%IH. now exists (String c pre), rest.
Qed.

Lemma search_complete {A} (here : string -> option A) (pre rest : string) :
  is_Some (here rest) -> is_Some (Rx.search here (pre +:+ rest)).
Proof.
  intros Hr. induction pre as [|c pre IH].
  - change ("" +:+ rest) with rest. destruct Hr as [a Ha].
    destruct rest; cbn [Rx.search]; rewrite Ha; eauto.
  - change (String c pre +:+ rest) with (String c (pre +:+ rest)). cbn [Rx.search].
    destruct (here (String c (pre +:+ rest))); eauto.
Qed.

Lemma strip_char_spec c s r : strip_char c s = Some r -> s = String c r.
Proof.
  destruct s as [|x s]; [discriminate |]. cbn [strip_char].
  destruct (Ascii.eqb x c) eqn:E; [| discriminate].
  apply Ascii.eqb_eq in E as ->. now intros [= ->].
Qed.

Lemma digits_spec (s : string) :
  digits s = true -> s <> ""%string /\ all_chars is_digit s = true.
Proof.
  unfold digits. intros [Hn Hd]%andb_true_iff. split; [| exact Hd].
  intros ->. discriminate.
Qed.

Lemma listed_here_sound (s x : string) :
  listed_here s = Some x ->
  exists a b c post,
    x = (a +:+ "." +:+ b +:+ "." +:+ c) /\ s = (extensionId +:+ "@" +:+ x +:+ post)
    /\ digits a = true /\ digits b = true /\ digits c = true
    /\ stops is_digit post = true.
Proof.
  unfold listed_here.
  destruct (String.prefix _ s) eqn:Hp; [| discriminate].
  apply ScanFacts.prefix_split in Hp. revert Hp.
  generalize (drop (String.length (extensionId +:+ "@")) s). intros t Hs.
  destruct (span is_digit t) as [a r1] eqn:Ha.
  destruct (strip_char "." r1) as [r1'|] eqn:H1; [| discriminate].
  destruct (span is_digit r1') as [b r2] eqn:Hb.
  destruct (strip_char "." r2) as [r2'|] eqn:H2; [| discriminate].
  destruct (span is_digit r2') as [c post] eqn:Hc.
  destruct (negb (a =? "")%string && negb (b =? "")%string && negb (c =? "")%string) eqn:Hne;
    [| discriminate].
  intros [= <-]. exists a, b, c, post.
  apply andb_true_iff in Hne as [[Hna Hnb]%andb_true_iff Hnc].
  apply span_spec in Ha as (-> & Hda & _).
  apply span_spec in Hb as (-> & Hdb & _).
  apply span_spec in Hc as (-> & Hdc & Hstop).
  apply strip_char_spec in H1 as ->. apply strip_char_spec in H2 as ->.
  unfold digits. rewrite Hna, Hnb, Hnc, Hda, Hdb, Hdc.
  repeat split; try assumption.
  rewrite Hs. repeat first [rewrite append_assoc | progress cbn [String.append]].
  reflexivity.
Qed.

Lemma listed_here_exact (a b c post : string) :
  digits a = true -> digits b = true -> digits c = true ->
  stops is_digit post = true ->
  listed_here (extensionId +:+ "@" +:+ (a +:+ "." +:+ b +:+ "." +:+ c) +:+ post)
  = Some (a +:+ "." +:+ b +:+ "." +:+ c).
Proof.
  intros Ha Hb Hc Hpost.
  pose proof Ha as [Hna Hda]%andb_true_iff.
  pose proof Hb as [Hnb Hdb]%andb_true_iff.
  pose proof Hc as [Hnc Hdc]%andb_true_iff.
  unfold listed_here.
  replace (extensionId +:+ "@" +:+ (a +:+ "." +:+ b +:+ "." +:+ c) +:+ post)
    with ((extensionId +:+ "@") +:+ (a +:+ ("." +:+ b +:+ ("." +:+ c +:+ post))))
    by (rewrite !append_assoc; reflexivity).
  rewrite ScanFacts.prefix_app, ScanFacts.drop_app.
  rewrite (span_app is_digit a ("." +:+ b +:+ ("." +:+ c +:+ post)) Hda eq_refl).
  change (strip_char "." ("." +:+ b +:+ ("." +:+ c +:+ post)))
    with (Some (b +:+ ("." +:+ c +:+ post))). cbv iota.
  rewrite (span_app is_digit b ("." +:+ c +:+ post) Hdb eq_refl).
  change (strip_char "." ("." +:+ c +:+ post)) with (Some (c +:+ post)). cbv iota.
  rewrite (span_app is_digit c _ Hdc Hpost).
  rewrite Hna, Hnb, Hnc. reflexivity.
Qed.

Lemma span_total p (s : string) :
  exists a r, s = a +:+ r /\ all_chars p a = true /\ stops p r = true.
Proof.
  destruct (span p s) as [a r] eqn:H. exists a, r. now apply span_spec.
Qed.

Lemma listed_here_found (a b c post : string) :
  digits a = true -> digits b = true -> digits c = true ->
  is_Some (listed_here (extensionId +:+ "@" +:+ (a +:+ "." +:+ b +:+ "." +:+ c) +:+ post)).
Proof.
  intros Ha Hb Hc.
  destruct (span_total is_digit post) as (c' & post' & -> & Hd & Hstop).
  replace (extensionId +:+ "@" +:+ (a +:+ "." +:+ b +:+ "." +:+ c) +:+ c' +:+ post')
    with (extensionId +:+ "@" +:+ (a +:+ "." +:+ b +:+ "." +:+ (c +:+ c')) +:+ post')
    by (rewrite !append_assoc; reflexivity).
  rewrite listed_here_exact; eauto.
  apply digits_spec in Hc as [Hn Hdc]. unfold digits.
  rewrite all_chars_app, Hdc, Hd. destruct c; [congruence | reflexivity].
Qed.

End ScanModelFacts.

(** ** Joining paths *)

Module JoinFacts.
Import PathNotions.

Lemma resolve_stack st segs a : resolve st segs a = rev (stack st segs a).
Proof.
  revert st. induction segs as [|seg rest IH]; intros st; cbn [resolve stack]; [reflexivity |].
  destruct (_ || _); [apply IH |].
  destruct (String.eqb seg ".."); [| apply IH].
  destruct st as [|top below]; [destruct a; apply IH |].
  destruct (String.eqb top ".."); apply IH.
Qed.

Lemma stack_app st l1 l2 a : stack st (l1 ++ l2) a = stack (stack st l1 a) l2 a.
Proof.
  revert st. induction l1 as [|seg rest IH]; intros st; cbn [stack app]; [reflexivity |].
  destruct (_ || _); [apply IH |].
  destruct (String.eqb seg ".."); [| apply IH].
  destruct st as [|top below]; [destruct a; apply IH |].
  destruct (String.eqb top ".."); apply IH.
Qed.

Lemma join_unfold parts :
  join parts =
  let joined := String.concat "/" (List.filter (fun p => negb (String.eqb p "")) parts) in
  render (rev (stack [] (split "/" joined) (String.prefix "/" joined)))
         (String.prefix "/" joined).
Proof. unfold join, render. cbv zeta. now rewrite resolve_stack. Qed.

Lemma split_nonempty sep s : split sep s <> [].
Proof.
  destruct s as [|c s]; cbn [split]; [discriminate |].
  destruct (Ascii.eqb c sep); [discriminate |]. destruct (split sep s); discriminate.
Qed.

Lemma split_app (a b : string) :
  split "/" (a +:+ "/" +:+ b) = split "/" a ++ split "/" b.
Proof.
  induction a as [|c a IH].
  - reflexivity.
  - change (String c a +:+ "/" +:+ b) with (String c (a +:+ "/" +:+ b)).
    cbn [split]. rewrite IH. destruct (Ascii.eqb c "/"); [reflexivity |].
    pose proof (split_nonempty "/" a) as Hne.
    destruct (split "/" a) as [|x xs]; [congruence | reflexivity].
Qed.

Lemma split_slashfree (s : string) : slashfree s = true -> split "/" s = [s].
Proof.
  induction s as [|c s IH]; [reflexivity |].
  cbn [slashfree all_chars split]. intros [Hc Hs]%andb_true_iff.
  apply negb_true_iff in Hc. rewrite Hc. unfold slashfree in IH. rewrite (IH Hs).
  reflexivity.
Qed.

Lemma split_concat (segs : list string) :
  segs <> [] -> forallb slashfree segs = true ->
  split "/" (String.concat "/" segs) = segs.
Proof.
  induction segs as [|x l IH]; [congruence |]. intros _ H.
  cbn [forallb] in H. apply andb_true_iff in H as [Hx Hl].
  destruct l as [|y l]; [now apply split_slashfree |].
  change (String.concat "/" (x :: y :: l)) with (x +:+ "/" +:+ String.concat "/" (y :: l)).
  rewrite split_app, (split_slashfree _ Hx), IH; [reflexivity | discriminate | exact Hl].
Qed.

Lemma split_parts_slashfree (s : string) : forallb slashfree (split "/" s) = true.
Proof.
  induction s as [|c s IH]; [reflexivity |]. cbn [split].
  destruct (Ascii.eqb c "/") eqn:Hc; [exact IH |].
  pose proof (split_nonempty "/" s) as Hne.
  destruct (split "/" s) as [|x xs]; [congruence |].
  cbn [forallb] in *. apply andb_true_iff in IH as [Hx Hxs].
  cbn [slashfree all_chars]. rewrite Hc. cbn [negb andb].
  unfold slashfree in Hx. now rewrite Hx, Hxs.
Qed.

Lemma plain_spec (s : string) :
  plain s = true ->
  slashfree s = true /\ String.eqb s "" = false /\ String.eqb s "." = false
  /\ String.eqb s ".." = false.
Proof.
  unfold plain. intros [[[H1 H2]%andb_true_iff H3]%andb_true_iff H4]%andb_true_iff.
  apply negb_true_iff in H2, H3, H4. auto.
Qed.

Lemma stack_push (st rest : list string) (seg : string) (a : bool) :
  plain seg = true -> stack st (seg :: rest) a = stack (seg :: st) rest a.
Proof.
  intros (_ & H1 & H2 & H3)%plain_spec. cbn [stack]. now rewrite H1, H2, H3.
Qed.

Lemma stack_pop (st rest : list string) (top : string) (a : bool) :
  plain top = true -> stack (top :: st) (".." :: rest) a = stack st rest a.
Proof.
  intros (_ & H1 & H2 & H3)%plain_spec. cbn [stack].
  change (String.eqb ".." "" || String.eqb ".." ".") with false.
  change (String.eqb ".." "..") with true. cbv iota. now rewrite H3.
Qed.

Lemma dots_spec (l : list string) :
  forallb (String.eqb "..") l = true -> l = repeat ".."%string (List.length l).
Proof.
  induction l as [|x l IH]; [reflexivity |]. cbn [forallb].
  intros [Hx Hl]%andb_true_iff. apply String.eqb_eq in Hx as <-.
  cbn [List.length repeat]. now rewrite <- IH.
Qed.

Lemma normal_stack (a : bool) (st segs : list string) :
  normal a st = true -> forallb slashfree segs = true ->
  normal a (stack st segs a) = true.
Proof.
  revert st. induction segs as [|seg rest IH]; intros st Hst Hsegs; [exact Hst |].
  cbn [forallb] in Hsegs. apply andb_true_iff in Hsegs as [Hseg Hrest].
  cbn [stack].
  destruct (String.eqb seg "" || String.eqb seg ".") eqn:He; [now apply IH |].
  apply orb_false_iff in He as [He1 He2].
  destruct (String.eqb seg "..") eqn:Hd.
  - apply String.eqb_eq in Hd as ->.
    destruct st as [|top below].
    + destruct a; apply IH; auto.
    + cbn [normal] in Hst. destruct (String.eqb top "..") eqn:Ht.
      * apply IH; [| exact Hrest]. cbn [normal].
        change (String.eqb ".." "..") with true. cbv iota.
        apply andb_true_iff in Hst as [Ha Hb]. rewrite Ha. cbn [forallb andb].
        rewrite String.eqb_sym, Ht. exact Hb.
      * apply andb_true_iff in Hst as [_ Hb]. now apply IH.
  - apply IH; [| exact Hrest]. cbn [normal]. rewrite Hd.
    unfold plain. now rewrite Hseg, He1, He2, Hd, Hst.
Qed.

(** Resolving the segments of a resolved path again changes nothing. *)
Lemma stack_rev_normal (a : bool) (st : list string) :
  normal a st = true -> stack [] (rev st) a = st.
Proof.
  induction st as [|top below IH]; [reflexivity |].
  cbn [normal rev]. rewrite stack_app.
  destruct (String.eqb top "..") eqn:Ht.
  - intros [Ha Hb]%andb_true_iff. apply String.eqb_eq in Ht as ->.
    apply negb_true_iff in Ha as ->.
    assert (normal false below = true) as Hn.
    { clear IH. destruct below as [|x l]; [reflexivity |]. cbn [normal].
      cbn [forallb] in Hb. apply andb_true_iff in Hb as [Hx Hl].
      rewrite String.eqb_sym, Hx. exact Hl. }
    rewrite (IH Hn). destruct below as [|x l]; [reflexivity |].
    cbn [forallb] in Hb. apply andb_true_iff in Hb as [Hx _].
    apply String.eqb_eq in Hx as <-. reflexivity.
  - intros [Hp Hn]%andb_true_iff. rewrite (IH Hn). now rewrite stack_push.
Qed.

Lemma normal_head (a : bool) (st : list string) (x : string) (l : list string) :
  normal a st = true -> rev st = x :: l ->
  forallb slashfree (x :: l) = true /\ exists c x', x = String c x' /\ Ascii.eqb c "/" = false.
Proof.
  intros Hn Hrev.
  assert (forall s, In s st -> slashfree s = true /\ s <> ""%string) as Hall.
  { clear Hrev. induction st as [|top below IH]; [intros s []|].
    cbn [normal] in Hn. destruct (String.eqb top "..") eqn:Ht.
    - apply andb_true_iff in Hn as [_ Hb]. apply String.eqb_eq in Ht as ->.
      apply dots_spec in Hb. intros s [<- | Hs]; [split; [reflexivity | discriminate] |].
      rewrite Hb in Hs. apply repeat_spec in Hs as ->. split; [reflexivity | discriminate].
    - apply andb_true_iff in Hn as [Hp Hn].
      intros s [<- | Hs]; [| now apply IH].
      apply plain_spec in Hp as (H1 & H2 & _). split; [exact H1 |].
      intros ->. discriminate. }
  assert (forall s, In s (x :: l) -> In s st) as Hin.
  { intros s Hs. rewrite <- Hrev in Hs. now apply in_rev in Hs. }
  split.
  - apply forallb_forall. intros s Hs. now apply Hall, Hin.
  - destruct (Hall x (Hin x (or_introl eq_refl))) as [Hsf Hne].
    destruct x as [|c x']; [congruence |]. exists c, x'. split; [reflexivity |].
    cbn [slashfree all_chars] in Hsf. apply andb_true_iff in Hsf as [Hc _].
    now apply negb_true_iff in Hc.
Qed.

Lemma prefix_slash (c : ascii) (s : string) :
  String.prefix "/" (String c s) = Ascii.eqb c "/".
Proof.
  cbn [String.prefix]. destruct (ascii_dec "/" c) as [<- | Hne].
  - now destruct s.
  - symmetry. apply Ascii.eqb_neq. congruence.
Qed.

(** What [join] wrote is read back as it was resolved, also when more
    segments follow. *)
Lemma render_read (a : bool) (st : list string) (more : string) :
  normal a st = true ->
  stack [] (split "/" (render (rev st) a)) a = st
  /\ String.prefix "/" (render (rev st) a +:+ more) = a
  /\ render (rev st) a <> ""%string.
Proof.
  intros Hn. pose proof (stack_rev_normal a st Hn) as Hrev.
  unfold render. destruct (rev st) as [|x l] eqn:Hst.
  - assert (st = []) as ->.
    { destruct st as [|y st]; [reflexivity |]. cbn [rev] in Hst.
      destruct (rev st); discriminate. }
    destruct a; (split; [reflexivity | split; [apply prefix_slash | discriminate]]).
  - destruct (normal_head a st x l Hn Hst) as (Hsf & c & x' & -> & Hc).
    destruct a.
    + split; [| split; [apply prefix_slash | discriminate]].
      change (split "/" ("/" ++ String.concat "/" (String c x' :: l)))
        with (""%string :: split "/" (String.concat "/" (String c x' :: l))).
      rewrite split_concat; [| discriminate | exact Hsf].
      cbn [stack]. change (String.eqb "" "" || String.eqb "" ".") with true. cbv iota.
      exact Hrev.
    + rewrite split_concat; [| discriminate | exact Hsf].
      split; [exact Hrev |].
      destruct l as [|y l].
      * cbn [String.concat]. split; [| discriminate].
        change (String c x' +:+ more) with (String c (x' +:+ more)).
        now rewrite prefix_slash.
      * change (String.concat "/" (String c x' :: y :: l))
          with (String c (x' +:+ "/" +:+ String.concat "/" (y :: l))).
        split; [| discriminate].
        change (String c ?s +:+ more) with (String c (s +:+ more)).
        match goal with |- String.prefix "/" (String c ?s) = _ => rewrite (prefix_slash c s) end.
        exact Hc.
Qed.

Lemma concat_app (l1 l2 : list string) :
  l1 <> [] -> l2 <> [] ->
  String.concat "/" (l1 ++ l2) = String.concat "/" l1 +:+ "/" +:+ String.concat "/" l2.
Proof.
  intros H1 H2. induction l1 as [|x l IH]; [congruence |].
  destruct l as [|y l].
  - destruct l2 as [|z l2]; [congruence | reflexivity].
  - change (String.concat "/" ((x :: y :: l) ++ l2))
      with (x +:+ "/" +:+ String.concat "/" ((y :: l) ++ l2)).
    rewrite IH by discriminate.
    change (String.concat "/" (x :: y :: l)) with (x +:+ "/" +:+ String.concat "/" (y :: l)).
    now rewrite !StringFacts.append_assoc.
Qed.

Lemma filter_nonempty (parts : list string) :
  Forall (fun s => s <> ""%string) (List.filter nonempty parts).
Proof.
  apply List.Forall_forall. intros s [_ Hs]%List.filter_In. intros ->. discriminate.
Qed.

Lemma prefix_app_nonempty (s more : string) :
  s <> ""%string -> String.prefix "/" (s +:+ more) = String.prefix "/" s.
Proof.
  destruct s as [|c s]; [congruence |]. intros _.
  change (String c s +:+ more) with (String c (s +:+ more)).
  now rewrite !prefix_slash.
Qed.

Lemma join_normal (joined : string) (a : bool) :
  normal a (stack [] (split "/" joined) a) = true.
Proof. apply normal_stack; [reflexivity | apply split_parts_slashfree]. Qed.

(** [path.join] of a joined path and further parts is the join of all
    the parts. *)
Lemma join_join (parts rest : list string) :
  List.filter nonempty parts <> [] ->
  join (join parts :: rest) = join (parts ++ rest).
Proof.
  intros Hparts.
  rewrite (join_unfold (join parts :: rest)), (join_unfold (parts ++ rest)). cbv zeta.
  change (fun p : string => negb (String.eqb p "")) with nonempty.
  rewrite List.filter_app. cbn [List.filter].
  pose proof (join_unfold parts) as HP. cbv zeta in HP.
  change (fun p : string => negb (String.eqb p "")) with nonempty in HP.
  set (J0 := String.concat "/" (List.filter nonempty parts)) in *.
  set (a := String.prefix "/" J0) in *.
  pose proof (join_normal J0 a) as Hn.
  set (st0 := stack [] (split "/" J0) a) in *.
  assert (J0 <> ""%string) as HJ0
    by (apply PathFacts.concat_nonempty; [exact Hparts | apply filter_nonempty]).
  assert (nonempty (join parts) = true) as ->.
  { unfold nonempty. apply negb_true_iff, String.eqb_neq, PathFacts.join_nonempty. }
  rewrite HP.
  destruct (List.filter nonempty rest) as [|r rs].
  - rewrite app_nil_r. cbn [String.concat].
    destruct (render_read a st0 "" Hn) as (Hread & Habs & _).
    rewrite StringFacts.append_nil_r in Habs. fold J0. fold a.
    now rewrite Habs, Hread.
  - change (String.concat "/" (render (rev st0) a :: r :: rs))
      with (render (rev st0) a +:+ "/" +:+ String.concat "/" (r :: rs)).
    rewrite concat_app by (assumption || discriminate). fold J0.
    destruct (render_read a st0 ("/" +:+ String.concat "/" (r :: rs)) Hn)
      as (Hread & Habs & _).
    rewrite Habs, (prefix_app_nonempty J0 _ HJ0). fold a.
    rewrite !split_app, !stack_app, Hread. reflexivity.
Qed.

(** A name followed by [..] among the parts cancels out. *)
Lemma join_cancel (l1 l2 : list string) (d : string) :
  List.filter nonempty l1 <> [] -> plain d = true ->
  join (l1 ++ d :: ".." :: l2) = join (l1 ++ l2).
Proof.
  intros Hl1 Hd.
  rewrite (join_unfold (l1 ++ d :: ".." :: l2)), (join_unfold (l1 ++ l2)). cbv zeta.
  change (fun p : string => negb (String.eqb p "")) with nonempty.
  rewrite !List.filter_app. cbn [List.filter].
  pose proof (plain_spec d Hd) as (Hsf & Hne & _).
  assert (nonempty d = true) as -> by (unfold nonempty; now rewrite Hne).
  change (nonempty "..") with true. cbv iota.
  set (L1 := List.filter nonempty l1) in *.
  assert (String.concat "/" L1 <> ""%string) as HJ1
    by (apply PathFacts.concat_nonempty; [exact Hl1 | apply filter_nonempty]).
  rewrite (concat_app L1 (d :: ".." :: _)) by (assumption || discriminate).
  rewrite (prefix_app_nonempty _ _ HJ1).
  set (a := String.prefix "/" (String.concat "/" L1)).
  assert (forall st, stack st (split "/" d ++ [".."%string]) a = st) as Hcancel.
  { intros st. rewrite (split_slashfree d Hsf). cbn [app].
    rewrite (stack_push st _ d a Hd). now rewrite stack_pop. }
  destruct (List.filter nonempty l2) as [|r rs].
  - rewrite app_nil_r.
    change (String.concat "/" [d; ".."%string]) with (d +:+ "/" +:+ "..").
    rewrite !split_app, !stack_app. fold a.
    change (split "/" "..") with [".."%string].
    rewrite <- (stack_app _ (split "/" d) [".."%string]), Hcancel. reflexivity.
  - rewrite (concat_app L1 (r :: rs)) by (assumption || discriminate).
    rewrite (prefix_app_nonempty _ _ HJ1). fold a.
    change (String.concat "/" (d :: ".."%string :: r :: rs))
      with (d +:+ "/" +:+ (".." +:+ "/" +:+ String.concat "/" (r :: rs))).
    rewrite !split_app, !stack_app.
    change (split "/" "..") with [".."%string].
    rewrite <- (stack_app _ (split "/" d) [".."%string]), Hcancel. reflexivity.
Qed.

End JoinFacts.

(** ** The Cursor profiles *)

Module ProfileFacts.
Import PathNotions JoinFacts Fanout Profiles.

Lemma base_nonempty (home : string) (l : list string) :
  List.filter nonempty (home :: "AppData"%string :: l) <> [].
Proof. cbn [List.filter]. destruct (nonempty home); discriminate. Qed.

Lemma profile_paths (home d : string) :
  plain d = true ->
  join [cursorProfilesPath home; d]
  = join [home; "AppData"; "Roaming"; "Cursor"; "User"; "profiles"; d]
  /\ join [join [cursorProfilesPath home; d]; ".."; ".."; ".."; ".cursor"; "extensions"]
     = join [home; "AppData"; "Roaming"; "Cursor"; ".cursor"; "extensions"].
Proof.
  intros Hd. unfold cursorProfilesPath.
  assert (join [join [home; "AppData"; "Roaming"; "Cursor"; "User"; "profiles"]; d]
          = join [home; "AppData"; "Roaming"; "Cursor"; "User"; "profiles"; d]) as Hp
    by (apply (join_join [home; "AppData"; "Roaming"; "Cursor"; "User"; "profiles"] [d]),
          base_nonempty).
  split; [exact Hp |]. rewrite Hp.
  pose proof (join_join [home; "AppData"; "Roaming"; "Cursor"; "User"; "profiles"; d]
                [".."; ".."; ".."; ".cursor"; "extensions"] (base_nonempty _ _)) as H0.
  pose proof (join_cancel [home; "AppData"; "Roaming"; "Cursor"; "User"; "profiles"]
                [".."; ".."; ".cursor"; "extensions"] d (base_nonempty _ _) Hd) as H1.
  pose proof (join_cancel [home; "AppData"; "Roaming"; "Cursor"; "User"]
                [".."; ".cursor"; "extensions"] "profiles" (base_nonempty _ _) eq_refl)
    as H2.
  pose proof (join_cancel [home; "AppData"; "Roaming"; "Cursor"]
                [".cursor"; "extensions"] "User" (base_nonempty _ _) eq_refl) as H3.
  cbn [app] in H0, H1, H2, H3. now rewrite H0, H1, H2, H3.
Qed.

Lemma getCursorProfiles_member home text f p :
  In p (fst (getCursorProfiles home text f)) ->
  exists entries,
    f !! cursorProfilesPath home = Some (Dir entries)
    /\ In (profile_name p) entries
    /\ isDirectory f (cursorProfilesPath home) (profile_name p) = true
    /\ profile_path p = join [cursorProfilesPath home; profile_name p]
    /\ is_Some (f !! extensionsJsonPath p).
Proof.
  unfold getCursorProfiles.
  destruct (f !! cursorProfilesPath home) as [[data | entries]|]; cbn [fst]; try (intros []).
  intros Hin. exists entries. split; [reflexivity |].
  apply list_elem_of_In, list_elem_of_omap in Hin as (d & Hd & Hp).
  apply list_elem_of_In, List.filter_In in Hd as [Hd Hdir].
  unfold profileAt in Hp. destruct (bool_decide _) eqn:He; [| discriminate].
  injection Hp as <-. cbn [profile_name profile_path]. unfold extensionsJsonPath.
  cbn [profile_path]. apply bool_decide_eq_true in He. auto.
Qed.

End ProfileFacts.

(** ** The footprint of the fan-out *)

Module FootprintFacts.
Import Frame PreservesFacts Fanout FanoutSpec.

Section Apart.
Context (S : list string).

Lemma apart_refl (w : World) : apart S w w.
Proof. repeat split. Qed.

Lemma apart_trans (w1 w2 w3 : World) : apart S w1 w2 -> apart S w2 w3 -> apart S w1 w3.
Proof.
  intros (Ha & ? & ? & ?) (Hb & ? & ? & ?). repeat split; try congruence.
  intros path Hp. now rewrite Hb, Ha.
Qed.

Lemma apart_log lvl msg : preserves (apart S) (log lvl msg).
Proof. intros w r w' [= <- <-]. repeat split. Qed.

Lemma apart_write (p : string) (n : Node) (w : World) :
  In p S ->
  apart S w (mkWorld (<[p := n]> (fs w)) (denied w) (journal w) (slept w) (spawned w)
                     (requests w) (scans w)).
Proof.
  intros Hp. repeat split. intros path Hpath. cbn [fs].
  apply lookup_insert_ne. intros <-. contradiction.
Qed.

Lemma apart_delete (p : string) (w : World) :
  In p S ->
  apart S w (mkWorld (delete p (fs w)) (denied w) (journal w) (slept w) (spawned w)
                     (requests w) (scans w)).
Proof.
  intros Hp. repeat split. intros path Hpath. cbn [fs].
  apply lookup_delete_ne. intros <-. contradiction.
Qed.

Lemma apart_mkdirSync (p : string) : In p S -> preserves (apart S) (mkdirSync p).
Proof.
  intros Hp w r w'. unfold mkdirSync, bindM, guard_denied, get_world, set_fs, ret, throw.
  destruct (bool_decide _); [intros [= <- <-]; apply apart_refl |].
  destruct (fs w !! p) as [[|]|]; intros [= <- <-];
    first [apply apart_refl | now apply apart_write].
Qed.

Lemma apart_rmSync (p : string) : In p S -> preserves (apart S) (rmSync p).
Proof.
  intros Hp w r w'. unfold rmSync, bindM, guard_denied, get_world, set_fs.
  destruct (bool_decide _); intros [= <- <-]; [apply apart_refl | now apply apart_delete].
Qed.

Lemma apart_writeFileSync (p : string) (d : FileData) :
  In p S -> preserves (apart S) (writeFileSync p d).
Proof.
  intros Hp w r w'. unfold writeFileSync, bindM, guard_denied, get_world, set_fs.
  destruct (bool_decide _); intros [= <- <-]; [apply apart_refl | now apply apart_write].
Qed.

Lemma apart_readJson (p : string) : preserves (apart S) (readJson p).
Proof.
  intros w r w'. unfold readJson, bindM, get_world, ret, throw.
  destruct (fs w !! p) as [[[]|]|]; intros [= <- <-]; apply apart_refl.
Qed.

Lemma apart_readdirSync (p : string) : preserves (apart S) (readdirSync p).
Proof.
  intros w r w'. unfold readdirSync, bindM, get_world, ret, throw.
  destruct (fs w !! p) as [[|]|]; intros [= <- <-]; apply apart_refl.
Qed.

Lemma apart_copyDirectory (source target : string) :
  In target S -> preserves (apart S) (copyDirectory source target).
Proof.
  intros Ht. unfold copyDirectory.
  apply (preserves_bind _ apart_trans); [apply (preserves_get_world _ apart_refl) |].
  intros w0. destruct (fs w0 !! source) as [[|entries]|].
  - apply (preserves_bind _ apart_trans); [now apply apart_mkdirSync | intros _].
    apply (preserves_throw _ apart_refl).
  - apply (preserves_bind _ apart_trans); [now apply apart_mkdirSync | intros _].
    apply (preserves_bind _ apart_trans).
    { intros w r w'. unfold guard_denied. destruct (bool_decide _);
        intros [= <- <-]; apply apart_refl. }
    intros _. intros w r w'. unfold bindM, get_world, set_fs. intros [= <- <-].
    now apply apart_write.
  - apply (preserves_throw _ apart_refl).
Qed.

Lemma apart_updateProfileExtensionsJson env profile dir :
  In (extensionsJsonPath profile) S ->
  preserves (apart S) (updateProfileExtensionsJson env profile dir).
Proof.
  intros Hp. unfold updateProfileExtensionsJson.
  apply (preserves_try_catch _ apart_trans); [| intros msg; apply apart_log].
  apply (preserves_bind _ apart_trans); [apply (preserves_existsSync _ apart_refl) |].
  intros present. apply preserves_if; [now apply apart_writeFileSync |].
  apply (preserves_bind _ apart_trans); [apply apart_readJson | intros data].
  apply (preserves_bind _ apart_trans); [apply (preserves_lift _ apart_refl) | intros r].
  now apply apart_writeFileSync.
Qed.

Lemma apart_copyToProfile env source dir profile :
  (forall p, In p (written dir profile) -> In p S) ->
  preserves (apart S) (copyToProfile env source dir profile).
Proof.
  intros Hw. unfold copyToProfile.
  assert (In (profileExtensionsPath profile) S) as H1 by (apply Hw; cbn; auto).
  assert (In (join [profileExtensionsPath profile; dir]) S) as H2 by (apply Hw; cbn; auto).
  assert (In (extensionsJsonPath profile) S) as H3 by (apply Hw; cbn; auto).
  apply (preserves_try_catch _ apart_trans); [| intros msg; apply apart_log].
  apply (preserves_bind _ apart_trans); [apply (preserves_existsSync _ apart_refl) |].
  intros present.
  apply (preserves_bind _ apart_trans).
  { apply preserves_if; [now apply apart_mkdirSync | apply (preserves_ret _ apart_refl)]. }
  intros _.
  apply (preserves_bind _ apart_trans); [apply (preserves_existsSync _ apart_refl) |].
  intros stale.
  apply (preserves_bind _ apart_trans).
  { apply preserves_if; [now apply apart_rmSync | apply (preserves_ret _ apart_refl)]. }
  intros _.
  apply (preserves_bind _ apart_trans); [now apply apart_copyDirectory | intros _].
  apply (preserves_bind _ apart_trans);
    [now apply apart_updateProfileExtensionsJson | intros _].
  apply apart_log.
Qed.

End Apart.

Lemma apart_forEach {A} (S : list string) (f : A -> M unit) (l : list A) :
  (forall x, In x l -> preserves (apart S) (f x)) ->
  preserves (apart S) (forEach f l).
Proof.
  induction l as [|x xs IH]; intros Hf; [apply (preserves_ret _ (apart_refl S)) |].
  apply (preserves_bind _ (apart_trans S)); [apply Hf; now left | intros _].
  apply IH. intros y Hy. apply Hf. now right.
Qed.

(** The fan-out never throws and touches no path outside its
    footprint. *)
Lemma apart_copyExtensionToAllProfiles env profiles w :
  fst (copyExtensionToAllProfiles env profiles w) = Ok tt
  /\ apart (footprint env profiles (fs w)) w
       (snd (copyExtensionToAllProfiles env profiles w)).
Proof.
  set (S := footprint env profiles (fs w)).
  unfold copyExtensionToAllProfiles, try_catch, existsSync, readdirSync.
  unfold bindM, get_world, ret, throw. cbv beta iota.
  destruct (fs w !! defaultExtensionsPath env) as [[data | entries]|] eqn:Hdir.
  - rewrite bool_decide_eq_true_2 by eauto. cbn [negb]. cbv beta iota. rewrite Hdir.
    cbn [fst snd log]. split; [reflexivity |]. repeat split.
  - rewrite bool_decide_eq_true_2 by eauto. cbn [negb]. cbv beta iota. rewrite Hdir.
    destruct (_ =? 0)%nat.
    + cbn [fst snd log]. split; [reflexivity |]. repeat split.
    + destruct (latestExtensionDir entries) as [dir|] eqn:Hlatest.
      * pose (w0 := mkWorld (fs w) (denied w) (journal w ++ [(info, FoundExtension dir)])
                      (slept w) (spawned w) (requests w) (scans w)).
        change (log info (FoundExtension dir) w) with (Ok tt, w0). cbv beta iota.
        assert (preserves (apart S)
                  (forEach (copyToProfile env (join [defaultExtensionsPath env; dir]) dir)
                     profiles)) as Hloop.
        { apply apart_forEach. intros p Hp. apply apart_copyToProfile.
          intros q Hq. unfold S, footprint. rewrite Hdir, Hlatest.
          apply in_flat_map. eauto. }
        destruct (FanoutFacts.forEach_copyToProfile env
                    (join [defaultExtensionsPath env; dir]) dir profiles w0)
          as (w1 & es & (Heq & _) & _).
        rewrite Heq. cbn [fst snd]. split; [reflexivity |].
        apply (apart_trans S _ w0); [repeat split | exact (Hloop _ _ _ Heq)].
      * cbn [fst snd log]. split; [reflexivity |]. repeat split.
  - rewrite bool_decide_eq_false_2 by (intros [x [=]]). cbn [negb fst snd log].
    split; [reflexivity |]. repeat split.
Qed.

End FootprintFacts.

(** ** The folder read of the second revision *)

Module Revision2Facts.
Import Monitor.

Lemma old_below_new (env : Env) (f : gmap string Node) (v : string) :
  fst (Revision2.getVSCodeExtensionVersion env f) = Some v ->
  exists w c,
    match extensionFolder env "vscode" with
    | Ok dir => getExtensionVersionFromDir (Scan.dirState f dir) extensionId
    | Throw _ => None
    end = Some w /\ Semver.compare v w = Ok c /\ c <> Gt.
Proof.
  unfold Revision2.getVSCodeExtensionVersion, extensionFolder.
  change (String.eqb "vscode" "cursor") with false.
  change (String.eqb "vscode" "vscode") with true. cbv iota.
  destruct (or_else _ _) as [homeDir|]; [| discriminate].
  unfold Scan.dirState.
  destruct (f !! join [homeDir; ".vscode"; "extensions"]) as [[data | entries]|];
    try discriminate.
  destruct (List.find _ entries) as [folder|] eqn:Hfind; [| discriminate].
  apply List.find_some in Hfind as [Hin Hstarts].
  destruct (truthy (Some folder)); [| discriminate].
  destruct (truthy (Semver.valid _)) eqn:Hvalid; [| discriminate].
  intros [= <-].
  set (v := replace_first_empty folder "augment.vscode-augment-") in *.
  assert (In v (candidateVersions entries extensionId)) as Hcand.
  { unfold candidateVersions. apply List.filter_In. split; [| exact Hvalid].
    apply List.in_map_iff. exists folder. split; [reflexivity |].
    apply List.filter_In. split; [exact Hin | exact Hstarts]. }
  pose proof (ScanFacts.candidateVersions_valid entries extensionId) as Hv.
  destruct (ScanFacts.sort_rcompare_head _ Hv) as (l & Hl & Hp & Hh).
  unfold getExtensionVersionFromDir. rewrite Hl.
  assert ((0 <? List.length
                  (List.filter (fun folder => startsWith folder (folderPrefix extensionId))
                     entries))%nat = true) as ->.
  { apply Nat.ltb_lt.
    assert (In folder (List.filter (fun folder => startsWith folder (folderPrefix extensionId))
                         entries)) as Hf
      by (apply List.filter_In; split; [exact Hin | exact Hstarts]).
    destruct (List.filter _ entries); [destruct Hf | cbn; lia]. }
  destruct l as [|h t].
  - apply Permutation_sym, Permutation_nil in Hp. rewrite Hp in Hcand. destruct Hcand.
  - exists h, (Precedence.precedence v h). split; [reflexivity |].
    split; [| now apply Hh].
    apply PrecedenceFacts.compare_valid; [exact Hvalid |].
    rewrite List.Forall_forall in Hv. apply Hv.
    apply (Permutation_in _ (Permutation_sym Hp)). now left.
Qed.

End Revision2Facts.

(** ** The run that has nothing to do *)

Module QuietRunFacts.
Import Monitor DetectSpec DetectFacts VersionTable QuietSpec Frame.

Lemma detectAvailableIDEs_eval (env : Env) (table : list (string * Config)) (w : World) :
  exists es,
    detectAvailableIDEs env table w
    = (match omap (detects (extensionFolder env) env (fs w)) table with
       | [] => Throw "No supported IDE found (Cursor or VS Code)"
       | found => Ok (JsArray.sort_with byPriority found)
       end, logged w es).
Proof.
  unfold detectAvailableIDEs. unfold bindM at 1. unfold log at 1. cbv beta iota.
  set (w1 := mkWorld _ _ _ _ _ _ _).
  destruct (collectAvailable_eval env table w1) as [es Hloop].
  change (fs w1) with (fs w) in Hloop.
  unfold bindM at 1. rewrite Hloop. rewrite sort_with_length.
  destruct (omap _ table) as [|d found].
  - exists ((info, DetectingIDEs) :: es). cbn [List.length Nat.eqb]. unfold throw.
    f_equal. unfold logged, w1. cbn [fs denied journal slept spawned requests scans].
    now rewrite <- app_assoc.
  - cbn [List.length Nat.eqb]. unfold bindM, log, ret.
    eexists ((info, DetectingIDEs) :: es ++ [_]). f_equal.
    unfold logged, w1. cbn [fs denied journal slept spawned requests scans].
    now rewrite <- !app_assoc.
Qed.

Lemma current_status (latest v : string) (i : string) (c : Config) (cmd : string) :
  current latest v = true ->
  comparable latest (mkStatus i c cmd (Some v)) = true
  /\ older latest (mkStatus i c cmd (Some v)) = false.
Proof.
  unfold current, comparable, older, reports. cbn [st_version].
  intros [[Hl Hv]%andb_true_iff Hp]%andb_true_iff.
  rewrite (ScanModelFacts.valid_nonempty _ Hv), Hl, Hv.
  split; [reflexivity |]. destruct (Precedence.precedence latest v); congruence.
Qed.

Lemma current_table (env : Env) (n : nat) (latest : string) (ds : list Detected) :
  (forall i, exists v, scanned env n i = Some v /\ current latest v = true) ->
  anyOutdated (Some (JStr latest))
    (map (fun d => mkStatus (ide d) (config d) (command d) (scanned env n (ide d))) ds)
  = Ok false.
Proof.
  intros Hcur.
  assert (forallb (comparable latest)
            (map (fun d => mkStatus (ide d) (config d) (command d)
                             (scanned env n (ide d))) ds) = true
          /\ existsb (older latest)
               (map (fun d => mkStatus (ide d) (config d) (command d)
                                (scanned env n (ide d))) ds) = false) as [Hc Ho].
  { induction ds as [|d ds IH]; [split; reflexivity |].
    cbn [map forallb existsb]. destruct IH as [-> ->].
    destruct (Hcur (ide d)) as (v & -> & Hv).
    destruct (current_status latest v (ide d) (config d) (command d) Hv) as [-> ->].
    split; reflexivity. }
  pose proof (TableFacts.anyOutdated_eval latest
                (map (fun d => mkStatus (ide d) (config d) (command d)
                                 (scanned env n (ide d))) ds)) as H.
  now rewrite Hc, Ho in H.
Qed.

Lemma quiet_run (env : Env) (w : World) (latest : string) :
  isCronMode env = true -> forced env = false ->
  ResolveSpec.primaryFails env = false ->
  ResolveSpec.primaryVersion env = Some (JStr latest) ->
  (forall i, exists v, scanned env (scans w) i = Some v /\ current latest v = true) ->
  omap (detects (extensionFolder env) env (fs w)) supportedIDEs <> [] ->
  exists es,
    run env w
    = (Ok Returned,
       mkWorld (fs w) (denied w)
         (journal w ++ es ++ [(info, FetchingLatest);
                              (info, LatestVersion (Some (JStr latest)))])
         (slept w) (spawned w) (requests w) (S (scans w))).
Proof.
  intros Hcron Hforce Hprim Hver Hcur Hdet.
  unfold run, try_catch. unfold bindM at 1. unfold log at 1. cbv beta iota.
  set (w1 := mkWorld _ _ _ _ _ _ _).
  destruct (detectAvailableIDEs_eval env supportedIDEs w1) as [es Hd].
  change (fs w1) with (fs w) in Hd.
  unfold bindM at 1. rewrite Hd.
  destruct (omap _ supportedIDEs) as [|d found] eqn:Hfound; [congruence |].
  set (ds := JsArray.sort_with byPriority (d :: found)).
  unfold bindM at 1. unfold scanIDEs, bindM at 1, count_scan, ret. cbv beta iota.
  change (scans (logged w1 es)) with (scans w).
  set (w2 := mkWorld _ _ _ _ _ _ _).
  unfold bindM at 1. rewrite (ResolveFacts.getLatestVersion_eval env w2), Hprim, Hver.
  unfold bindM at 1, lift. rewrite (current_table env (scans w) latest ds Hcur).
  cbv beta iota. rewrite Hcron, Hforce. cbn [negb andb]. unfold ret.
  exists ((info, StartingCheck) :: es). f_equal.
  unfold ResolveSpec.fetched, w2, logged, w1.
  cbn [fs denied journal slept spawned requests scans].
  rewrite app_nil_r. f_equal. rewrite <- !app_assoc. reflexivity.
Qed.

End QuietRunFacts.

(** ** The artifact path *)

Module ArtifactPathFacts.
Import Monitor PathNotions JoinFacts Frame PreservesFacts ArtifactSpec.









End ArtifactPathFacts.

(** ** The run that cannot start *)

Module AbortFacts.
Import Monitor DetectSpec DetectFacts QuietRunFacts Frame.

(** The world of a run once the IDEs are detected and scanned. *)
Lemma run_start (env : Env) (w : World) (k : list Detected -> list Status -> M ExitStatus) :
  exists es,
    bindM (log info StartingCheck) (fun _ =>
      bindM (detectAvailableIDEs env supportedIDEs) (fun detectedIDEs =>
        bindM (scanIDEs env detectedIDEs) (fun ideStatus => k detectedIDEs ideStatus))) w
    = match omap (detects (extensionFolder env) env (fs w)) supportedIDEs with
      | [] => (Throw "No supported IDE found (Cursor or VS Code)", logged w es)
      | found =>
          let ds := JsArray.sort_with byPriority found in
          k ds (map (fun d => mkStatus (ide d) (config d) (command d)
                                (scanned env (scans w) (ide d))) ds)
            (mkWorld (fs w) (denied w) (journal w ++ es) (slept w) (spawned w)
                     (requests w) (S (scans w)))
      end.
Proof.
  unfold bindM at 1. unfold log at 1. cbv beta iota.
  set (w1 := mkWorld _ _ _ _ _ _ _).
  destruct (detectAvailableIDEs_eval env supportedIDEs w1) as [es Hd].
  change (fs w1) with (fs w) in Hd.
  unfold bindM at 1. rewrite Hd.
  exists ((info, StartingCheck) :: es).
  destruct (omap _ supportedIDEs) as [|d found].
  - f_equal. unfold logged, w1. cbn [fs denied journal slept spawned requests scans].
    now rewrite <- app_assoc.
  - cbv zeta. unfold bindM at 1. unfold scanIDEs, bindM at 1, count_scan, ret.
    cbv beta iota. change (scans (logged w1 es)) with (scans w).
    f_equal. unfold logged, w1. cbn [fs denied journal slept spawned requests scans].
    now rewrite <- app_assoc.
Qed.

Lemma aborted (w w3 : World) (msg : string) :
  untouched w w3 ->
  let r := (bindM (log error (UpdateProcessFailed msg)) (fun _ => ret (Exited 1))) w3 in
  fst r = Ok (Exited 1)
  /\ untouched w (snd r)
  /\ last (journal (snd r)) = Some (error, UpdateProcessFailed msg).
Proof.
  intros Hu. unfold bindM, log, ret. cbn [fst snd journal].
  split; [reflexivity |]. split; [exact Hu | apply last_snoc].
Qed.

Lemma run_nothing_detected (env : Env) (w : World) :
  omap (detects (extensionFolder env) env (fs w)) supportedIDEs = [] ->
  fst (run env w) = Ok (Exited 1)
  /\ untouched w (snd (run env w))
  /\ requests (snd (run env w)) = requests w
  /\ last (journal (snd (run env w)))
     = Some (error, UpdateProcessFailed "No supported IDE found (Cursor or VS Code)").
Proof.
  intros Hnone. unfold run, try_catch.
  destruct (run_start env w
              (fun detectedIDEs ideStatus =>
                 bindM (getLatestVersion env) (fun latestVersion =>
                 bindM (lift (anyOutdated latestVersion ideStatus)) (fun updateAvailable =>
                 if negb updateAvailable && negb (forced env) && isCronMode env
                 then ret Returned
                 else
                   bindM (promptSelection env ideStatus latestVersion) (fun targets =>
                   if (List.length targets =? 0)%nat
                   then bindM (log info NoUpdatesSelected) (fun _ => ret Returned)
                   else bindM (updatePhase env detectedIDEs targets latestVersion)
                          (fun _ => ret Returned)))))) as [es Hstart].
  rewrite Hstart, Hnone.
  destruct (aborted w (logged w es) "No supported IDE found (Cursor or VS Code)")
    as (H1 & H2 & H3); [repeat split |].
  repeat split; try assumption; apply H2.
Qed.

Lemma run_resolution_fails (env : Env) (w : World) (msg : string) :
  omap (detects (extensionFolder env) env (fs w)) supportedIDEs <> [] ->
  (forall w0, requests w0 = requests w -> fst (getLatestVersion env w0) = Throw msg) ->
  fst (run env w) = Ok (Exited 1)
  /\ untouched w (snd (run env w))
  /\ last (journal (snd (run env w))) = Some (error, UpdateProcessFailed msg).
Proof.
  intros Hsome Hfail. unfold run, try_catch.
  destruct (run_start env w
              (fun detectedIDEs ideStatus =>
                 bindM (getLatestVersion env) (fun latestVersion =>
                 bindM (lift (anyOutdated latestVersion ideStatus)) (fun updateAvailable =>
                 if negb updateAvailable && negb (forced env) && isCronMode env
                 then ret Returned
                 else
                   bindM (promptSelection env ideStatus latestVersion) (fun targets =>
                   if (List.length targets =? 0)%nat
                   then bindM (log info NoUpdatesSelected) (fun _ => ret Returned)
                   else bindM (updatePhase env detectedIDEs targets latestVersion)
                          (fun _ => ret Returned)))))) as [es Hstart].
  rewrite Hstart.
  destruct (omap _ supportedIDEs) as [|d found]; [congruence |]. cbv zeta.
  set (w2 := mkWorld _ _ _ _ _ _ _).
  pose proof (Hfail w2 eq_refl) as Hr.
  pose proof (RunFacts.untouched_getLatestVersion env w2) as Hu.
  destruct (getLatestVersion env w2) as [r3 w3] eqn:E. cbn [fst] in Hr. subst r3.
  rewrite (SysFacts.bindM_throw _ _ _ _ _ E).
  apply aborted. apply (PreservesFacts.untouched_trans w w2 w3); [repeat split |].
  exact (Hu _ _ eq_refl).
Qed.

Lemma run_table_fails (env : Env) (w : World) (latest : string) (d : Detected) :
  In d (omap (detects (extensionFolder env) env (fs w)) supportedIDEs) ->
  (forall w0, requests w0 = requests w ->
     fst (getLatestVersion env w0) = Ok (Some (JStr latest))) ->
  VersionTable.comparable latest
    (mkStatus (ide d) (config d) (command d) (scanned env (scans w) (ide d))) = false ->
  fst (run env w) = Ok (Exited 1)
  /\ untouched w (snd (run env w))
  /\ exists msg,
       last (journal (snd (run env w))) = Some (error, UpdateProcessFailed msg).
Proof.
  intros Hin Hlatest Hbad. unfold run, try_catch.
  destruct (run_start env w
              (fun detectedIDEs ideStatus =>
                 bindM (getLatestVersion env) (fun latestVersion =>
                 bindM (lift (anyOutdated latestVersion ideStatus)) (fun updateAvailable =>
                 if negb updateAvailable && negb (forced env) && isCronMode env
                 then ret Returned
                 else
                   bindM (promptSelection env ideStatus latestVersion) (fun targets =>
                   if (List.length targets =? 0)%nat
                   then bindM (log info NoUpdatesSelected) (fun _ => ret Returned)
                   else bindM (updatePhase env detectedIDEs targets latestVersion)
                          (fun _ => ret Returned)))))) as [es Hstart].
  rewrite Hstart.
  destruct (omap _ supportedIDEs) as [|d0 found] eqn:Hfound; [destruct Hin |]. cbv zeta.
  set (ds := JsArray.sort_with byPriority (d0 :: found)).
  set (w2 := mkWorld _ _ _ _ _ _ _).
  pose proof (Hlatest w2 eq_refl) as Hr.
  pose proof (RunFacts.untouched_getLatestVersion env w2) as Hu.
  destruct (getLatestVersion env w2) as [r3 w3] eqn:E. cbn [fst] in Hr. subst r3.
  assert (untouched w w3) as Hw3.
  { apply (PreservesFacts.untouched_trans w w2 w3); [repeat split |].
    exact (Hu _ _ eq_refl). }
  rewrite (SysFacts.bindM_ok _ _ _ _ _ E).
  pose proof (TableFacts.anyOutdated_eval latest
                (map (fun d => mkStatus (ide d) (config d) (command d)
                                 (scanned env (scans w) (ide d))) ds)) as Ha.
  assert (forallb (VersionTable.comparable latest)
            (map (fun d => mkStatus (ide d) (config d) (command d)
                             (scanned env (scans w) (ide d))) ds) = false) as Hall.
  { apply not_true_is_false. intros Hall. rewrite forallb_forall in Hall.
    assert (In d ds) as Hd.
    { destruct (PriorityFacts.sort_with_sorted det_priority (d0 :: found)) as [_ Hp].
      exact (Permutation_in _ (Permutation_sym Hp) Hin). }
    specialize (Hall _ (in_map _ _ _ Hd)). congruence. }
  rewrite Hall in Ha. destruct Ha as [msg Ha].
  rewrite Ha, SysFacts.bindM_lift_throw.
  destruct (aborted w w3 msg Hw3) as (H1 & H2 & H3). eauto.
Qed.

End AbortFacts.

(** ** The answer of a dialog *)

Module DialogFacts.
Import Monitor.

Lemma drop_line (p : ascii -> bool) (c : ascii) (s : string) (n : nat) :
  p c = false ->
  drop n (s +:+ String c "") = ""%string
  \/ all_chars p (drop n (s +:+ String c "")) = false.
Proof.
  intros Hc. revert n. induction s as [|a s IH]; intros [|n].
  - right. simpl. now rewrite Hc.
  - left. simpl. now destruct n.
  - right. destruct (IH 0) as [H | H].
    + destruct s; discriminate.
    + cbn [drop] in *.
      change (String a s +:+ String c "") with (String a (s +:+ String c "")).
      cbn [all_chars]. rewrite H. apply andb_false_r.
  - apply (IH n).
Qed.

Lemma button_returned_here_line (s : string) (c : ascii) :
  is_line_terminator c = true -> Rx.button_returned_here (s +:+ String c "") = None.
Proof.
  intros Hc. unfold Rx.button_returned_here.
  destruct (String.prefix _ _); [| reflexivity].
  destruct (drop_line (fun c => negb (is_line_terminator c)) c s 16) as [-> | ->].
  - now rewrite Hc.
  - reflexivity.
  - now rewrite andb_false_r.
Qed.

Lemma search_line (s : string) (c : ascii) :
  is_line_terminator c = true ->
  Rx.search Rx.button_returned_here (s +:+ String c "") = None.
Proof.
  intros Hc. induction s as [|a s IH].
  - pose proof (button_returned_here_line "" c Hc) as H.
    change ("" +:+ String c "") with (String c "") in *.
    cbn [Rx.search]. now rewrite H.
  - change (String a s +:+ String c "") with (String a (s +:+ String c "")).
    cbn [Rx.search].
    pose proof (button_returned_here_line (String a s) c Hc) as H.
    change (String a s +:+ String c "") with (String a (s +:+ String c "")) in H.
    now rewrite H.
Qed.

(** An output that ends with a line terminator names no button. *)
Lemma buttonReturned_line (s : string) (c : ascii) (buttons : list string) :
  is_line_terminator c = true ->
  buttonReturned (s +:+ String c "") buttons = head buttons.
Proof. intros Hc. unfold buttonReturned. now rewrite search_line. Qed.

Lemma buttonReturned_exact (b : string) (buttons : list string) :
  b <> ""%string -> all_chars (fun c => negb (is_line_terminator c)) b = true ->
  buttonReturned ("button returned:" +:+ b) buttons = Some (trim b).
Proof.
  intros Hb Hall. unfold buttonReturned.
  assert (Rx.button_returned_here ("button returned:" +:+ b) = Some b) as H.
  { unfold Rx.button_returned_here.
    change (String.prefix "button returned:" ("button returned:" +:+ b))
      with (String.prefix "" b).
    replace (String.prefix "" b) with true by now destruct b.
    change (drop 16 ("button returned:" +:+ b)) with b. cbv zeta.
    rewrite Hall. apply String.eqb_neq in Hb. now rewrite Hb. }
  assert (forall s, Rx.button_returned_here s = Some b ->
                    Rx.search Rx.button_returned_here s = Some b) as Hs.
  { intros s Hh. destruct s; cbn [Rx.search]; now rewrite Hh. }
  now rewrite (Hs _ H).
Qed.

End DialogFacts.

(* ================================================================== *)
(** * Further properties of the code *)

(** ** Normalised versions *)

(** X1. Whatever [normalizeVersion] returns is a version [semver]
    accepts and prints back unchanged; two normalised versions can always
    be compared, and they have equal precedence exactly when they are the
    same string. *)
Theorem normalized_versions_compare (v w : option string) (x y : string) :
  normalizeVersion v = Some x ->
  normalizeVersion w = Some y ->
  Semver.valid x = Some x
  /\ exists c, Semver.compare x y = Js.Ok c /\ (c = Eq <-> x = y).
Proof.
  intros Hx Hy.
  assert (forall u s, normalizeVersion u = Some s -> exists u', u = Some u') as Hsome.
  { intros [u'|] s; [eauto | discriminate]. }
  destruct (Hsome _ _ Hx) as [v' ->]. destruct (Hsome _ _ Hy) as [w' ->].
  apply normalizeVersion_shape in Hx as (a & b & c & Hxs & _ & _ & _ & Hpx & Hvx).
  apply normalizeVersion_shape in Hy as (a' & b' & c' & Hys & _ & _ & _ & Hpy & Hvy).
  split.
  - unfold Semver.valid. rewrite Hpx. simpl. now rewrite Hvx.
  - unfold Semver.compare. rewrite Hpx, Hpy. eexists. split; [reflexivity |].
    split.
    + unfold Semver.compareSemVer, Semver.compareMain, Semver.comparePre,
        Semver.comparePreIds, Semver.lex. simpl.
      destruct (N.compare (num a) (num a')) eqn:H1; try discriminate.
      destruct (N.compare (num b) (num b')) eqn:H2; try discriminate.
      destruct (N.compare (num c) (num c')) eqn:H3; try discriminate.
      intros _. apply N.compare_eq in H1, H2, H3.
      rewrite <- Hvx, <- Hvy, H1, H2, H3. reflexivity.
    + intros Heq. rewrite <- Heq, Hpx in Hpy. injection Hpy as H1 H2 H3.
      rewrite H1, H2, H3.
      apply (Orders.ord_refl _ PrecedenceFacts.Order_compareSemVer).
Qed.

(** X1 on [0.576.0-universal] and [v0.576.0]. *)
Lemma normalized_versions_compare_sample :
  Semver.valid "0.576.0" = Some "0.576.0"
  /\ exists c, Semver.compare "0.576.0" "0.576.0" = Js.Ok c
               /\ (c = Eq <-> "0.576.0" = "0.576.0").
Proof.
  exact (normalized_versions_compare (Some "0.576.0-universal") (Some "v0.576.0")
           "0.576.0" "0.576.0" eq_refl eq_refl).
Defined.

(** ** The status table of [run] *)


(** ** Runs that change nothing *)

(** X3. A dry run leaves the file system and its permissions as they
    were, runs no install command and awaits no delay, whatever is
    detected, resolved, selected or answered: it only logs, probes and
    scans the IDEs and fetches version information. *)
Theorem dry_run_changes_nothing (env : Monitor.Env) (w : Sys.World) :
  Monitor.isDryRun env = true ->
  Frame.untouched w (snd (Monitor.run env w)).
Proof.
  intros Hdry.
  assert (Frame.preserves Frame.untouched (Monitor.run env)) as H.
  { apply RunFacts.untouched_run_when. intros detectedIDEs targets latestVersion _ _.
    now apply RunFacts.untouched_updatePhase_dry. }
  destruct (Monitor.run env w) as [r w'] eqn:E. exact (H _ _ _ E).
Qed.

(** X3 on a dry run of the environment in which the installed version
    is old. *)
Lemma dry_run_changes_nothing_sample :
  Frame.untouched DownloadSpec.emptyWorld
    (snd (Monitor.run
            (Monitor.mkEnv true false false "/app/temp"
               (fun k => if String.eqb k "HOME" then Some "/home/u" else None) "linux"
               (fun cmd => String.eqb cmd "cursor --version")
               (Js.Ok (Monitor.mkResponse 200 (Js.Ok (DownloadSpec.apiLatest "0.576.0"))))
               (fun _ => Js.Throw "network unreachable")
               DownloadSpec.steadyHost DownloadSpec.stillOld (fun _ _ => Js.Ok tt)
               "a" (fun _ => None))
            DownloadSpec.emptyWorld)).
Proof. apply dry_run_changes_nothing. reflexivity. Defined.

(** X4. Nothing is downloaded or installed without the operator's
    consent: in cron mode, unless the button read from the output of the
    dialog is [Update All] (and never in a dry run, where the dialog is
    not shown), and at the terminal when the answer is [q], a run leaves
    the file system and its permissions as they were, runs no install
    command and awaits no delay.  The button is read as the code reads
    it: the text after [button returned:] when that text runs to the end
    of the output, trimmed, and the first button otherwise. *)
Theorem no_update_without_consent (env : Monitor.Env) (w : Sys.World) :
  (if Monitor.isCronMode env
   then Monitor.isDryRun env = true
        \/ (forall output,
              Monitor.dialog env "Augment Extension Update Available" = Some output ->
              Monitor.buttonReturned output ["Cancel"; "Update All"] <> Some "Update All")
   else Monitor.choice env = "q") ->
  Frame.untouched w (snd (Monitor.run env w)).
Proof.
  intros Hno.
  assert (Frame.preserves Frame.untouched (Monitor.run env)) as H.
  { apply RunFacts.untouched_run_when.
    intros detectedIDEs targets latestVersion Hne (ideStatus & w1 & w2 & Hsel).
    apply (RunFacts.promptSelection_declined env _ _ _ _ _ Hno) in Hsel. congruence. }
  destruct (Monitor.run env w) as [r w'] eqn:E. exact (H _ _ _ E).
Qed.

(** X4 in cron mode with a dialog whose output names no button, which
    the code reads as the first button, [Cancel]. *)
Lemma no_update_without_consent_sample :
  Frame.untouched DownloadSpec.emptyWorld
    (snd (Monitor.run
            (Monitor.mkEnv false true false "/app/temp"
               (fun k => if String.eqb k "HOME" then Some "/home/u" else None) "linux"
               (fun cmd => String.eqb cmd "cursor --version")
               (Js.Ok (Monitor.mkResponse 200 (Js.Ok (DownloadSpec.apiLatest "0.576.0"))))
               (fun _ => Js.Throw "network unreachable")
               DownloadSpec.steadyHost DownloadSpec.stillOld (fun _ _ => Js.Ok tt)
               "a" (fun _ => Some "gave up:true"))
            DownloadSpec.emptyWorld)).
Proof.
  apply no_update_without_consent. cbn. right. intros output [= <-]. discriminate.
Defined.

(** ** The selection menu *)

(** X5. At the terminal the answer [a] selects every scanned IDE, the
    decimal number [k] selects exactly the [k]-th one (counting from 1),
    and nothing else selects anything: an answer that is not a key of the
    menu, [q] among them, gives the empty selection.  The prompt itself
    changes nothing and never throws. *)
Theorem menu_selects_by_key :
  (forall ideStatus, Monitor.selectOption ideStatus "a" = Some ideStatus)
  /\ (forall (ideStatus : list Monitor.Status) k s,
        ideStatus !! k = Some s ->
        Monitor.selectOption ideStatus (Js.show (N.of_nat (S k))) = Some [s])
  /\ (forall (ideStatus : list Monitor.Status) answer l,
        Monitor.selectOption ideStatus answer = Some l ->
        (answer = "a" /\ l = ideStatus)
        \/ exists k s, ideStatus !! k = Some s /\ l = [s]
                       /\ answer = Js.show (N.of_nat (S k)))
  /\ (forall env ideStatus latestVersion w,
        Monitor.isCronMode env = false ->
        Monitor.promptSelection env ideStatus latestVersion w
        = (Js.Ok (if String.eqb (Monitor.choice env) "q" then []
                  else default [] (Monitor.selectOption ideStatus (Monitor.choice env))),
           w)).
Proof.
  split; [| split; [| split]].
  - intros ideStatus. reflexivity.
  - intros ideStatus k s Hk. unfold Monitor.selectOption.
    rewrite SelectionFacts.show_not_a.
    exact (SelectionFacts.numbered_option 1 ideStatus k s Hk).
  - intros ideStatus answer l. unfold Monitor.selectOption.
    destruct (String.eqb answer "a") eqn:Ha.
    + intros [= <-]. apply String.eqb_eq in Ha. now left.
    + intros H. right.
      exact (SelectionFacts.numbered_option_member 1 ideStatus answer l H).
  - intros env ideStatus latestVersion w Hcron. unfold Monitor.promptSelection.
    now rewrite Hcron.
Qed.

(** ** Installing *)

(** X6. [installExtensions] never throws and returns one result per
    target, in the targets' order.  Outside a dry run it runs exactly one
    install command per target, in order, and a target is reported
    installed exactly when its own command succeeded, whatever happened
    to the targets before it; in a dry run it runs no command and reports
    every target installed.  A result carries an error exactly when it is
    a failure.  The function itself writes no file, changes no permission
    and awaits no delay. *)
Theorem install_one_result_per_target (env : Monitor.Env) (targets : list Monitor.Status)
  (vsixPath : string) (w : Sys.World) :
  exists results w',
    Monitor.installExtensions env targets vsixPath w = (Js.Ok results, w')
    /\ map Monitor.target results = targets
    /\ Sys.fs w' = Sys.fs w /\ Sys.denied w' = Sys.denied w
    /\ Sys.slept w' = Sys.slept w
    /\ Sys.spawned w'
       = Sys.spawned w ++ (if Monitor.isDryRun env then []
                           else map (VerifySpec.commandFor vsixPath) targets)
    /\ Forall (fun r => Monitor.succeeded r = true <-> Monitor.failure r = None) results
    /\ (forall i t, targets !! i = Some t ->
          exists r, results !! i = Some r /\ Monitor.target r = t
            /\ Monitor.succeeded r
               = (if Monitor.isDryRun env then true
                  else Js.is_ok
                         (Monitor.install_outcome env
                            (Sys.spawned w
                             ++ map (VerifySpec.commandFor vsixPath) (take i targets))
                            (VerifySpec.commandFor vsixPath t)))).
Proof.
  unfold Monitor.installExtensions, Sys.bindM at 1, Sys.log at 1. cbv beta iota.
  match goal with
  | |- context [ Sys.mapM _ targets ?w1 ] =>
      destruct (InstallVerifyFacts.mapM_installOne env vsixPath targets w1)
        as (results & w' & E & H)
  end.
  exists results, w'. split; [exact E | exact H].
Qed.

(** ** Verifying *)

(** X7. Verification never throws, changes no file or permission and
    runs no install command (each of its scans may run the IDEs' listing
    commands).  Each target is scanned at least once and at most five
    times, each scan after a delay of three seconds; scanning stops at the
    first scan that shows the expected version for the target's IDE, and a
    target is reported failed exactly when five scans in a row showed
    something else.  The failed targets are listed in the targets' order
    and the verdict is success exactly when none failed.  In a dry run
    nothing is scanned or awaited and the verdict is success. *)
Theorem verification_scans_and_verdict :
  (forall env detectedIDEs expectedVersion t w,
     exists failures n es,
       Monitor.verifyOne env detectedIDEs expectedVersion t w
       = (Js.Ok failures, VerifySpec.waited w es n)
       /\ 1 <= n <= 5
       /\ (forall k, k < n - 1 ->
             VerifySpec.matches env detectedIDEs t expectedVersion (Sys.scans w + k)
             = false)
       /\ ((failures = []
            /\ VerifySpec.matches env detectedIDEs t expectedVersion
                 (Sys.scans w + (n - 1)) = true)
           \/ (failures = [t] /\ n = 5
               /\ VerifySpec.matches env detectedIDEs t expectedVersion
                    (Sys.scans w + (n - 1)) = false)))
  /\ (forall env detectedIDEs targets expectedVersion w,
        exists result n es,
          Monitor.verifyInstallations env detectedIDEs targets expectedVersion w
          = (Js.Ok result, VerifySpec.waited w es n)
          /\ Monitor.verified result = (List.length (Monitor.failed result) =? 0)%nat
          /\ sublist (Monitor.failed result) targets
          /\ (if Monitor.isDryRun env
              then n = 0 /\ Monitor.failed result = []
              else List.length targets <= n <= 5 * List.length targets
                   /\ 5 * List.length (Monitor.failed result) <= n)).
Proof.
  split.
  - intros env detectedIDEs expectedVersion t w.
    exact (InstallVerifyFacts.verifyOne_eval env detectedIDEs expectedVersion t w).
  - intros env detectedIDEs targets expectedVersion w.
    unfold Monitor.verifyInstallations, Sys.bindM at 1, Sys.log at 1. cbv beta iota.
    set (w1 := Sys.mkWorld _ _ _ _ _ _ _).
    assert (w1 = VerifySpec.waited w [(Sys.info, Sys.Verifying)] 0) as ->.
    { unfold w1, VerifySpec.waited. cbn. now rewrite app_nil_r, Nat.add_0_r. }
    destruct (Monitor.isDryRun env).
    + exists (Monitor.mkVerifyResult true []), 0,
        [(Sys.info, Sys.Verifying); (Sys.warning, Sys.DryRunVerify)].
      unfold Sys.bindM, Sys.log, Sys.ret, VerifySpec.waited. cbn.
      rewrite !app_nil_r, <- !app_assoc, !Nat.add_0_r. cbn.
      repeat split. apply sublist_nil_l.
    + destruct (InstallVerifyFacts.mapM_verifyOne env detectedIDEs expectedVersion
                  targets (VerifySpec.waited w [(Sys.info, Sys.Verifying)] 0))
        as (failures & n & es & E & Hsub & Hn & Hfail).
      unfold Sys.bindM. rewrite E. unfold Sys.ret.
      rewrite InstallVerifyFacts.waited_waited.
      do 3 eexists. split; [reflexivity |]. cbn [Monitor.verified Monitor.failed].
      unfold Monitor.verifyRetries in *. cbn [Nat.add].
      repeat split; [exact Hsub | lia..].
Qed.

(** ** Cleaning up *)

(** X8. [cleanupFile] never throws and affects no path other than the
    one it is given.  In a dry run, when the file is absent, and when the
    deletion is refused, the file system is left as it was (a refusal is
    logged as a warning); otherwise the file is gone afterwards.  No
    process is started and no delay awaited. *)
Theorem cleanup_removes_one_file (env : Monitor.Env) (filePath : string) (w : Sys.World) :
  exists w',
    Monitor.cleanupFile env filePath w = (Js.Ok tt, w')
    /\ (forall q, q <> filePath -> Sys.fs w' !! q = Sys.fs w !! q)
    /\ Sys.denied w' = Sys.denied w /\ Sys.spawned w' = Sys.spawned w
    /\ Sys.slept w' = Sys.slept w
    /\ (if Monitor.isDryRun env then Sys.fs w' = Sys.fs w
        else if bool_decide (filePath ∈ Sys.denied w)
             then Sys.fs w' = Sys.fs w
                  /\ (is_Some (Sys.fs w !! filePath) ->
                      exists msg, last (Sys.journal w')
                                  = Some (Sys.warning, Sys.CleanupFailed msg))
             else Sys.fs w' = delete filePath (Sys.fs w)).
Proof.
  unfold Monitor.cleanupFile, Sys.try_catch. destruct (Monitor.isDryRun env).
  { eexists. unfold Sys.log. split; [reflexivity |]. cbn. repeat split. }
  unfold Sys.bindM at 1. unfold Sys.existsSync at 1.
  destruct (bool_decide (is_Some (Sys.fs w !! filePath))) eqn:Hthere.
  - apply bool_decide_eq_true_1 in Hthere as [node Hnode].
    unfold Sys.bindM, Sys.unlinkSync, Sys.bindM, Sys.guard_denied, Sys.get_world,
      Sys.set_fs, Sys.log.
    destruct (bool_decide (filePath ∈ Sys.denied w)); cbn.
    + eexists. split; [reflexivity |]. cbn. repeat split.
      intros _. rewrite last_snoc. eauto.
    + rewrite Hnode. eexists. split; [reflexivity |]. cbn. repeat split.
      intros q Hq. now apply lookup_delete_ne.
  - apply bool_decide_eq_false_1 in Hthere.
    assert (Sys.fs w !! filePath = None) as Hnone.
    { destruct (Sys.fs w !! filePath) eqn:E; [exfalso; apply Hthere; eauto | reflexivity]. }
    unfold Sys.ret. eexists. split; [reflexivity |]. repeat split.
    destruct (bool_decide (filePath ∈ Sys.denied w)).
    + split; [reflexivity |]. intros [x Hx]. congruence.
    + symmetry. now apply delete_id.
Qed.

(** ** The profile registry *)

(** X9. [updateProfileExtensionsJson] never throws and affects no path
    other than the profile's registry file.  Either it writes the file and
    logs nothing (the empty array when the file was missing, so that the
    copied extension is then not registered; the rewritten registry
    otherwise), or it fails, logs one error naming the profile and leaves
    the file system exactly as it was. *)
Theorem registry_update_is_all_or_nothing (env : Fanout.Env) (profile : Fanout.Profile)
  (dir : string) (w : Sys.World) :
  exists w',
    Fanout.updateProfileExtensionsJson env profile dir w = (Js.Ok tt, w')
    /\ (forall q, q <> Fanout.extensionsJsonPath profile ->
                  Sys.fs w' !! q = Sys.fs w !! q)
    /\ Sys.denied w' = Sys.denied w /\ Sys.spawned w' = Sys.spawned w
    /\ Sys.slept w' = Sys.slept w
    /\ ((exists registry,
           Sys.fs w' = <[Fanout.extensionsJsonPath profile :=
                           Sys.File (Sys.JsonText registry)]> (Sys.fs w)
           /\ Sys.journal w' = Sys.journal w
           /\ match Sys.fs w !! Fanout.extensionsJsonPath profile with
              | None => registry = Json.JArr []
              | Some node =>
                  exists data, node = Sys.File (Sys.JsonText data)
                               /\ Fanout.rewriteRegistry env dir data = Js.Ok registry
              end)
        \/ (exists msg,
              Sys.fs w' = Sys.fs w
              /\ Sys.journal w'
                 = Sys.journal w
                   ++ [(Sys.error,
                        Sys.ErrorUpdatingRegistry (Fanout.profile_name profile) msg)])).
Proof.
  set (p := Fanout.extensionsJsonPath profile).
  assert (forall d,
            (exists w',
               Sys.writeFileSync p d w = (Js.Ok tt, w')
               /\ Sys.fs w' = <[p := Sys.File d]> (Sys.fs w)
               /\ Sys.denied w' = Sys.denied w /\ Sys.spawned w' = Sys.spawned w
               /\ Sys.slept w' = Sys.slept w /\ Sys.journal w' = Sys.journal w)
            \/ exists msg, Sys.writeFileSync p d w = (Js.Throw msg, w)) as Hwrite.
  { intros d. unfold Sys.writeFileSync, Sys.bindM, Sys.guard_denied, Sys.get_world,
      Sys.set_fs.
    destruct (bool_decide (p ∈ Sys.denied w)); [right; eexists; reflexivity |].
    left. eexists. split; [reflexivity |]. cbn. auto. }
  assert (forall msg,
            exists w',
              Sys.log Sys.error (Sys.ErrorUpdatingRegistry (Fanout.profile_name profile) msg) w
              = (Js.Ok tt, w')
              /\ (forall q, q <> p -> Sys.fs w' !! q = Sys.fs w !! q)
              /\ Sys.denied w' = Sys.denied w /\ Sys.spawned w' = Sys.spawned w
              /\ Sys.slept w' = Sys.slept w
              /\ ((exists registry,
                     Sys.fs w' = <[p := Sys.File (Sys.JsonText registry)]> (Sys.fs w)
                     /\ Sys.journal w' = Sys.journal w
                     /\ match Sys.fs w !! p with
                        | None => registry = Json.JArr []
                        | Some node =>
                            exists data, node = Sys.File (Sys.JsonText data)
                              /\ Fanout.rewriteRegistry env dir data = Js.Ok registry
                        end)
                  \/ (exists msg',
                        Sys.fs w' = Sys.fs w
                        /\ Sys.journal w'
                           = Sys.journal w
                             ++ [(Sys.error,
                                  Sys.ErrorUpdatingRegistry (Fanout.profile_name profile)
                                    msg')]))) as Hfail.
  { intros msg. eexists. split; [reflexivity |]. cbn. repeat split. right.
    exists msg. split; reflexivity. }
  unfold Fanout.updateProfileExtensionsJson, Sys.try_catch. fold p.
  unfold Sys.bindM at 1. unfold Sys.existsSync at 1.
  destruct (Sys.fs w !! p) as [node|] eqn:Hnode.
  - rewrite bool_decide_eq_true_2 by eauto. change (negb true) with false. cbv iota.
    unfold Sys.bindM at 1. unfold Sys.readJson, Sys.bindM at 1, Sys.get_world at 1.
    cbv beta iota. rewrite Hnode.
    destruct node as [[data|raw]|entries]; try apply Hfail.
    unfold Sys.ret at 1. cbv beta iota. unfold Sys.bindM at 1, Sys.lift at 1.
    destruct (Fanout.rewriteRegistry env dir data) as [registry|msg] eqn:Hr;
      [| apply Hfail].
    destruct (Hwrite (Sys.JsonText registry))
      as [(w' & -> & Hfs & Hden & Hsp & Hsl & Hj) | [msg ->]]; [| apply Hfail].
    exists w'. split; [reflexivity |]. split.
    { intros q Hq. rewrite Hfs. now apply lookup_insert_ne. }
    repeat split; try assumption. left. exists registry. repeat split; try assumption.
    eauto.
  - rewrite bool_decide_eq_false_2 by (intros [x Hx]; discriminate).
    change (negb false) with true. cbv iota.
    destruct (Hwrite (Sys.JsonText (Json.JArr [])))
      as [(w' & -> & Hfs & Hden & Hsp & Hsl & Hj) | [msg ->]]; [| apply Hfail].
    exists w'. split; [reflexivity |]. split.
    { intros q Hq. rewrite Hfs. now apply lookup_insert_ne. }
    repeat split; try assumption. left. exists (Json.JArr []). auto.
Qed.

(** X10. Updating a registry twice leaves one record of the package:
    what a rewrite returns is an array ending with the fresh record, and
    rewriting that array again, for any installed directory, keeps the
    same other records and replaces the record of the first update by the
    new one.  With the same directory and clock the rewrite is a fixed
    point. *)
Theorem registry_rewrite_is_idempotent (env : Fanout.Env) (dir : string)
  (data registry : Json.json) :
  Fanout.rewriteRegistry env dir data = Js.Ok registry ->
  exists kept,
    registry = Json.JArr (kept ++ [Fanout.newExtensionEntry env dir])
    /\ (forall env' dir',
          Fanout.rewriteRegistry env' dir' registry
          = Js.Ok (Json.JArr (kept ++ [Fanout.newExtensionEntry env' dir'])))
    /\ Fanout.rewriteRegistry env dir registry = Js.Ok registry.
Proof.
  intros (items & kept & -> & Hkept & ->)%RegistryUpdateFacts.rewriteRegistry_shape.
  exists kept. split; [reflexivity |].
  assert (forall env' dir',
            Fanout.rewriteRegistry env' dir'
              (Json.JArr (kept ++ [Fanout.newExtensionEntry env dir]))
            = Js.Ok (Json.JArr (kept ++ [Fanout.newExtensionEntry env' dir']))) as H.
  { intros env' dir'. unfold Fanout.rewriteRegistry, Fanout.filterEntries.
    rewrite (RegistryUpdateFacts.filter_by_again Fanout.keepEntry kept _
               (RegistryUpdateFacts.filter_by_kept _ _ _ Hkept)
               (RegistryUpdateFacts.keepEntry_new env dir)).
    reflexivity. }
  split; [exact H | apply H].
Qed.

(** X10 on a registry holding a stale record of the package and a record
    of another extension. *)
Lemma registry_rewrite_is_idempotent_sample :
  exists kept,
    Json.JArr [Registry.pythonRecord;
               Fanout.newExtensionEntry Registry.sampleEnv FanoutScenario.installedDir]
    = Json.JArr (kept ++ [Fanout.newExtensionEntry Registry.sampleEnv
                            FanoutScenario.installedDir])
    /\ (forall env' dir',
          Fanout.rewriteRegistry env' dir'
            (Json.JArr [Registry.pythonRecord;
                        Fanout.newExtensionEntry Registry.sampleEnv
                          FanoutScenario.installedDir])
          = Js.Ok (Json.JArr (kept ++ [Fanout.newExtensionEntry env' dir'])))
    /\ Fanout.rewriteRegistry Registry.sampleEnv FanoutScenario.installedDir
         (Json.JArr [Registry.pythonRecord;
                     Fanout.newExtensionEntry Registry.sampleEnv
                       FanoutScenario.installedDir])
       = Js.Ok (Json.JArr [Registry.pythonRecord;
                           Fanout.newExtensionEntry Registry.sampleEnv
                             FanoutScenario.installedDir]).
Proof.
  exact (registry_rewrite_is_idempotent Registry.sampleEnv FanoutScenario.installedDir
           (Json.JArr [Registry.staleRecord; Registry.pythonRecord]) _ eq_refl).
Defined.

(** ** The order of the detected IDEs *)

(** X11. Whatever the order of the table of supported IDEs, both
    implementations of [detectAvailableIDEs] return the detected IDEs in
    order of increasing priority number, and return exactly the IDEs that
    were detected, each once; the one of [index.js] throws when there is
    none. *)
Theorem detected_in_priority_order (env : Monitor.Env)
  (table : list (string * Ide.Config)) (w : Sys.World) :
  match fst (Monitor.detectAvailableIDEs env table w) with
  | Js.Ok available =>
      available <> []
      /\ Permutation available
           (omap (DetectSpec.detects (Monitor.extensionFolder env) env (Sys.fs w)) table)
      /\ StronglySorted
           (fun a b => (Monitor.det_priority a <= Monitor.det_priority b)%Z) available
  | Js.Throw _ =>
      omap (DetectSpec.detects (Monitor.extensionFolder env) env (Sys.fs w)) table = []
  end
  /\ exists available,
       fst (IDEManager.detectAvailableIDEs env table w) = Js.Ok available
       /\ Permutation available
            (omap (DetectSpec.detects (IDEManager.getExtensionPath env) env (Sys.fs w))
                  table)
       /\ StronglySorted
            (fun a b => (Monitor.det_priority a <= Monitor.det_priority b)%Z) available.
Proof.
  split.
  - unfold Monitor.detectAvailableIDEs. unfold Sys.bindM, Sys.log. cbv beta iota.
    match goal with
    | |- context [ Monitor.collectAvailable env table ?w1 ] =>
        destruct (DetectFacts.collectAvailable_eval env table w1) as [es Hloop];
        change (Sys.fs w1) with (Sys.fs w) in Hloop
    end.
    rewrite Hloop. rewrite DetectFacts.sort_with_length.
    set (found := omap _ table).
    destruct (PriorityFacts.sort_with_sorted Monitor.det_priority found) as [Hs Hp].
    destruct found as [|d found']; [reflexivity |]. cbn [List.length Nat.eqb fst].
    split; [| split; [exact Hp | exact Hs]].
    intros Hnil. unfold Monitor.byPriority in Hnil. rewrite Hnil in Hp.
    now apply Permutation_nil in Hp.
  - unfold IDEManager.detectAvailableIDEs. unfold Sys.bindM, Sys.log. cbv beta iota.
    match goal with
    | |- context [ IDEManager.collectAvailable env table ?w1 ] =>
        destruct (DetectFacts.collectAvailable_eval_modular env table w1) as [es Hloop];
        change (Sys.fs w1) with (Sys.fs w) in Hloop
    end.
    rewrite Hloop.
    set (found := omap _ table).
    destruct (PriorityFacts.sort_with_sorted Monitor.det_priority found) as [Hs Hp].
    eexists. split; [destruct (0 <? _)%nat; reflexivity |]. split; [exact Hp | exact Hs].
Qed.

(** ** The CLI update check *)

(** X12. [checkAllForUpdates] returns one entry per detected CLI, in
    order, and never throws.  An entry asks for an update only if the
    latest version was fetched, both versions are valid semantic versions
    and the latest one has the greater precedence; when the fetch or the
    comparison throws, the entry records the error, has no latest version
    and asks for no update, and the other entries are not affected. *)
Theorem cli_check_one_entry_per_cli (getLatestVersion : string -> Js.result string)
  (detectedCLIs : list Managers.DetectedCLI) :
  map Managers.cli (Managers.checkAllForUpdates getLatestVersion detectedCLIs)
  = detectedCLIs
  /\ (forall i c, detectedCLIs !! i = Some c ->
        Managers.checkAllForUpdates getLatestVersion detectedCLIs !! i
        = Some (Managers.checkOne getLatestVersion c))
  /\ Forall (fun r =>
       (Managers.needsUpdate r = true ->
          exists latest,
            getLatestVersion (Managers.npmPackage (Managers.cli r)) = Js.Ok latest
            /\ Managers.latestVersion r = Some latest
            /\ Js.truthy (Semver.valid latest) = true
            /\ Js.truthy (Semver.valid (Managers.installedVersion (Managers.cli r))) = true
            /\ Precedence.precedence latest (Managers.installedVersion (Managers.cli r))
               = Gt)
       /\ (forall msg, Managers.error r = Some msg ->
             Managers.latestVersion r = None /\ Managers.needsUpdate r = false)
       /\ (Managers.error r = None -> exists latest, Managers.latestVersion r = Some latest))
     (Managers.checkAllForUpdates getLatestVersion detectedCLIs).
Proof.
  unfold Managers.checkAllForUpdates. split; [| split].
  - rewrite map_map. rewrite <- (map_id detectedCLIs) at 2. apply map_ext.
    intros c. unfold Managers.checkOne.
    destruct (getLatestVersion _) as [latest|]; [| reflexivity]. cbn.
    destruct (Semver.gt latest _); reflexivity.
  - intros i c Hi. rewrite list_lookup_fmap, Hi. reflexivity.
  - apply List.Forall_forall. intros r (c & <- & _)%in_map_iff.
    unfold Managers.checkOne.
    destruct (getLatestVersion (Managers.npmPackage c)) as [latest|msg] eqn:Hg; cbn.
    + unfold Semver.gt, Semver.compare.
      destruct (Semver.parse latest) as [x|] eqn:Hx; cbn;
        [| repeat split; try discriminate; intros msg [= <-]; auto].
      destruct (Semver.parse (Managers.installedVersion c)) as [y|] eqn:Hy; cbn;
        [| repeat split; try discriminate; intros msg [= <-]; auto].
      repeat split; try discriminate; [| eauto].
      intros Hgt. exists latest. rewrite Hg.
      assert (Js.truthy (Semver.valid latest) = true) as Hvl
        by (apply PrecedenceFacts.valid_truthy; eauto).
      assert (Js.truthy (Semver.valid (Managers.installedVersion c)) = true) as Hvi
        by (apply PrecedenceFacts.valid_truthy; eauto).
      repeat split; auto.
      unfold Precedence.precedence, Precedence.key. rewrite Hx, Hy. cbn.
      destruct (Semver.compareSemVer x y); [discriminate | discriminate | reflexivity].
    + repeat split; try discriminate; intros msg' [= <-]; auto.
Qed.

(** ** The scan of the detected IDEs *)


(** X14. The pattern [augment\.vscode-augment@(\d+\.\d+\.\d+)] applied to
    the output of the list command: what it captures is three non-empty
    runs of digits joined by dots, standing in the output right after
    [augment.vscode-augment@] and not followed by a further digit; it
    captures something whenever the output holds such an occurrence; and
    a line [augment.vscode-augment@a.b.c] at the head of the output gives
    back [a.b.c]. *)
Theorem listed_version_capture :
  (forall output x : string,
     Rx.search Scan.listed_here output = Some x ->
     exists pre a b c post : string,
       output = (pre ++ Monitor.extensionId ++ "@" ++ x ++ post)%string
       /\ x = (a ++ "." ++ b ++ "." ++ c)%string
       /\ ScanSpec.digits a = true /\ ScanSpec.digits b = true
       /\ ScanSpec.digits c = true
       /\ StringNotions.stops is_digit post = true)
  /\ (forall pre a b c post : string,
        ScanSpec.digits a = true -> ScanSpec.digits b = true ->
        ScanSpec.digits c = true ->
        is_Some (Rx.search Scan.listed_here
                   (pre ++ Monitor.extensionId ++ "@"
                        ++ (a ++ "." ++ b ++ "." ++ c) ++ post)%string))
  /\ (forall a b c post : string,
        ScanSpec.digits a = true -> ScanSpec.digits b = true ->
        ScanSpec.digits c = true ->
        StringNotions.stops is_digit post = true ->
        Rx.search Scan.listed_here
          (Monitor.extensionId ++ "@" ++ (a ++ "." ++ b ++ "." ++ c) ++ post)%string
        = Some (a ++ "." ++ b ++ "." ++ c)%string).
Proof.
  split; [| split].
  - intros output x (pre & rest & -> & Hr)%ScanModelFacts.search_sound.
    apply ScanModelFacts.listed_here_sound in Hr
      as (a & b & c & post & -> & -> & Ha & Hb & Hc & Hpost).
    exists pre, a, b, c, post. repeat split; assumption.
  - intros pre a b c post Ha Hb Hc.
    apply ScanModelFacts.search_complete.
    now apply ScanModelFacts.listed_here_found.
  - intros a b c post Ha Hb Hc Hpost.
    pose proof (ScanModelFacts.listed_here_exact a b c post Ha Hb Hc Hpost) as H.
    destruct (Monitor.extensionId ++ "@" ++ (a ++ "." ++ b ++ "." ++ c) ++ post)%string
      eqn:E; cbn [Rx.search]; rewrite H; reflexivity.
Qed.

(** ** The Cursor profiles and the fan-out *)

(** X15. Every profile [getCursorProfiles] returns has its registry file
    on disk, and its path is the profiles directory followed by its name.
    The folder the fan-out copies the extension to,
    [path.join(profile.path, '..', '..', '..', '.cursor', 'extensions')],
    is then [<home>/AppData/Roaming/Cursor/.cursor/extensions] whatever
    the profile: all profiles share one target folder.  The name of the
    profile is a directory name: no slash, not empty, not [.] or [..]. *)
Theorem profiles_share_one_extensions_folder (home : string) (text : Json.json -> string)
  (f : gmap string Sys.Node) (p : Fanout.Profile) :
  In p (fst (Profiles.getCursorProfiles home text f)) ->
  PathNotions.plain (Fanout.profile_name p) = true ->
  Fanout.profile_path p
  = Sys.join [home; "AppData"; "Roaming"; "Cursor"; "User"; "profiles";
              Fanout.profile_name p]
  /\ is_Some (f !! Fanout.extensionsJsonPath p)
  /\ Fanout.profileExtensionsPath p
     = Sys.join [home; "AppData"; "Roaming"; "Cursor"; ".cursor"; "extensions"].
Proof.
  intros (entries & _ & _ & _ & Hpath & Hjson)%ProfileFacts.getCursorProfiles_member Hplain.
  destruct (ProfileFacts.profile_paths home (Fanout.profile_name p) Hplain) as [H1 H2].
  unfold Fanout.profileExtensionsPath. rewrite Hpath. auto.
Qed.

(** X15 on the profile [play] of two profiles under [/home/u]. *)
Lemma profiles_share_one_extensions_folder_sample :
  let p := Fanout.mkProfile "play" "/home/u/AppData/Roaming/Cursor/User/profiles/play"
             true in
  In p (fst (Profiles.getCursorProfiles "/home/u" (fun _ => ""%string)
               Profiles.sampleFiles))
  /\ Fanout.profileExtensionsPath p
     = "/home/u/AppData/Roaming/Cursor/.cursor/extensions"%string.
Proof.
  cbv zeta.
  assert (In (Fanout.mkProfile "play" "/home/u/AppData/Roaming/Cursor/User/profiles/play"
                true)
             (fst (Profiles.getCursorProfiles "/home/u" (fun _ => ""%string)
                     Profiles.sampleFiles))) as Hin
    by (vm_compute; tauto).
  split; [exact Hin |].
  exact (proj2 (proj2 (profiles_share_one_extensions_folder _ _ _ _ Hin eq_refl))).
Defined.

(** X16. [copyExtensionToAllProfiles] never throws, starts no process,
    awaits no delay and changes no permission.  Of the files it leaves
    alone every path that is not, for some profile, the profile's
    extensions folder, the copy of the extension in it or the profile's
    registry file, nor above or below one of these.  When the profiles
    share their extensions folder, as those of [getCursorProfiles] do,
    these are one folder, one copy and the registries. *)
Theorem fanout_touches_only_its_footprint (env : Fanout.Env)
  (profiles : list Fanout.Profile) (w : Sys.World) :
  let w' := snd (Fanout.copyExtensionToAllProfiles env profiles w) in
  fst (Fanout.copyExtensionToAllProfiles env profiles w) = Js.Ok tt
  /\ Sys.denied w' = Sys.denied w /\ Sys.spawned w' = Sys.spawned w
  /\ Sys.slept w' = Sys.slept w
  /\ (forall path,
        FanoutSpec.unrelated (FanoutSpec.footprint env profiles (Sys.fs w)) path ->
        Sys.fs w' !! path = Sys.fs w !! path)
  /\ (forall shared : string,
        (forall p, In p profiles -> Fanout.profileExtensionsPath p = shared) ->
        forall path, In path (FanoutSpec.footprint env profiles (Sys.fs w)) ->
          path = shared
          \/ (exists dir entries,
                Sys.fs w !! Fanout.defaultExtensionsPath env = Some (Sys.Dir entries)
                /\ latestExtensionDir entries = Some dir
                /\ path = Sys.join [shared; dir])
          \/ exists p, In p profiles /\ path = Fanout.extensionsJsonPath p).
Proof.
  cbv zeta.
  destruct (FootprintFacts.apart_copyExtensionToAllProfiles env profiles w)
    as (Hok & Hfs & Hdenied & Hspawned & Hslept).
  split; [exact Hok |]. split; [exact Hdenied |]. split; [exact Hspawned |].
  split; [exact Hslept |]. split.
  { intros path Hpath. apply Hfs. intros Hin. now destruct (Hpath path Hin) as [Hne _]. }
  intros shared Hshared path. unfold FanoutSpec.footprint.
  destruct (Sys.fs w !! Fanout.defaultExtensionsPath env) as [[data | entries]|];
    try (intros []).
  destruct (latestExtensionDir entries) as [dir|] eqn:Hdir; [| intros []].
  intros (p & Hp & Hin)%in_flat_map. unfold FanoutSpec.written in Hin.
  rewrite (Hshared p Hp) in Hin.
  destruct Hin as [<- | [<- | [<- | []]]]; [now left | right; left | right; right].
  - exists dir, entries. repeat split; [exact Hdir].
  - exists p. split; [exact Hp | reflexivity].
Qed.

(** ** The folder read across revisions *)

(** X17. [getVSCodeExtensionVersion] of the second revision reads the
    version off the first folder whose name starts with
    [augment.vscode-augment-]; the third revision reads the greatest
    valid version among all such folders.  Whenever the second revision
    finds a version, the third finds one that is not lower, and where
    the third finds none, neither does the second.  The converse fails:
    with the folders of [1.0.0] and [2.0.0] in this order the second
    revision reports [1.0.0], and with a folder [nightly] listed first it
    reports nothing. *)
Theorem folder_read_first_or_greatest :
  let old env f := fst (Revision2.getVSCodeExtensionVersion env f) in
  let new env f :=
    match Monitor.extensionFolder env "vscode" with
    | Js.Ok dir => getExtensionVersionFromDir (Scan.dirState f dir) Monitor.extensionId
    | Js.Throw _ => None
    end in
  (forall env f v, old env f = Some v ->
     exists w c, new env f = Some w /\ Semver.compare v w = Js.Ok c /\ c <> Gt)
  /\ (forall env f, new env f = None -> old env f = None)
  /\ (let f := Revision2.vscodeFolder
                 ["augment.vscode-augment-1.0.0"; "augment.vscode-augment-2.0.0"] in
      old Revision2.sampleEnv f = Some "1.0.0"%string
      /\ new Revision2.sampleEnv f = Some "2.0.0"%string)
  /\ (let f := Revision2.vscodeFolder
                 ["augment.vscode-augment-nightly"; "augment.vscode-augment-1.0.0"] in
      old Revision2.sampleEnv f = None
      /\ new Revision2.sampleEnv f = Some "1.0.0"%string).
Proof.
  cbv zeta. split; [exact Revision2Facts.old_below_new |].
  split; [| split; split; vm_compute; reflexivity].
  intros env f Hnew.
  destruct (fst (Revision2.getVSCodeExtensionVersion env f)) as [v|] eqn:Hold;
    [| reflexivity].
  destruct (Revision2Facts.old_below_new env f v Hold) as (w & c & Hw & _). congruence.
Qed.

(** ** The run that has nothing to do *)

(** X18. A scheduled run without [--force] that finds some IDE, gets the
    latest version from the gallery and finds in every IDE a valid
    version that the latest one does not exceed returns normally right
    after the version is resolved: the line that reports the latest
    version is the last one logged, no page is fetched, the files and
    permissions are left as they were, no install command is run and no
    delay awaited. *)
Theorem up_to_date_cron_run_is_quiet (env : Monitor.Env) (w : Sys.World) (latest : string) :
  Monitor.isCronMode env = true ->
  Monitor.forced env = false ->
  ResolveSpec.primaryFails env = false ->
  ResolveSpec.primaryVersion env = Some (Json.JStr latest) ->
  (forall ide, exists v,
     Monitor.scanned env (Sys.scans w) ide = Some v /\ QuietSpec.current latest v = true) ->
  omap (DetectSpec.detects (Monitor.extensionFolder env) env (Sys.fs w))
       Monitor.supportedIDEs <> [] ->
  fst (Monitor.run env w) = Js.Ok Monitor.Returned
  /\ Frame.untouched w (snd (Monitor.run env w))
  /\ Sys.requests (snd (Monitor.run env w)) = Sys.requests w
  /\ last (Sys.journal (snd (Monitor.run env w)))
     = Some (Sys.info, Sys.LatestVersion (Some (Json.JStr latest))).
Proof.
  intros Hcron Hforce Hprim Hver Hcur Hdet.
  destruct (QuietRunFacts.quiet_run env w latest Hcron Hforce Hprim Hver Hcur Hdet)
    as [es ->].
  cbn [fst snd Sys.journal Sys.requests].
  split; [reflexivity | split; [repeat split | split; [reflexivity |]]].
  change [(Sys.info, Sys.FetchingLatest);
          (Sys.info, Sys.LatestVersion (Some (Json.JStr latest)))]
    with ([(Sys.info, Sys.FetchingLatest)]
          ++ [(Sys.info, Sys.LatestVersion (Some (Json.JStr latest)))]).
  rewrite !app_assoc. apply last_snoc.
Qed.

(** X18 on a scheduled run where Cursor holds the version the gallery
    lists, with an operator who would accept the update. *)
Lemma up_to_date_cron_run_is_quiet_sample :
  fst (Monitor.run QuietSpec.cronEnv DownloadSpec.emptyWorld) = Js.Ok Monitor.Returned
  /\ Sys.spawned (snd (Monitor.run QuietSpec.cronEnv DownloadSpec.emptyWorld)) = [].
Proof.
  destruct (up_to_date_cron_run_is_quiet QuietSpec.cronEnv DownloadSpec.emptyWorld
              "0.576.0" eq_refl eq_refl eq_refl eq_refl)
    as (Hret & (_ & _ & Hspawned & _) & _).
  - intros ide. exists "0.576.0"%string. split; reflexivity.
  - vm_compute. discriminate.
  - split; [exact Hret | exact Hspawned].
Defined.

(** ** Where the artifact is written *)



(** ** The run that cannot start *)

(** X20. When no IDE is detected, when the latest version cannot be
    resolved, and when the table of installed versions cannot be compared
    with the latest version, [run] exits with code 1 and its last log line
    is the failure with the message of the exception; nothing was
    written, no permission changed, no install command was run and no
    delay awaited.  With the gallery and the marketplace page both unreachable
    the message is that of the page fetch. *)
Theorem run_aborts_before_any_change (env : Monitor.Env) (w : Sys.World) :
  let found :=
    omap (DetectSpec.detects (Monitor.extensionFolder env) env (Sys.fs w))
         Monitor.supportedIDEs in
  let r := Monitor.run env w in
  (found = [] ->
   fst r = Js.Ok (Monitor.Exited 1)
   /\ Frame.untouched w (snd r)
   /\ Sys.requests (snd r) = Sys.requests w
   /\ last (Sys.journal (snd r))
      = Some (Sys.error,
              Sys.UpdateProcessFailed "No supported IDE found (Cursor or VS Code)"))
  /\ (forall msg,
        found <> [] ->
        (forall w0, Sys.requests w0 = Sys.requests w ->
                    fst (Monitor.getLatestVersion env w0) = Js.Throw msg) ->
        fst r = Js.Ok (Monitor.Exited 1)
        /\ Frame.untouched w (snd r)
        /\ last (Sys.journal (snd r)) = Some (Sys.error, Sys.UpdateProcessFailed msg))
  /\ (forall latest d,
        In d found ->
        (forall w0, Sys.requests w0 = Sys.requests w ->
                    fst (Monitor.getLatestVersion env w0)
                    = Js.Ok (Some (Json.JStr latest))) ->
        VersionTable.comparable latest
          (Monitor.mkStatus (Monitor.ide d) (Monitor.config d) (Monitor.command d)
             (Monitor.scanned env (Sys.scans w) (Monitor.ide d))) = false ->
        fst r = Js.Ok (Monitor.Exited 1)
        /\ Frame.untouched w (snd r)
        /\ exists msg,
             last (Sys.journal (snd r)) = Some (Sys.error, Sys.UpdateProcessFailed msg))
  /\ (let offline := Monitor.run QuietSpec.offlineEnv DownloadSpec.emptyWorld in
      fst offline = Js.Ok (Monitor.Exited 1)
      /\ last (Sys.journal (snd offline))
         = Some (Sys.error, Sys.UpdateProcessFailed "offline")).
Proof.
  cbv zeta. split; [| split; [| split]].
  - apply AbortFacts.run_nothing_detected.
  - intros msg. apply AbortFacts.run_resolution_fails.
  - intros latest d. apply AbortFacts.run_table_fails.
  - vm_compute. split; reflexivity.
Qed.

(** ** Resolving the latest version *)

(** X21. When the primary source does not fail, [getLatestVersion]
    returns what it reports and fetches no page.  When it fails (the
    request throws, the status is outside 200..299, the body is not JSON,
    or [results[0].extensions[0].versions[0]] is missing), the fallback
    page is fetched, no primary success is logged, the fallback's version
    is returned whenever the fallback yields one, and every version
    returned is one the fallback yielded.  The resolution throws only when
    the primary source failed and the fallback failed as well.  On a
    response without extensions and a page carrying 9.9.9, the result is
    9.9.9, logged as coming from the fallback. *)
Theorem fallback_resolution_by_cases :
  (forall (env : Monitor.Env) (w : Sys.World),
     ResolveSpec.primaryFails env = false ->
     fst (Monitor.getLatestVersion env w) = Js.Ok (ResolveSpec.primaryVersion env)
     /\ Sys.requests (snd (Monitor.getLatestVersion env w)) = Sys.requests w)
  /\ (forall (env : Monitor.Env) (w : Sys.World),
        ResolveSpec.primaryFails env = true ->
        (exists es urls,
           snd (Monitor.getLatestVersion env w)
           = ResolveSpec.fetched w es (Monitor.pageUrl :: urls)
           /\ List.filter ResolveSpec.isPrimaryLine es = [])
        /\ (forall s, ResolveSpec.fallbackOutcome env (Sys.requests w) = Js.Ok s ->
              fst (Monitor.getLatestVersion env w) = Js.Ok (Some (Json.JStr s)))
        /\ (forall v, fst (Monitor.getLatestVersion env w) = Js.Ok v ->
              exists s reqs,
                v = Some (Json.JStr s)
                /\ ResolveSpec.fallbackOutcome env reqs = Js.Ok s
                /\ In (Sys.info, Sys.LatestVersionFallback s)
                      (Sys.journal (snd (Monitor.getLatestVersion env w)))))
  /\ (forall (env : Monitor.Env) (w : Sys.World) (msg : string),
        fst (Monitor.getLatestVersion env w) = Js.Throw msg ->
        ResolveSpec.primaryFails env = true
        /\ (exists m, ResolveSpec.fallbackOutcome env (Sys.requests w) = Js.Throw m)
        /\ (exists reqs, ResolveSpec.fallbackOutcome env reqs = Js.Throw msg))
  /\ (let env := ResolveSpec.fallbackEnv
                   (Js.Ok (Monitor.mkResponse 200 (Js.Ok ResolveSpec.apiNoExtension)))
                   (fun _ => Js.Ok (Monitor.mkResponse 200 (Js.Ok ResolveSpec.samplePage))) in
      ResolveSpec.primaryFails env = true
      /\ Monitor.getLatestVersion env DownloadSpec.emptyWorld
         = (Js.Ok (Some (Json.JStr "9.9.9")),
            ResolveSpec.fetched DownloadSpec.emptyWorld
              [(Sys.info, Sys.FetchingLatest); (Sys.warning, Sys.NoExtensionInResponse);
               (Sys.info, Sys.UsingFallback); (Sys.info, Sys.LatestVersionFallback "9.9.9")]
              [Monitor.pageUrl])).
Proof.
  split; [| split; [| split]].
  - intros env w Hprimary.
    rewrite (ResolveFacts.getLatestVersion_eval env w), Hprimary. cbn.
    split; [reflexivity | apply app_nil_r].
  - intros env w Hprimary.
    rewrite (ResolveFacts.getLatestVersion_eval env w), Hprimary. cbv zeta.
    pose proof (ResolveFacts.primaryNote_lines env) as Hnote.
    assert (forall tail,
              List.filter ResolveSpec.isPrimaryLine tail = [] ->
              List.filter ResolveSpec.isPrimaryLine
                (((Sys.info, Sys.FetchingLatest) :: ResolveSpec.primaryNote env) ++ tail)
              = []) as Hpre.
    { intros tail Htail. rewrite List.filter_app, Htail. cbn. now rewrite Hnote. }
    destruct (ResolveSpec.fallbackOutcome env (Sys.requests w)) as [s|m] eqn:Hfirst.
    { cbn [fst snd]. split; [| split].
      - do 2 eexists. split; [reflexivity |]. now apply Hpre.
      - now intros s' [= <-].
      - intros v [= <-]. exists s, (Sys.requests w). split; [reflexivity |].
        split; [assumption |]. cbn [ResolveSpec.fetched Sys.journal].
        rewrite !in_app_iff. right. right. cbn. tauto. }
    destruct (ResolveSpec.declined env).
    + destruct (ResolveSpec.fallbackOutcome env (Sys.requests w ++ [Monitor.pageUrl]))
        as [s|m'] eqn:Hsecond; cbn [fst snd].
      * split; [| split].
        -- do 2 eexists. split; [reflexivity |]. now apply Hpre.
        -- discriminate.
        -- intros v [= <-]. exists s, (Sys.requests w ++ [Monitor.pageUrl]).
           split; [reflexivity |]. split; [assumption |].
           cbn [ResolveSpec.fetched Sys.journal].
           rewrite !in_app_iff. right. right. cbn. tauto.
      * split; [| split].
        -- do 2 eexists. split; [reflexivity |]. now apply Hpre.
        -- discriminate.
        -- discriminate.
    + cbn [fst snd]. split; [| split].
      * do 2 eexists. split; [reflexivity |]. now apply Hpre.
      * discriminate.
      * discriminate.
  - intros env w msg.
    rewrite (ResolveFacts.getLatestVersion_eval env w).
    destruct (ResolveSpec.primaryFails env); [| discriminate]. cbv zeta.
    destruct (ResolveSpec.fallbackOutcome env (Sys.requests w)) as [s|m] eqn:Hfirst;
      [discriminate |].
    destruct (ResolveSpec.declined env).
    + destruct (ResolveSpec.fallbackOutcome env (Sys.requests w ++ [Monitor.pageUrl]))
        as [s|m'] eqn:Hsecond; [discriminate |].
      intros [= <-]. split; [reflexivity |]. split; eauto.
    + intros [= <-]. split; [reflexivity |]. split; eauto.
  - vm_compute. split; reflexivity.
Qed.

(** ** The answer of a dialog *)

(** X22. [sendNativeNotification] reads the button from what the dialog
    command prints.  An output that is [button returned:] followed by a
    non-empty text without line terminator gives that text, trimmed; an
    output that ends with a line terminator gives the first button,
    whatever precedes the terminator, because the pattern must run to the
    end of the output.  In a dry run no dialog is shown and the answer is
    [OK]; when the command fails the answer is [null] and a warning is
    logged.  So in cron mode a dialog whose output ends with a line
    terminator selects nothing, also when it names [Update All]. *)
Theorem dialog_answer_is_parsed :
  (forall (b : string) (buttons : list string),
     b <> ""%string ->
     Js.all_chars (fun c => negb (Js.is_line_terminator c)) b = true ->
     Monitor.buttonReturned ("button returned:" +:+ b) buttons = Some (Js.trim b))
  /\ (forall (s : string) (c : ascii) (buttons : list string),
        Js.is_line_terminator c = true ->
        Monitor.buttonReturned (s +:+ String c "") buttons = head buttons)
  /\ (forall env title buttons w,
        Monitor.isDryRun env = true ->
        Monitor.sendNativeNotification env title buttons w
        = (Js.Ok (Some "OK"%string),
           DetectSpec.logged w [(Sys.warning, Sys.DryRunNotification title)]))
  /\ (forall env title buttons w,
        Monitor.isDryRun env = false ->
        Monitor.sendNativeNotification env title buttons w
        = match Monitor.dialog env title with
          | Some output => (Js.Ok (Monitor.buttonReturned output buttons), w)
          | None => (Js.Ok None,
                     DetectSpec.logged w [(Sys.warning, Sys.NotificationFailed title)])
          end)
  /\ (forall env ideStatus latestVersion w (s : string) (c : ascii) targets w',
        Monitor.isCronMode env = true ->
        Monitor.dialog env "Augment Extension Update Available" = Some (s +:+ String c "") ->
        Js.is_line_terminator c = true ->
        Monitor.promptSelection env ideStatus latestVersion w = (Js.Ok targets, w') ->
        targets = []).
Proof.
  split; [exact DialogFacts.buttonReturned_exact |].
  split; [exact DialogFacts.buttonReturned_line |].
  split; [| split].
  - intros env title buttons w Hdry. unfold Monitor.sendNativeNotification.
    rewrite Hdry. reflexivity.
  - intros env title buttons w Hdry. unfold Monitor.sendNativeNotification.
    rewrite Hdry. destruct (Monitor.dialog env title); reflexivity.
  - intros env ideStatus latestVersion w s c targets w' Hcron Hd Hc.
    apply RunFacts.promptSelection_declined. rewrite Hcron. right.
    intros output Ho. rewrite Hd in Ho. injection Ho as <-.
    rewrite (DialogFacts.buttonReturned_line s c _ Hc). discriminate.
Qed.
